(** * The swift-plus storage driver: a shallow embedding and its properties

    The driver (package swiftplus) keeps file metadata in two SQL tables,
    [files] and [segments], and large contents in an object store.  The
    embedding follows the Go source function by function.

    - The tables are lists of rows.  A statement always succeeds, except
      where a primary key or a column type rejects it.
    - The object store is a list of named objects together with the calls
      it has received; it is always available.
    - A driver method is a state transformer over a [world] and returns a
      value, a Go error, or [OutOfFuel] when the recursion budget of
      [mkdirAll] or [deleteDownwards] is used up.
    - time.Now() reads the field [now]; crypto/rand reads the field
      [entropy].
    - A stream that [Reader] returns is the list of bytes it delivers.
    - [Writer] returns a [bufferedWriter]: a buffer as bufio.Writer keeps
      it in front of the [plusWriter].
    - Besides the driver, the file covers the parser of token scopes
      (package auth), the filters for the actions of a scope (package api)
      and the registry of auth drivers (package keppel). *)

From Stdlib Require Import List Arith ZArith Lia Bool Ascii String.
From Stdlib Require Import Strings.Byte.
From Stdlib Require Import DecimalString DecimalN DecimalPos.
Import ListNotations.
Open Scope string_scope.
Open Scope list_scope.

(** String concatenation, kept apart from the list append [++]. *)
Infix "+++" := String.append (right associativity, at level 60).

(** ** Strings *)

Module Str.

Definition isSlash (c : ascii) : bool := Ascii.eqb c "/"%char.

(** [noSlash s]: the byte '/' does not occur in [s]. *)
Fixpoint noSlash (s : string) : bool :=
  match s with
  | EmptyString => true
  | String c r => negb (isSlash c) && noSlash r
  end.

(** strings.TrimRight(s, "/") *)
Fixpoint trimRightSlash (s : string) : string :=
  match s with
  | EmptyString => EmptyString
  | String c r =>
      match trimRightSlash r with
      | EmptyString => if isSlash c then EmptyString else String c EmptyString
      | r' => String c r'
      end
  end.

(** strings.TrimLeft(s, "/") *)
Fixpoint trimLeftSlash (s : string) : string :=
  match s with
  | EmptyString => EmptyString
  | String c r => if isSlash c then trimLeftSlash r else s
  end.

(** strings.Trim(s, "/") *)
Definition Trim (s : string) : string := trimRightSlash (trimLeftSlash s).

(** strings.Split(s, "/") *)
Fixpoint splitSlash (s : string) : list string :=
  match s with
  | EmptyString => [EmptyString]
  | String c r =>
      if isSlash c then EmptyString :: splitSlash r
      else match splitSlash r with
           | x :: xs => String c x :: xs
           | [] => [String c EmptyString]
           end
  end.

(** [dirSlash cs] is "c1/c2/.../cn/": every element followed by a slash. *)
Fixpoint dirSlash (cs : list string) : string :=
  match cs with
  | [] => EmptyString
  | c :: r => c +++ "/" +++ dirSlash r
  end.

End Str.

(** ** Go's [path] package

    [path] belongs to the Go standard library.  [Clean] is modelled by the
    four rules of its documentation, applied element by element: empty
    elements and "." are dropped, ".." removes the element before it (at
    the root it is dropped, on a relative path leading ".." are kept). *)

Module path.
Import Str.

Definition isRooted (p : string) : bool :=
  match p with
  | String c _ => isSlash c
  | EmptyString => false
  end.

(** The stack holds the elements kept so far, last one first. *)
Fixpoint cleanElems (rooted : bool) (stack : list string) (elems : list string)
  : list string :=
  match elems with
  | [] => rev stack
  | e :: es =>
      if (e =? "") || (e =? ".") then cleanElems rooted stack es
      else if e =? ".." then
        match stack with
        | top :: rest =>
            if top =? ".." then cleanElems rooted (e :: stack) es
            else cleanElems rooted rest es
        | [] =>
            if rooted then cleanElems rooted stack es
            else cleanElems rooted [e] es
        end
      else cleanElems rooted (e :: stack) es
  end.

Definition Clean (p : string) : string :=
  match p with
  | EmptyString => "."
  | _ =>
      let rooted := isRooted p in
      let out := (if rooted then "/" else "")
                   +++ String.concat "/" (cleanElems rooted [] (splitSlash p)) in
      match out with
      | EmptyString => "."
      | _ => out
      end
  end.

(** path.Split: the part up to and including the last slash, and the rest. *)
Fixpoint Split (p : string) : string * string :=
  match p with
  | EmptyString => (EmptyString, EmptyString)
  | String c r =>
      match Split r with
      | (EmptyString, file) =>
          if isSlash c then (String c EmptyString, file)
          else (EmptyString, String c file)
      | (dir, file) => (String c dir, file)
      end
  end.

Definition Dir (p : string) : string := Clean (fst (Split p)).

Definition Base (p : string) : string :=
  match p with
  | EmptyString => "."
  | _ =>
      match snd (Split (trimRightSlash p)) with
      | EmptyString => "/"
      | b => b
      end
  end.

(** path.Join of two elements. *)
Definition Join (a b : string) : string :=
  match a, b with
  | EmptyString, EmptyString => EmptyString
  | EmptyString, _ => Clean b
  | _, _ => Clean (a +++ "/" +++ b)
  end.

(** A path element the namespace can hold: non-empty, without slash, and
    neither "." nor "..". *)
Definition validElem (e : string) : bool :=
  noSlash e && negb ((e =? "") || (e =? ".") || (e =? "..")).

Definition validElems (cs : list string) : Prop :=
  Forall (fun e => validElem e = true) cs.

(** The absolute path with the given elements; the root for none. *)
Definition absPath (cs : list string) : string := "/" +++ String.concat "/" cs.

(** A well-formed file path: "/e1/e2/.../en" with n >= 1. *)
Definition validPath (p : string) : bool :=
  match p with
  | String c r => isSlash c && forallb validElem (splitSlash r)
  | EmptyString => false
  end.

(** A well-formed directory path: the root or a well-formed file path. *)
Definition validDir (p : string) : bool := (p =? "/") || validPath p.

End path.


(** ** Encodings used for object names *)

Module Enc.

Definition hexDigit (n : N) : ascii :=
  match n with
  | 0 => "0" | 1 => "1" | 2 => "2" | 3 => "3" | 4 => "4" | 5 => "5"
  | 6 => "6" | 7 => "7" | 8 => "8" | 9 => "9" | 10 => "a" | 11 => "b"
  | 12 => "c" | 13 => "d" | 14 => "e" | _ => "f"
  end%N%char.

(** hex.EncodeToString *)
Fixpoint hexEncode (bs : list byte) : string :=
  match bs with
  | [] => EmptyString
  | b :: r =>
      let n := Byte.to_N b in
      String (hexDigit (N.div n 16)) (String (hexDigit (N.modulo n 16)) (hexEncode r))
  end.

Fixpoint zeros (n : nat) : string :=
  match n with
  | O => EmptyString
  | S k => String "0"%char (zeros k)
  end.

Definition padZeros (width : nat) (s : string) : string :=
  zeros (width - String.length s) +++ s.

(** fmt.Sprintf("%016d", n): the sign counts towards the width of 16. *)
Definition Sprintf016d (n : Z) : string :=
  if (n <? 0)%Z
  then "-" +++ padZeros 15 (NilZero.string_of_uint (N.to_uint (Z.to_N (- n))))
  else padZeros 16 (NilZero.string_of_uint (N.to_uint (Z.to_N n))).

(** Conversions between Go's fixed-width integers. *)
Definition wrapU64 (z : Z) : Z := (z mod 2 ^ 64)%Z.
Definition wrapI64 (z : Z) : Z := ((z + 2 ^ 63) mod 2 ^ 64 - 2 ^ 63)%Z.

End Enc.

(** ** Rows, errors and the world the driver runs in *)

Definition maxInlineSizeBytes : nat := 256.

(** time.Time as Unix seconds; the zero Time is January 1 of year 1. *)
Definition zeroTime : Z := (-62135596800)%Z.

(** fileInfo describes an entry in the [files] table. *)
Record fileInfo := mkFileInfo {
  DirName : string;
  BaseName : string;
  SizeBytes : Z;          (* negative value signifies directory *)
  ModifiedAt : Z;
  Contents : list byte;   (* empty for large files *)
  Location : string       (* empty for files stored in the DB *)
}.

(** A row of the [segments] table. *)
Record segmentRow := mkSegmentRow {
  rowLocation : string;
  rowNumber : Z;
  rowSizeBytes : Z;
  rowHash : string
}.

Module seg.
Record plusSegment := mkSegment {
  Prefix : string;
  Location : string;
  Number : Z;      (* uint64 *)
  SizeBytes : Z;   (* uint64 *)
  Hash : string
}.
End seg.


Inductive error :=
| PathNotFoundError (p : string)   (* storagedriver.PathNotFoundError *)
| ErrUnsupportedMethod             (* storagedriver.ErrUnsupportedMethod *)
| ErrNoRows                        (* sql.ErrNoRows *)
| errCancelled
| errClosed
| errCommitted
| ErrUniqueViolation               (* pq: duplicate key value *)
| ErrOutOfRange                    (* pq: integer out of range *)
| ErrRandRead.                     (* crypto/rand could not be read *)

(** The outcome of a call: a value, a Go error, or the recursion budget of
    the model used up. *)
Inductive result (A : Type) :=
| Ok (a : A)
| Err (e : error)
| OutOfFuel.
Arguments Ok {A} a.
Arguments Err {A} e.
Arguments OutOfFuel {A}.

(** Statements executed against the [files] and [segments] tables. *)
Inductive stmt :=
| StUpsertFile (fi : fileInfo)
| StInsertDir (dirname basename : string)
| StUpdateKey (dirname' basename' dirname basename : string)
| StDeleteFile (dirname basename : string)
| StInsertSegment (row : segmentRow).

(** Modelled from the spec: the Object Store Adapter ([swiftInterface]) is
    not among the sources.  Section 6 gives its operations: write an object
    and get its hash back, read from an offset, delete everything under a
    prefix, write a manifest over an ordered list of segments (read back as
    their concatenation) and issue a temporary URL.  Objects are kept as a
    list of named entries, and every call is recorded. *)
Inductive object :=
| Blob (data : list byte)
| SLO (segmentNames : list string).

Inductive swiftCall :=
| CallWrite (name : string) (data : list byte)
| CallWriteSLO (name : string) (segmentNames : list string)
| CallReader (name : string) (offset : Z)
| CallDeleteAll (prefix : string)
| CallMakeTempURL (name : string).

Record swiftInterface := mkSwift {
  ObjectPrefix : string;
  ChunkSize : nat;
  objects : list (string * object);
  calls : list swiftCall
}.

Record world := mkWorld {
  files : list fileInfo;          (* table files, primary key (dirname, basename) *)
  segmentRows : list segmentRow;  (* table segments, primary key (location, number) *)
  journal : list stmt;            (* statements executed so far *)
  swift : swiftInterface;
  now : Z;                        (* time.Now() / NOW() *)
  entropy : list byte             (* bytes crypto/rand will deliver *)
}.

Definition setFiles (t : list fileInfo) (s : stmt) (w : world) : world :=
  mkWorld t (segmentRows w) (journal w ++ [s]) (swift w) (now w) (entropy w).

Definition setSegmentRows (t : list segmentRow) (s : stmt) (w : world) : world :=
  mkWorld (files w) t (journal w ++ [s]) (swift w) (now w) (entropy w).

Definition setSwift (sw : swiftInterface) (w : world) : world :=
  mkWorld (files w) (segmentRows w) (journal w) sw (now w) (entropy w).

Definition setEntropy (e : list byte) (w : world) : world :=
  mkWorld (files w) (segmentRows w) (journal w) (swift w) (now w) e.

(** ** The monad of driver calls *)

Definition M (A : Type) : Type := world -> result A * world.

Definition ret {A} (a : A) : M A := fun w => (Ok a, w).
Definition fail {A} (e : error) : M A := fun w => (Err e, w).
Definition outOfFuel {A} : M A := fun w => (OutOfFuel, w).

Definition bind {A B} (m : M A) (k : A -> M B) : M B :=
  fun w =>
    match m w with
    | (Ok a, w') => k a w'
    | (Err e, w') => (Err e, w')
    | (OutOfFuel, w') => (OutOfFuel, w')
    end.

Definition gets {A} (f : world -> A) : M A := fun w => (Ok (f w), w).

(** Rewrites the error of a call, as [return x, f(err)] does. *)
Definition mapErr {A} (f : error -> error) (m : M A) : M A :=
  fun w =>
    match m w with
    | (Err e, w') => (Err (f e), w')
    | r => r
    end.

Declare Scope drv_scope.
Delimit Scope drv_scope with drv.
Notation "x <- m ;; k" := (bind m (fun x => k))
  (at level 100, m at next level, right associativity) : drv_scope.
Notation "' pat <- m ;; k" := (bind m (fun x => match x with pat => k end))
  (at level 100, pat pattern, m at next level, right associativity) : drv_scope.
Open Scope drv_scope.

(** Runs [f] on every element in order and stops at the first failure. *)
Fixpoint forEach {A} (l : list A) (f : A -> M unit) : M unit :=
  match l with
  | [] => ret tt
  | x :: r => _ <- f x ;; forEach r f
  end.

(** ** The SQL tables *)

Module sql.

Definition keyEq (d b : string) (r : fileInfo) : bool :=
  (DirName r =? d) && (BaseName r =? b).

(** SELECT ... FROM files WHERE dirname = d AND basename = b *)
Definition selectFile (d b : string) (t : list fileInfo) : option fileInfo :=
  find (keyEq d b) t.

(** SELECT ... FROM files WHERE dirname = d *)
Definition selectChildren (d : string) (t : list fileInfo) : list fileInfo :=
  filter (fun r => DirName r =? d) t.

Definition hasFile (d b : string) (t : list fileInfo) : bool :=
  existsb (keyEq d b) t.

(** INSERT ... ON CONFLICT (dirname, basename) DO UPDATE SET ... *)
Definition upsertFile (fi : fileInfo) (t : list fileInfo) : list fileInfo :=
  if hasFile (DirName fi) (BaseName fi) t
  then map (fun r => if keyEq (DirName fi) (BaseName fi) r then fi else r) t
  else t ++ [fi].

(** INSERT ... ON CONFLICT (dirname, basename) DO NOTHING *)
Definition insertIgnore (fi : fileInfo) (t : list fileInfo) : list fileInfo :=
  if hasFile (DirName fi) (BaseName fi) t then t else t ++ [fi].

(** DELETE FROM files WHERE dirname = d AND basename = b *)
Definition deleteFile (d b : string) (t : list fileInfo) : list fileInfo :=
  filter (fun r => negb (keyEq d b r)) t.

Definition rekey (d' b' : string) (r : fileInfo) : fileInfo :=
  mkFileInfo d' b' (SizeBytes r) (ModifiedAt r) (Contents r) (Location r).

(** UPDATE files SET dirname = d', basename = b' WHERE dirname = d AND
    basename = b.  The primary key rejects the update when a row is moved
    onto the key of another row. *)
Definition updateKey (d' b' d b : string) (t : list fileInfo)
  : option (list fileInfo) :=
  if hasFile d b t && negb ((d' =? d) && (b' =? b)) && hasFile d' b' t
  then None
  else Some (map (fun r => if keyEq d b r then rekey d' b' r else r) t).

Definition segKeyEq (l : string) (n : Z) (r : segmentRow) : bool :=
  (rowLocation r =? l) && (rowNumber r =? n)%Z.

(** INSERT INTO segments ...: the primary key (location, number) rejects
    duplicates, the INT column rejects numbers beyond 32 bits. *)
Definition insertSegment (row : segmentRow) (t : list segmentRow)
  : result (list segmentRow) :=
  if (2147483647 <? rowNumber row)%Z then Err ErrOutOfRange
  else if existsb (segKeyEq (rowLocation row) (rowNumber row)) t
       then Err ErrUniqueViolation
       else Ok (t ++ [row]).

Fixpoint insertByNumber (r : segmentRow) (l : list segmentRow) : list segmentRow :=
  match l with
  | [] => [r]
  | x :: xs =>
      if (rowNumber r <=? rowNumber x)%Z then r :: x :: xs
      else x :: insertByNumber r xs
  end.

(** SELECT ... FROM segments WHERE location = l ORDER BY number *)
Definition selectSegments (l : string) (t : list segmentRow) : list segmentRow :=
  fold_right insertByNumber [] (filter (fun r => rowLocation r =? l) t).

End sql.

(** Statement execution: the table changes and the journal grows. *)
Definition execUpsertFile (fi : fileInfo) : M unit :=
  fun w => (Ok tt, setFiles (sql.upsertFile fi (files w)) (StUpsertFile fi) w).

Definition execInsertDir (d b : string) : M unit :=
  fun w =>
    (Ok tt, setFiles (sql.insertIgnore (mkFileInfo d b (-1) (now w) [] "") (files w))
                     (StInsertDir d b) w).

Definition execDeleteFile (d b : string) : M unit :=
  fun w => (Ok tt, setFiles (sql.deleteFile d b (files w)) (StDeleteFile d b) w).

Definition execUpdateKey (d' b' d b : string) : M unit :=
  fun w =>
    match sql.updateKey d' b' d b (files w) with
    | Some t => (Ok tt, setFiles t (StUpdateKey d' b' d b) w)
    | None => (Err ErrUniqueViolation, w)
    end.

Definition execInsertSegment (row : segmentRow) : M unit :=
  fun w =>
    match sql.insertSegment row (segmentRows w) with
    | Ok t => (Ok tt, setSegmentRows t (StInsertSegment row) w)
    | Err e => (Err e, w)
    | OutOfFuel => (OutOfFuel, w)
    end.

(** ** The object store *)

Module swiftModel.

Fixpoint lookup (name : string) (objs : list (string * object)) : option object :=
  match objs with
  | [] => None
  | (n, o) :: r => if n =? name then Some o else lookup name r
  end.

Fixpoint put (name : string) (o : object) (objs : list (string * object))
  : list (string * object) :=
  match objs with
  | [] => [(name, o)]
  | (n, o') :: r => if n =? name then (n, o) :: r else (n, o') :: put name o r
  end.

Definition deletePrefix (prefix : string) (objs : list (string * object))
  : list (string * object) :=
  filter (fun e => negb (String.prefix prefix (fst e))) objs.

Definition blobOf (objs : list (string * object)) (name : string)
  : option (list byte) :=
  match lookup name objs with
  | Some (Blob d) => Some d
  | _ => None
  end.

(** The bytes of all segments in order, if every segment is there. *)
Fixpoint gather (objs : list (string * object)) (names : list string)
  : option (list byte) :=
  match names with
  | [] => Some []
  | n :: r =>
      match blobOf objs n, gather objs r with
      | Some d, Some ds => Some (d ++ ds)
      | _, _ => None
      end
  end.

Definition content (objs : list (string * object)) (name : string)
  : option (list byte) :=
  match lookup name objs with
  | Some (Blob d) => Some d
  | Some (SLO names) => gather objs names
  | None => None
  end.

(** The hash the store reports for an upload; an opaque value for the
    driver, here the hex form of the bytes. *)
Definition etag (data : list byte) : string := Enc.hexEncode data.

Definition record (c : swiftCall) (objs : list (string * object))
  (sw : swiftInterface) : swiftInterface :=
  mkSwift (ObjectPrefix sw) (ChunkSize sw) objs (calls sw ++ [c]).

(** Modelled from the spec: write(objectPath, bytes) -> hash stores the
    bytes under the name and returns their hash. *)
Definition Write (name : string) (data : list byte) : M string :=
  fun w =>
    (Ok (etag data),
     setSwift (record (CallWrite name data)
                      (put name (Blob data) (objects (swift w))) (swift w)) w).

(** Modelled from the spec: writeManifest(objectPath, orderedSegments)
    stores a manifest that refers to the segments in order. *)
Definition WriteSLO (name : string) (segmentNames : list string) : M unit :=
  fun w =>
    (Ok tt,
     setSwift (record (CallWriteSLO name segmentNames)
                      (put name (SLO segmentNames) (objects (swift w))) (swift w)) w).

(** Modelled from the spec: read(objectPath, offset) -> byteStream; a
    manifest reads as the concatenation of its segments, a missing object
    is reported as not found under the object's name. *)
Definition Reader (name : string) (offset : Z) : M (list byte) :=
  fun w =>
    let w' := setSwift (record (CallReader name offset)
                               (objects (swift w)) (swift w)) w in
    match content (objects (swift w)) name with
    | Some d => (Ok (skipn (Z.to_nat offset) d), w')
    | None => (Err (PathNotFoundError name), w')
    end.

(** Modelled from the spec: deleteAll(prefix) removes every object whose
    name begins with the prefix. *)
Definition DeleteAll (prefix : string) : M unit :=
  fun w =>
    (Ok tt,
     setSwift (record (CallDeleteAll prefix)
                      (deletePrefix prefix (objects (swift w))) (swift w)) w).

(** Modelled from the spec: makeTemporaryURL(objectPath, options) -> url. *)
Definition MakeTempURL (name : string) (options : list (string * string))
  : M string :=
  fun w =>
    (Ok ("https://objectstore/" +++ name +++ "?temp_url_sig"),
     setSwift (record (CallMakeTempURL name) (objects (swift w)) (swift w)) w).

Definition isWrite (c : swiftCall) : bool :=
  match c with
  | CallWrite _ _ | CallWriteSLO _ _ => true
  | _ => false
  end.

(** Number of write calls the store has received. *)
Definition writeCalls (sw : swiftInterface) : nat :=
  List.length (filter isWrite (calls sw)).

End swiftModel.

(** ** The driver *)

Module plusDriver.
Import path.

Definition prependPrefix (prefix fullPath : string) : string :=
  match prefix with
  | EmptyString => Str.Trim fullPath
  | _ => prefix +++ "/" +++ Str.Trim fullPath
  end.

(** Chooses a new random string for fileInfo.Location: eight bytes of
    crypto/rand in hex.  Fails when the bytes cannot be read. *)
Definition plusRandLocation : M string :=
  fun w =>
    if (List.length (entropy w) <? 8)%nat then (Err ErrRandRead, w)
    else (Ok (Enc.hexEncode (firstn 8 (entropy w))),
          setEntropy (skipn 8 (entropy w)) w).

Definition setReportedPath (err : error) (p : string) : error :=
  match err with
  | PathNotFoundError _ => PathNotFoundError p
  | _ => err
  end.

Definition isErrNoRows (err : option error) : bool :=
  match err with
  | Some ErrNoRows => true
  | _ => false
  end.

(** The storagedriver.FileInfo interface *)
Definition Path (fi : fileInfo) : string := Join (DirName fi) (BaseName fi).
Definition Size (fi : fileInfo) : Z := SizeBytes fi.
Definition ModTime (fi : fileInfo) : Z := ModifiedAt fi.
Definition IsDir (fi : fileInfo) : bool := (SizeBytes fi <? 0)%Z.

(** ObjectPath returns where the blob (if any) for this file is stored. *)
Definition ObjectPath (fi : fileInfo) : string := Location fi +++ "/content".

(** Returns the row for [fullPath] and a nil error, or a fileInfo that only
    has its names set together with sql.ErrNoRows. *)
Definition readFileInfo (fullPath : string) : M (fileInfo * option error) :=
  fun w =>
    let d := Dir fullPath in
    let b := Base fullPath in
    match sql.selectFile d b (files w) with
    | Some row =>
        (Ok (mkFileInfo d b (SizeBytes row) (ModifiedAt row) (Contents row)
                        (Location row), None), w)
    | None => (Ok (mkFileInfo d b 0 zeroTime [] "", Some ErrNoRows), w)
    end.

Fixpoint mkdirAll (fuel : nat) (fullPath : string) : M unit :=
  match fuel with
  | O => outOfFuel
  | S fuel' =>
      if (fullPath =? "/") || (fullPath =? "") then ret tt
      else
        let dirname := Dir fullPath in
        let basename := Base fullPath in
        _ <- execInsertDir dirname basename ;;
        mkdirAll fuel' dirname
  end.

Definition writeFileInfo (fuel : nat) (fi : fileInfo) : M unit :=
  fun w =>
    let fi := if (ModifiedAt fi =? zeroTime)%Z
              then mkFileInfo (DirName fi) (BaseName fi) (SizeBytes fi) (now w)
                              (Contents fi) (Location fi)
              else fi in
    (_ <- execUpsertFile fi ;;
     (* create directories above this file if necessary *)
     mkdirAll fuel (DirName fi)) w.

(** The object name of a segment: the prefixed location and the number
    printed with sixteen digits. *)
Definition segmentObjectPath (s : seg.plusSegment) : string :=
  prependPrefix (seg.Prefix s) (seg.Location s) +++ "/"
    +++ Enc.Sprintf016d (Enc.wrapI64 (seg.Number s)).

Definition readSegmentInfo (location : string) : M (list seg.plusSegment) :=
  fun w =>
    if location =? "" then (Ok [], w)
    else
      (Ok (map (fun r => seg.mkSegment (ObjectPrefix (swift w)) location
                           (rowNumber r) (rowSizeBytes r) (rowHash r))
               (sql.selectSegments location (segmentRows w))), w).

Definition swiftObjectName (objectPath : string) : M string :=
  gets (fun w => prependPrefix (ObjectPrefix (swift w)) objectPath).

(** deleteBlobs removes all blobs and segments from Swift that are
    associated with this file. *)
Definition deleteBlobs (fi : fileInfo) : M unit :=
  if Location fi =? "" then ret tt
  else
    name <- swiftObjectName (Location fi) ;;
    swiftModel.DeleteAll (name +++ "/").

(** deleteDownwards removes all files and directories below [fi] from the
    DB.  The rows of the children are fetched by one query; the loop then
    visits them one after the other. *)
Fixpoint deleteDownwards (fuel : nat) (fi : fileInfo) : M unit :=
  match fuel with
  | O => outOfFuel
  | S fuel' =>
      _ <- deleteBlobs fi ;;
      _ <- (if IsDir fi then
              rows <- gets (fun w => sql.selectChildren (Path fi) (files w)) ;;
              forEach rows (fun row =>
                let fiSub := mkFileInfo (Path fi) (BaseName row) (SizeBytes row)
                               (ModifiedAt row) (Contents row) (Location row) in
                deleteDownwards fuel' fiSub)
            else ret tt) ;;
      execDeleteFile (DirName fi) (BaseName fi)
  end.

Definition GetContent (fullPath : string) : M (list byte) :=
  '(fi, err) <- readFileInfo fullPath ;;
  if isErrNoRows err || IsDir fi then fail (PathNotFoundError fullPath)
  else
    match err with
    | Some e => fail e
    | None =>
        if (SizeBytes fi =? 0)%Z then ret []
        else if (0 <? List.length (Contents fi))%nat then ret (Contents fi)
        else
          (* file exists, but contents are too big for the DB *)
          name <- swiftObjectName (ObjectPath fi) ;;
          mapErr (fun e => setReportedPath e (Path fi)) (swiftModel.Reader name 0)
    end.

Definition PutContent (fuel : nat) (fullPath : string) (contents : list byte)
  : M unit :=
  (* if file exists already, remove its previous content from Swift *)
  '(fi, err) <- readFileInfo fullPath ;;
  _ <- match err with
       | None => deleteBlobs fi
       | Some ErrNoRows => ret tt
       | Some e => fail e
       end ;;
  let uploadToSwift := (maxInlineSizeBytes <? List.length contents)%nat in
  location <- (if uploadToSwift then plusRandLocation else ret "") ;;
  let fi := mkFileInfo (Dir fullPath) (Base fullPath)
              (Z.of_nat (List.length contents)) zeroTime
              (if uploadToSwift then [] else contents) location in
  _ <- writeFileInfo fuel fi ;;
  if negb uploadToSwift then ret tt
  else
    name <- swiftObjectName (ObjectPath fi) ;;
    mapErr (fun e => setReportedPath e fullPath)
           (_ <- swiftModel.Write name contents ;; ret tt).

(** The stream that Reader returns is modelled by the bytes it delivers. *)
Definition Reader (fullPath : string) (offset : Z) : M (list byte) :=
  '(fi, err) <- readFileInfo fullPath ;;
  if isErrNoRows err || IsDir fi then fail (PathNotFoundError fullPath)
  else
    match err with
    | Some e => fail e
    | None =>
        (* fast path: return empty reader without further queries if offset
           exceeds file size *)
        if (SizeBytes fi <? offset)%Z then ret []
        (* return content from DB if possible *)
        else if Location fi =? "" then
          let data := Contents fi in
          ret (if (0 <? offset)%Z
               then if (Z.of_nat (List.length data) <? offset)%Z then []
                    else skipn (Z.to_nat offset) data
               else data)
        else
          (* query Swift if necessary *)
          name <- swiftObjectName (ObjectPath fi) ;;
          mapErr (fun e => setReportedPath e (Path fi))
                 (swiftModel.Reader name offset)
    end.

Definition Stat (fullPath : string) : M fileInfo :=
  (* special case: health check looks at Stat("/") *)
  if fullPath =? "/" then ret (mkFileInfo "/" "/" (-1) 0 [] "")
  else
    '(fi, err) <- readFileInfo fullPath ;;
    match err with
    | Some ErrNoRows => fail (PathNotFoundError fullPath)
    | Some e => fail e
    | None => ret fi
    end.

(** The query yields the rows whose dirname is [fullPath]; without such
    rows the result is empty and there is no error. *)
Definition List (fullPath : string) : M (list string) :=
  rows <- gets (fun w => sql.selectChildren fullPath (files w)) ;;
  ret (map (fun row => Join fullPath (BaseName row)) rows).

Definition Move (fuel : nat) (sourcePath destPath : string) : M unit :=
  '(fi1, err) <- readFileInfo sourcePath ;;
  if isErrNoRows err then fail (PathNotFoundError sourcePath)
  else
    (* delete target file, if it exists *)
    '(fi2, err) <- readFileInfo destPath ;;
    _ <- match err with
         | None => deleteDownwards fuel fi2
         | Some ErrNoRows => ret tt
         | Some e => fail e
         end ;;
    (* move DB record *)
    _ <- execUpdateKey (Dir destPath) (Base destPath) (DirName fi1) (BaseName fi1) ;;
    (* create missing directories above target *)
    mkdirAll fuel (Dir destPath).

Definition Delete (fuel : nat) (fullPath : string) : M unit :=
  '(fi, err) <- readFileInfo fullPath ;;
  match err with
  | Some ErrNoRows => ret tt (* nothing to do *)
  | Some e => fail e
  | None => deleteDownwards fuel fi
  end.

Definition URLFor (fullPath : string) (options : list (string * string))
  : M string :=
  '(fi, err) <- readFileInfo fullPath ;;
  match err with
  | Some ErrNoRows => fail (PathNotFoundError fullPath)
  | Some e => fail e
  | None =>
      (* can only generate a temp URL for files that are stored in Swift *)
      if Location fi =? "" then fail ErrUnsupportedMethod
      else
        name <- swiftObjectName (ObjectPath fi) ;;
        swiftModel.MakeTempURL name options
  end.

End plusDriver.

(** ** The writer

    [plusWriter] is the storagedriver.FileWriter of the driver.  A method
    returns its result, the writer as the call left it, and the world. *)

Module plusWriter.
Import path plusDriver.

Record plusWriter := mkWriter {
  cancelled : bool;
  closed : bool;
  committed : bool;
  fullPath : string;
  location : string;
  segments : list seg.plusSegment
}.

Definition W (A : Type) : Type := plusWriter -> world -> result A * plusWriter * world.

Definition setSegments (l : list seg.plusSegment) (w : plusWriter) : plusWriter :=
  mkWriter (cancelled w) (closed w) (committed w) (fullPath w) (location w) l.

Definition setCancelled (w : plusWriter) : plusWriter :=
  mkWriter true (closed w) (committed w) (fullPath w) (location w) (segments w).

Definition setCommitted (w : plusWriter) : plusWriter :=
  mkWriter (cancelled w) (closed w) true (fullPath w) (location w) (segments w).

Definition newPlusWriter (fuel : nat) (fullPath : string) (appendFlag : bool)
  : M plusWriter :=
  '(fi, err) <- readFileInfo fullPath ;;
  let exists_ := negb (isErrNoRows err) in
  match (if exists_ then err else None) with
  | Some e => fail e
  | None =>
      (* delete previous file unless we intend to append *)
      exists_ <- (if exists_ && negb appendFlag
                  then _ <- deleteDownwards fuel fi ;; ret false
                  else ret exists_) ;;
      (* choose new location when file is first created *)
      location <- (if negb exists_ || (Location fi =? "")
                   then plusRandLocation
                   else ret (Location fi)) ;;
      (* find existing segments when appending to a file *)
      segments <- (if exists_ && appendFlag
                   then readSegmentInfo location
                   else ret []) ;;
      ret (mkWriter false false false fullPath location segments)
  end.

(** Write returns the number of bytes written; the count Go returns next
    to an error is left out. *)
Definition Write (buf : list byte) : W Z :=
  fun w st =>
    (* choose segment number (this uses that the segments are always ordered) *)
    let number :=
      match segments w with
      | [] => 1%Z
      | _ => Enc.wrapU64 (seg.Number (last (segments w) (seg.mkSegment "" "" 0 0 "")) + 1)
      end in
    let s := seg.mkSegment (ObjectPrefix (swift st)) (location w) number
               (Z.of_nat (List.length buf)) "" in
    (* upload segment to Swift *)
    match swiftModel.Write (segmentObjectPath s) buf st with
    | (Ok hash, st1) =>
        let s := seg.mkSegment (seg.Prefix s) (seg.Location s) (seg.Number s)
                   (seg.SizeBytes s) hash in
        (* record uploaded segment *)
        let w1 := setSegments (segments w ++ [s]) w in
        match execInsertSegment
                (mkSegmentRow (seg.Location s) (seg.Number s) (seg.SizeBytes s)
                              (seg.Hash s)) st1 with
        | (Ok _, st2) => (Ok (Z.of_nat (List.length buf)), w1, st2)
        | (Err e, st2) => (Err e, w1, st2)
        | (OutOfFuel, st2) => (OutOfFuel, w1, st2)
        end
    | (Err e, st1) => (Err (setReportedPath e (fullPath w)), w, st1)
    | (OutOfFuel, st1) => (OutOfFuel, w, st1)
    end.

Definition Size (w : plusWriter) : Z :=
  fold_left (fun n s => Enc.wrapI64 (n + Enc.wrapI64 (seg.SizeBytes s)))
            (segments w) 0%Z.

Definition Commit (fuel : nat) : W unit :=
  fun w st =>
    if closed w then (Err errClosed, w, st)
    else if cancelled w then (Err errCancelled, w, st)
    else if committed w then (Err errCommitted, w, st)
    else
      let fi := mkFileInfo (Dir (fullPath w)) (Base (fullPath w)) (Size w)
                  zeroTime [] (location w) in
      (* save large file in Swift and in the DB *)
      match (name <- swiftObjectName (ObjectPath fi) ;;
             _ <- swiftModel.WriteSLO name (map segmentObjectPath (segments w)) ;;
             writeFileInfo fuel fi) st with
      | (Ok _, st1) => (Ok tt, setCommitted w, st1)
      | (Err e, st1) => (Err e, w, st1)
      | (OutOfFuel, st1) => (OutOfFuel, w, st1)
      end.

Definition Close (fuel : nat) : W unit :=
  fun w st =>
    if closed w then (Err errClosed, w, st)
    else if negb (committed w) && negb (cancelled w) then Commit fuel w st
    else (Ok tt, w, st).

Definition Cancel (fuel : nat) : W unit :=
  fun w st =>
    if closed w then (Err errClosed, w, st)
    else
      let w1 := setCancelled w in
      let (err, st1) := Delete fuel (fullPath w) st in
      (err, setSegments [] w1, st1).

End plusWriter.

(** ** Predicates on the namespace *)

Module Tree.
Import path plusDriver.

(** The directory [p] is the root, or it and every directory above it has
    a row; this is what [mkdirAll p] establishes. *)
Inductive covered (t : list fileInfo) : string -> Prop :=
| covered_root p : (p =? "/") || (p =? "") = true -> covered t p
| covered_step p :
    sql.hasFile (Dir p) (Base p) t = true -> covered t (Dir p) -> covered t p.

(** [a] is a directory above [p]: its parent, the parent of its parent, and
    so on up to the root. *)
Inductive ancestorOf : string -> string -> Prop :=
| ancestor_parent p : (p =? "/") || (p =? "") = false -> ancestorOf (Dir p) p
| ancestor_up a p :
    (p =? "/") || (p =? "") = false -> ancestorOf a (Dir p) -> ancestorOf a p.

(** Every row that is not directly under the root has a row for the
    directory it lies in. *)
Definition parentsPresent (t : list fileInfo) : bool :=
  forallb (fun r => (DirName r =? "/")
                    || sql.hasFile (Dir (DirName r)) (Base (DirName r)) t) t.

(** A directory marker as [mkdirAll] inserts it. *)
Definition isMarker (r : fileInfo) : bool :=
  (SizeBytes r =? -1)%Z && (List.length (Contents r) =? 0)%nat && (Location r =? "").

(** The rows reached from [x] by going from a directory to the rows whose
    dirname is the path of that directory. *)
Inductive below (t : list fileInfo) (x : fileInfo) : fileInfo -> Prop :=
| below_self : below t x x
| below_child y c :
    below t x y -> IsDir y = true -> In c t -> DirName c = Path y -> below t x c.

(** Rows are well-formed: the dirname is a well-formed directory path, the
    basename a path element, and no two rows share a key. *)
Definition wellFormedRow (r : fileInfo) : bool :=
  validDir (DirName r) && validElem (BaseName r).

Fixpoint uniqueKeys (t : list fileInfo) : bool :=
  match t with
  | [] => true
  | r :: rest => negb (sql.hasFile (DirName r) (BaseName r) rest) && uniqueKeys rest
  end.

Definition wellFormed (t : list fileInfo) : bool :=
  forallb wellFormedRow t && uniqueKeys t.


(** No object of the store has a name that starts with [prefix]. *)
Definition noObjectUnder (prefix : string) (w : world) : Prop :=
  forall name o, In (name, o) (objects (swift w)) -> String.prefix prefix name = false.

(** The table is a tree: every row that is not directly under the root
    lies in a directory that has a row of its own. *)
Definition treeShaped (t : list fileInfo) : bool :=
  forallb (fun r => (DirName r =? "/")
                    || existsb (fun x => IsDir x && (Path x =? DirName r)) t) t.



(** The objects of [w'] are among those of [w]. *)
Definition objectsShrink (w w' : world) : Prop :=
  forall e, In e (objects (swift w')) -> In e (objects (swift w)).


End Tree.

(** The row stored for the path [p], if any. *)
Definition recordAt (w : world) (p : string) : option fileInfo :=
  sql.selectFile (path.Dir p) (path.Base p) (files w).

(** The row [writeFileInfo] stores: the modification time is set when the
    caller left it zero. *)
Definition stamped (fi : fileInfo) (w : world) : fileInfo :=
  if (ModifiedAt fi =? zeroTime)%Z
  then mkFileInfo (DirName fi) (BaseName fi) (SizeBytes fi) (now w)
                  (Contents fi) (Location fi)
  else fi.

(** The marker row [mkdirAll] inserts for a directory. *)
Definition marker (d b : string) (w : world) : fileInfo :=
  mkFileInfo d b (-1) (now w) [] "".

(** The second half of [PutContent], after the blobs of a previous record
    are gone: the row is written and large content uploaded. *)
Definition putStore (fuel : nat) (fullPath : string) (contents : list byte)
  : M unit :=
  let uploadToSwift := (maxInlineSizeBytes <? List.length contents)%nat in
  location <- (if uploadToSwift then plusDriver.plusRandLocation else ret "") ;;
  let fi := mkFileInfo (path.Dir fullPath) (path.Base fullPath)
              (Z.of_nat (List.length contents)) zeroTime
              (if uploadToSwift then [] else contents) location in
  _ <- plusDriver.writeFileInfo fuel fi ;;
  if negb uploadToSwift then ret tt
  else
    name <- plusDriver.swiftObjectName (plusDriver.ObjectPath fi) ;;
    mapErr (fun e => plusDriver.setReportedPath e fullPath)
           (_ <- swiftModel.Write name contents ;; ret tt).

(** ** Names for what the writer computes *)

Module WriterAux.
Import plusDriver plusWriter.

(** The segment number the next Write uses. *)
Definition nextNumber (w : plusWriter) : Z :=
  match segments w with
  | [] => 1%Z
  | _ => Enc.wrapU64 (seg.Number (last (segments w) (seg.mkSegment "" "" 0 0 "")) + 1)
  end.

(** The segment [readSegmentInfo] builds from a row. *)
Definition segmentOf (prefix location : string) (r : segmentRow) : seg.plusSegment :=
  seg.mkSegment prefix location (rowNumber r) (rowSizeBytes r) (rowHash r).

(** The object name of segment [n] of [location]. *)
Definition segmentName (w : world) (location : string) (n : Z) : string :=
  prependPrefix (ObjectPrefix (swift w)) location +++ "/"
    +++ Enc.Sprintf016d (Enc.wrapI64 n).

(** The object name of the manifest of [location]. *)
Definition manifestName (w : world) (location : string) : string :=
  prependPrefix (ObjectPrefix (swift w)) (location +++ "/content").

End WriterAux.

(** ** The mutating operations *)

Module Mutation.
Import path plusDriver.

Inductive mutation :=
| MPut (fullPath : string) (contents : list byte)
| MCommit (writer : plusWriter.plusWriter)
| MMove (sourcePath destPath : string).

Definition run (fuel : nat) (m : mutation) : M unit :=
  match m with
  | MPut p c => PutContent fuel p c
  | MCommit wr =>
      fun w => let '(r, _, w') := plusWriter.Commit fuel wr w in (r, w')
  | MMove s d => Move fuel s d
  end.

(** The paths whose rows the operation writes or moves. *)
Definition targets (m : mutation) : list string :=
  match m with
  | MPut p _ => [p]
  | MCommit wr => [plusWriter.fullPath wr]
  | MMove s d => [s; d]
  end.

Definition isTarget (m : mutation) (d b : string) : Prop :=
  exists q, In q (targets m) /\ d = Dir q /\ b = Base q.

(** What a move needs to keep the parent rows complete: a well-formed
    table, a source without children and a free destination. *)
Definition leavesNoOrphans (m : mutation) (w : world) : Prop :=
  match m with
  | MMove s d =>
      validPath s = true /\ Tree.wellFormed (files w) = true
      /\ List s w = (Ok [], w) /\ recordAt w d = None
  | _ => True
  end.

End Mutation.

(** ** Sample worlds *)

Module Sample.

Definition emptySwift : swiftInterface := mkSwift "keppel" 1024 [] [].

(** An empty database and object store, with sixteen random bytes ahead. *)
Definition emptyWorld : world :=
  mkWorld [] [] [] emptySwift 1000
    [x01; x23; x45; x67; x89; xab; xcd; xef; x10; x32; x54; x76; x98; xba; xdc; xfe].

Definition hello : list byte := [x68; x65; x6c; x6c; x6f].

(** A payload above the inline limit of 256 bytes. *)
Definition large : list byte := repeat x61 300.

(** A writer for a new file, after one Write and a Cancel. *)
Definition cancelledWriter : plusWriter.plusWriter * world :=
  match plusWriter.newPlusWriter 4 "/v2/upload" false emptyWorld with
  | (Ok wr, st) =>
      match plusWriter.Write hello wr st with
      | (_, wr1, st1) =>
          match plusWriter.Cancel 4 wr1 st1 with
          | (_, wr2, st2) => (wr2, st2)
          end
      end
  | (_, st) => (plusWriter.mkWriter false false false "" "" [], st)
  end.

(** A writer for a new file, after one Write and a Commit. *)
Definition committedWriter : plusWriter.plusWriter * world :=
  match plusWriter.newPlusWriter 4 "/v2/upload" false emptyWorld with
  | (Ok wr, st) =>
      match plusWriter.Write hello wr st with
      | (_, wr1, st1) =>
          match plusWriter.Commit 12 wr1 st1 with
          | (_, wr2, st2) => (wr2, st2)
          end
      end
  | (_, st) => (plusWriter.mkWriter false false false "" "" [], st)
  end.

(** A directory /a that holds the file /a/f. *)
Definition dirWithFile : world :=
  mkWorld [mkFileInfo "/" "a" (-1) 1000 [] ""; mkFileInfo "/a" "f" 5 1000 hello ""]
          [] [] emptySwift 1000 [].

Definition fileUnderA : fileInfo := mkFileInfo "/a" "f" 5 1000 hello "".
Definition dirA : fileInfo := mkFileInfo "/" "a" (-1) 1000 [] "".

(** The world after a put of the large payload at /v2/blob. *)
Definition withLargeFile : world :=
  snd (plusDriver.PutContent 10 "/v2/blob" large emptyWorld).

Definition largeRow : fileInfo :=
  mkFileInfo "/v2" "blob" 300 1000 [] "0123456789abcdef".

(** A directory /a with a file, a directory /a/d and below it a file whose
    content lies in the object store. *)
Definition nested : world :=
  mkWorld
    [dirA; fileUnderA;
     mkFileInfo "/a" "d" (-1) 1000 [] "";
     mkFileInfo "/a/d" "g" 300 1000 [] "0123456789abcdef"]
    [] []
    (mkSwift "keppel" 1024 [("keppel/0123456789abcdef/content", Blob large)] [])
    1000 [].

(** The world after a file /v2/upload was written in two segments. *)
Definition twoSegments : world :=
  match plusWriter.newPlusWriter 4 "/v2/upload" false emptyWorld with
  | (Ok wr, st) =>
      match plusWriter.Write hello wr st with
      | (_, wr1, st1) =>
          match plusWriter.Write hello wr1 st1 with
          | (_, wr2, st2) => snd (plusWriter.Commit 12 wr2 st2)
          end
      end
  | (_, st) => st
  end.

Definition uploadRow : fileInfo :=
  mkFileInfo "/v2" "upload" 10 1000 [] "0123456789abcdef".

Definition segmentRow1 : segmentRow :=
  mkSegmentRow "0123456789abcdef" 1 5 (swiftModel.etag hello).

Definition segmentRow2 : segmentRow :=
  mkSegmentRow "0123456789abcdef" 2 5 (swiftModel.etag hello).

End Sample.

(** ** Writing a file in chunks *)

Module Stream.
Import plusDriver plusWriter WriterAux.

(** A client of the writer: it writes the chunks one after the other and
    gives up at the first error. *)
Fixpoint writeAll (chunks : list (list byte)) : W unit :=
  fun w st =>
    match chunks with
    | [] => (Ok tt, w, st)
    | c :: rest =>
        match Write c w st with
        | (Ok _, w1, st1) => writeAll rest w1 st1
        | (Err e, w1, st1) => (Err e, w1, st1)
        | (OutOfFuel, w1, st1) => (OutOfFuel, w1, st1)
        end
    end.

(** The number of the last segment of the writer, 0 without segments. *)
Definition top (w : plusWriter) : Z :=
  match segments w with
  | [] => 0%Z
  | _ => seg.Number (last (segments w) (seg.mkSegment "" "" 0 0 ""))
  end.

(** A segment of the writer lies under the prefix of the store and the
    location of the writer, and its number is between 1 and [top]. *)
Definition segmentFits (st : world) (w : plusWriter) (s : seg.plusSegment) : bool :=
  (seg.Prefix s =? ObjectPrefix (swift st)) && (seg.Location s =? location w)
  && (1 <=? seg.Number s)%Z && (seg.Number s <=? top w)%Z.

(** A row of the table [segments] with the location of the writer has a
    number up to [top]. *)
Definition rowKnown (w : plusWriter) (r : segmentRow) : bool :=
  negb (rowLocation r =? location w) || (rowNumber r <=? top w)%Z.

(** The writer and the world agree: the segments of the writer are in the
    store and hold [content], their sizes add up to its length, and the
    table has no row of this location beyond the last segment. *)
Record consistent (st : world) (w : plusWriter) (content : list byte) : Prop :=
  mkConsistent {
    c_segments : forallb (segmentFits st w) (segments w) = true;
    c_rows : forallb (rowKnown w) (segmentRows st) = true;
    c_blobs :
      swiftModel.gather (objects (swift st)) (map segmentObjectPath (segments w))
      = Some content;
    c_size : plusWriter.Size w = Z.of_nat (List.length content);
    c_location : Str.noSlash (location w) = true /\ location w <> ""
  }.

(** The rows that writes of the chunks insert, numbered from [n]. *)
Fixpoint newRows (loc : string) (n : Z) (chunks : list (list byte))
  : list segmentRow :=
  match chunks with
  | [] => []
  | c :: rest =>
      mkSegmentRow loc n (Z.of_nat (List.length c)) (swiftModel.etag c)
        :: newRows loc (n + 1) rest
  end.

(** The fields a write leaves alone. *)
Definition sameSession (wr wr' : plusWriter) (st st' : world) : Prop :=
  closed wr' = closed wr /\ cancelled wr' = cancelled wr
  /\ committed wr' = committed wr /\ fullPath wr' = fullPath wr
  /\ location wr' = location wr
  /\ files st' = files st /\ now st' = now st /\ entropy st' = entropy st
  /\ ObjectPrefix (swift st') = ObjectPrefix (swift st).

(** Reads a decimal number; leading zeros do not count. *)
Definition readDecimal (s : string) : option N :=
  option_map N.of_uint (NilEmpty.uint_of_string s).

End Stream.

(** ** The buffer in front of the writer

    [Writer] hands out the plusWriter behind a bufio.Writer of the chunk
    size of the store.  bufio belongs to the Go standard library; its
    Writer is modelled by its three fields: the sticky error, the size of
    the buffer and the bytes that are buffered (b.buf[0:b.n]).  The writer
    it writes to (b.wr) is the plusWriter that [bufferedWriter] holds as
    [fw]; both names refer to one object, so the model passes this one
    plusWriter through the methods of the buffer. *)

Module bufio.
Import plusDriver plusWriter.

(** What a method of the buffer reports: io.ErrShortWrite, an error of the
    plusWriter, or the recursion budget of the model used up. *)
Inductive failure :=
| ErrShortWrite
| Failed (e : error)
| NoFuel.

Definition ofResult {A} (r : result A) : option failure :=
  match r with
  | Ok _ => None
  | Err e => Some (Failed e)
  | OutOfFuel => Some NoFuel
  end.

Definition defaultBufSize : nat := 4096.

Record Writer := mkBufio {
  err : option failure;
  size : nat;         (* len(b.buf) *)
  buf : list byte     (* b.buf[0:b.n] *)
}.

Definition setErr (e : option failure) (b : Writer) : Writer :=
  mkBufio e (size b) (buf b).

Definition setBuf (l : list byte) (b : Writer) : Writer :=
  mkBufio (err b) (size b) l.

Definition NewWriterSize (size : nat) : Writer :=
  mkBufio None (if (size =? 0)%nat then defaultBufSize else size) [].

Definition Available (b : Writer) : nat := size b - List.length (buf b).
Definition Buffered (b : Writer) : nat := List.length (buf b).

Definition isNil (e : option failure) : bool :=
  match e with
  | None => true
  | Some _ => false
  end.

(** b.wr.Write: the Write of the plusWriter as the source has it, with the
    count that it returns next to the error (0 when the upload fails, the
    length of the buffer when the INSERT fails). *)
Definition wrWrite (p : list byte)
  : plusWriter -> world -> (nat * option failure) * plusWriter * world :=
  fun w st =>
    let number :=
      match segments w with
      | [] => 1%Z
      | _ => Enc.wrapU64 (seg.Number (last (segments w) (seg.mkSegment "" "" 0 0 "")) + 1)
      end in
    let s := seg.mkSegment (ObjectPrefix (swift st)) (location w) number
               (Z.of_nat (List.length p)) "" in
    match swiftModel.Write (segmentObjectPath s) p st with
    | (Ok hash, st1) =>
        let s := seg.mkSegment (seg.Prefix s) (seg.Location s) (seg.Number s)
                   (seg.SizeBytes s) hash in
        let w1 := setSegments (segments w ++ [s]) w in
        let (r, st2) :=
          execInsertSegment
            (mkSegmentRow (seg.Location s) (seg.Number s) (seg.SizeBytes s)
                          (seg.Hash s)) st1 in
        ((List.length p, ofResult r), w1, st2)
    | (Err e, st1) => ((0, Some (Failed (setReportedPath e (fullPath w)))), w, st1)
    | (OutOfFuel, st1) => ((0, Some NoFuel), w, st1)
    end.

(** Flush writes any buffered data to the underlying writer. *)
Definition Flush (b : Writer) (fw : plusWriter) (st : world)
  : option failure * Writer * plusWriter * world :=
  match err b with
  | Some e => (Some e, b, fw, st)
  | None =>
      if (List.length (buf b) =? 0)%nat then (None, b, fw, st)
      else
        let '((n, e), fw1, st1) := wrWrite (buf b) fw st in
        let e := match e with
                 | None => if (n <? List.length (buf b))%nat
                           then Some ErrShortWrite else None
                 | Some _ => e
                 end in
        match e with
        | Some _ => (e, mkBufio e (size b) (skipn n (buf b)), fw1, st1)
        | None => (None, setBuf [] b, fw1, st1)
        end
  end.

(** The loop of Write: while the data does not fit into the buffer and no
    error has occurred, a write into an empty buffer goes to the
    underlying writer directly, else the buffer is filled up and flushed.
    The result is the data that is left and the count so far; [None] when
    the budget is used up. *)
Fixpoint writeLoop (fuel : nat) (p : list byte) (nn : nat)
  (b : Writer) (fw : plusWriter) (st : world)
  : option (list byte * nat) * Writer * plusWriter * world :=
  if (Available b <? List.length p)%nat && isNil (err b) then
    match fuel with
    | O => (None, b, fw, st)
    | S fuel' =>
        if (Buffered b =? 0)%nat then
          (* large write, empty buffer: write directly from p *)
          let '((n, e), fw1, st1) := wrWrite p fw st in
          writeLoop fuel' (skipn n p) (nn + n) (setErr e b) fw1 st1
        else
          let n := Nat.min (Available b) (List.length p) in
          let b1 := setBuf (buf b ++ firstn n p) b in
          let '(_, b2, fw1, st1) := Flush b1 fw st in
          writeLoop fuel' (skipn n p) (nn + n) b2 fw1 st1
    end
  else (Some (p, nn), b, fw, st).

Definition Write (fuel : nat) (p : list byte) (b : Writer) (fw : plusWriter)
  (st : world) : (nat * option failure) * Writer * plusWriter * world :=
  match writeLoop fuel p 0 b fw st with
  | (None, b1, fw1, st1) => ((0, Some NoFuel), b1, fw1, st1)
  | (Some (p1, nn), b1, fw1, st1) =>
      match err b1 with
      | Some e => ((nn, Some e), b1, fw1, st1)
      | None =>
          let n := Nat.min (Available b1) (List.length p1) in
          ((nn + n, None), setBuf (buf b1 ++ firstn n p1) b1, fw1, st1)
      end
  end.

End bufio.

Module bufferedWriter.
Import plusDriver.

Record bufferedWriter := mkBuffered {
  fw : plusWriter.plusWriter;
  bw : bufio.Writer
}.

Definition newBufferedWriter (fw : plusWriter.plusWriter) (chunkSize : nat)
  : bufferedWriter :=
  mkBuffered fw (bufio.NewWriterSize chunkSize).

Definition Write (fuel : nat) (data : list byte) (w : bufferedWriter) (st : world)
  : (nat * option bufio.failure) * bufferedWriter * world :=
  let '(r, b1, fw1, st1) := bufio.Write fuel data (bw w) (fw w) st in
  (r, mkBuffered fw1 b1, st1).

(** The three ways to end: the buffer is flushed, and without an error
    the plusWriter does the rest. *)
Definition flushThen (f : plusWriter.W unit) (w : bufferedWriter) (st : world)
  : option bufio.failure * bufferedWriter * world :=
  let '(e, b1, fw1, st1) := bufio.Flush (bw w) (fw w) st in
  match e with
  | Some _ => (e, mkBuffered fw1 b1, st1)
  | None =>
      let '(r, fw2, st2) := f fw1 st1 in
      (bufio.ofResult r, mkBuffered fw2 b1, st2)
  end.

Definition Close (fuel : nat) : bufferedWriter -> world
  -> option bufio.failure * bufferedWriter * world :=
  flushThen (plusWriter.Close fuel).

Definition Size (w : bufferedWriter) : Z :=
  Enc.wrapI64 (plusWriter.Size (fw w) + Z.of_nat (bufio.Buffered (bw w))).

Definition Cancel (fuel : nat) : bufferedWriter -> world
  -> option bufio.failure * bufferedWriter * world :=
  flushThen (plusWriter.Cancel fuel).

Definition Commit (fuel : nat) : bufferedWriter -> world
  -> option bufio.failure * bufferedWriter * world :=
  flushThen (plusWriter.Commit fuel).

(** Writer of the driver: a new plusWriter behind a buffer of the chunk
    size.  When newPlusWriter fails, the error is what the caller gets;
    the writer that Go returns next to it wraps a nil pointer. *)
Definition Writer (fuel : nat) (fullPath : string) (appendFlag : bool)
  : M bufferedWriter :=
  w <- plusWriter.newPlusWriter fuel fullPath appendFlag ;;
  sw <- gets swift ;;
  ret (newBufferedWriter w (ChunkSize sw)).

(** A client that writes the chunks one after the other and gives up at
    the first error. *)
Fixpoint writeAll (fuel : nat) (chunks : list (list byte)) (w : bufferedWriter)
  (st : world) : option bufio.failure * bufferedWriter * world :=
  match chunks with
  | [] => (None, w, st)
  | c :: rest =>
      match Write fuel c w st with
      | ((_, None), w1, st1) => writeAll fuel rest w1 st1
      | ((_, Some e), w1, st1) => (Some e, w1, st1)
      end
  end.

(** The buffer and the plusWriter together hold [content]: the segments
    hold its first part, the buffer the rest, and no error has occurred. *)
Definition holds (st : world) (w : bufferedWriter) (content : list byte) : Prop :=
  bufio.err (bw w) = None
  /\ List.length (bufio.buf (bw w)) <= bufio.size (bw w)
  /\ 0 < bufio.size (bw w)
  /\ exists stored,
       Stream.consistent st (fw w) stored
       /\ content = stored ++ bufio.buf (bw w).

End bufferedWriter.

(** ** Token scopes (package auth)

    [ParseScope] uses strings.Split and a regular expression.  Both belong
    to the Go standard library: Split is modelled for a separator of one
    byte, regular expressions by their syntax and Brzozowski derivatives;
    a pattern between ^ and $ has to match the whole string. *)

Module strings.

(** strings.Split(s, sep) for a separator of one byte. *)
Fixpoint Split (s : string) (sep : ascii) : list string :=
  match s with
  | EmptyString => [EmptyString]
  | String c r =>
      if Ascii.eqb c sep then EmptyString :: Split r sep
      else match Split r sep with
           | x :: xs => String c x :: xs
           | [] => [String c EmptyString]
           end
  end.

(** The byte [sep] does not occur in [s]. *)
Fixpoint without (sep : ascii) (s : string) : bool :=
  match s with
  | EmptyString => true
  | String c r => negb (Ascii.eqb c sep) && without sep r
  end.

End strings.

Module regexp.

Inductive regex :=
| Empty                          (* matches nothing *)
| Eps                            (* the empty string *)
| Class (f : ascii -> bool)      (* one byte of a class *)
| Seq (a b : regex)
| Alt (a b : regex)
| Star (a : regex).

Definition Plus (a : regex) : regex := Seq a (Star a).

Fixpoint nullable (r : regex) : bool :=
  match r with
  | Empty => false
  | Eps => true
  | Class _ => false
  | Seq a b => nullable a && nullable b
  | Alt a b => nullable a || nullable b
  | Star _ => true
  end.

Fixpoint deriv (c : ascii) (r : regex) : regex :=
  match r with
  | Empty => Empty
  | Eps => Empty
  | Class f => if f c then Eps else Empty
  | Seq a b =>
      if nullable a then Alt (Seq (deriv c a) b) (deriv c b)
      else Seq (deriv c a) b
  | Alt a b => Alt (deriv c a) (deriv c b)
  | Star a => Seq (deriv c a) (Star a)
  end.

(** MatchString for a pattern of the form ^r$. *)
Fixpoint MatchString (r : regex) (s : string) : bool :=
  match s with
  | EmptyString => nullable r
  | String c s' => MatchString (deriv c r) s'
  end.

(** No class of the expression contains the byte [c]. *)
Fixpoint avoids (c : ascii) (r : regex) : bool :=
  match r with
  | Empty | Eps => true
  | Class f => negb (f c)
  | Seq a b | Alt a b => avoids c a && avoids c b
  | Star a => avoids c a
  end.

(** The expression matches no string at all. *)
Fixpoint void (r : regex) : bool :=
  match r with
  | Empty => true
  | Eps => false
  | Class _ => false
  | Seq a b => void a || void b
  | Alt a b => void a && void b
  | Star _ => false
  end.

End regexp.

Module auth.
Import regexp.

(** [a-z0-9] *)
Definition lowerOrDigit (c : ascii) : bool :=
  let n := N_of_ascii c in
  ((97 <=? n) && (n <=? 122) || (48 <=? n) && (n <=? 57))%N.

(** [._-] *)
Definition separator (c : ascii) : bool :=
  Ascii.eqb c "." || Ascii.eqb c "_" || Ascii.eqb c "-".

(** [a-z0-9]+(?:[._-][a-z0-9]+)* *)
Definition repoComponentRegexp : regex :=
  Seq (Plus (Class lowerOrDigit))
      (Star (Seq (Class separator) (Plus (Class lowerOrDigit)))).

(** ^component(?:/component)*$ *)
Definition repoNameRegexp : regex :=
  Seq repoComponentRegexp
      (Star (Seq (Class (fun c => Ascii.eqb c "/")) repoComponentRegexp)).

Inductive scopeError :=
| errorScopeMissing
| errorScopeMissingResource
| errorScopeMissingRepository
| errorScopeMissingActions
| errorScopeInvalid
| errorScopeResourceUnsupported
| errorScopeRepositoryTooLong
| errorScopeRepositoryInvalid
| errorScopeActionUndefined
| errorScopeActionInvalid.

(** Scope contains the fields of the "scope" query parameter in a token
    request. *)
Record Scope := mkScope {
  ResourceType : string;
  ResourceName : string;
  Actions : list string
}.

Inductive parsed :=
| Parsed (scope : Scope)
| Rejected (e : scopeError).

Definition isAction (action : string) : bool :=
  (action =? "pull") || (action =? "push").

(** ParseScope parses the "scope" query parameter from a token request. *)
Definition ParseScope (input : string) : parsed :=
  if input =? "" then Rejected errorScopeMissing
  else
    let fields := strings.Split input ":" in
    if nth 0 fields "" =? "" then Rejected errorScopeMissingResource
    else if (3 <? List.length fields)%nat then Rejected errorScopeInvalid
    else if (List.length fields =? 2)%nat then Rejected errorScopeMissingActions
    else if (List.length fields =? 1)%nat then Rejected errorScopeMissingRepository
    else
      let scope := mkScope (nth 0 fields "") (nth 1 fields "")
                     (strings.Split (nth 2 fields "") ",") in
      if (List.length (Actions scope) =? 0)%nat then Rejected errorScopeActionInvalid
      else if ResourceType scope =? "registry" then
        if negb (ResourceName scope =? "catalog")
        then Rejected errorScopeResourceUnsupported
        else Parsed (mkScope (ResourceType scope) (ResourceName scope) ["*"])
      else if ResourceType scope =? "repository" then
        if (256 <? String.length (ResourceName scope))%nat
        then Rejected errorScopeRepositoryTooLong
        else if negb (MatchString repoNameRegexp (ResourceName scope))
        then Rejected errorScopeRepositoryInvalid
        else if forallb isAction (Actions scope) then Parsed scope
        else Rejected errorScopeActionInvalid
      else Rejected errorScopeResourceUnsupported.

(** The scope as a client writes it: type:name:action,action. *)
Definition render (scope : Scope) : string :=
  ResourceType scope +++ ":" +++ ResourceName scope +++ ":"
    +++ String.concat "," (Actions scope).

End auth.

(** ** Filtering the actions of a scope (package api)

    openstack.AccessLevel is an interface that is not among the sources;
    its three methods are taken as functions without effect. *)

Module api.

Record AccessLevel (Account : Type) := mkAccess {
  CanViewAccounts : bool;
  CanViewAccount : Account -> bool;
  CanChangeAccount : Account -> bool
}.
Arguments CanViewAccounts {Account} a.
Arguments CanViewAccount {Account} a account.
Arguments CanChangeAccount {Account} a account.

Definition filterRegistryActions {Account} (actions : list string)
  (access : AccessLevel Account) : list string :=
  fold_left
    (fun result action =>
       if (action =? "*") && CanViewAccounts access
       then result ++ [action] else result)
    actions [].

Definition filterRepoActions {Account} (actions : list string)
  (access : AccessLevel Account) (account : Account) : list string :=
  fold_left
    (fun result action =>
       if (action =? "pull") && CanViewAccount access account
       then result ++ [action]
       else if (action =? "push") && CanChangeAccount access account
       then result ++ [action] else result)
    actions [].

End api.

(** ** The registry of auth drivers (package keppel)

    The map of factories is an association list; a factory is a function
    without arguments, or nil. *)

Module keppel.

Section Drivers.
Variable AuthDriver : Type.

Definition factories : Type := list (string * option (unit -> AuthDriver)).

Fixpoint lookup (name : string) (m : factories)
  : option (option (unit -> AuthDriver)) :=
  match m with
  | [] => None
  | (n, f) :: r => if n =? name then Some f else lookup name r
  end.

Inductive created :=
| Driver (d : AuthDriver)
| NoSuchDriver (message : string).

(** NewAuthDriver creates a new AuthDriver using one of the factory
    functions registered with RegisterAuthDriver. *)
Definition NewAuthDriver (authDriverFactories : factories) (name : string)
  : created :=
  match lookup name authDriverFactories with
  | Some (Some factory) => Driver (factory tt)
  | _ => NoSuchDriver ("no such auth driver: " +++ name)
  end.

Inductive registered :=
| Registered (authDriverFactories : factories)
| Panic (message : string).

(** RegisterAuthDriver registers an AuthDriver. *)
Definition RegisterAuthDriver (authDriverFactories : factories) (name : string)
  (factory : option (unit -> AuthDriver)) : registered :=
  match lookup name authDriverFactories with
  | Some _ =>
      Panic ("attempted to register multiple auth drivers with name = " +++ name)
  | None => Registered ((name, factory) :: authDriverFactories)
  end.

End Drivers.

Arguments Driver {AuthDriver} d.
Arguments NoSuchDriver {AuthDriver} message.
Arguments Registered {AuthDriver} authDriverFactories.
Arguments Panic {AuthDriver} message.
Arguments lookup {AuthDriver} name m.
Arguments NewAuthDriver {AuthDriver} authDriverFactories name.
Arguments RegisterAuthDriver {AuthDriver} authDriverFactories name factory.

End keppel.

(** ** More sample worlds *)

Module Worlds.
Import Sample.

(** A writer opened for appending to the file of [twoSegments]. *)
Definition appendWriter : plusWriter.plusWriter :=
  match plusWriter.newPlusWriter 4 "/v2/upload" true twoSegments with
  | (Ok wr, _) => wr
  | _ => plusWriter.mkWriter false false false "" "" []
  end.

(** The world after a put of five bytes at /v2/small. *)
Definition smallFile : world :=
  snd (plusDriver.PutContent 10 "/v2/small" hello emptyWorld).

Definition smallRow : fileInfo := mkFileInfo "/v2" "small" 5 1000 hello "".

(** A writer for a new file after one Write. *)
Definition openWriter : plusWriter.plusWriter * world :=
  match plusWriter.newPlusWriter 4 "/v2/upload" false emptyWorld with
  | (Ok wr, st) =>
      match plusWriter.Write hello wr st with
      | (_, wr1, st1) => (wr1, st1)
      end
  | (_, st) => (plusWriter.mkWriter false false false "" "" [], st)
  end.

(** The empty world with a store whose chunks have four bytes. *)
Definition smallChunks : world :=
  mkWorld [] [] [] (mkSwift "keppel" 4 [] []) 1000 (entropy emptyWorld).

(** A buffered writer for a new file that has five bytes in its buffer. *)
Definition bufferedHello : bufferedWriter.bufferedWriter * world :=
  match bufferedWriter.Writer 4 "/v2/upload" false emptyWorld with
  | (Ok w, st) =>
      match bufferedWriter.Write 2 hello w st with
      | (_, w1, st1) => (w1, st1)
      end
  | (_, st) =>
      (bufferedWriter.newBufferedWriter
         (plusWriter.mkWriter false false false "" "" []) 0, st)
  end.

(** A buffer of four bytes in front of the cancelled writer of
    [cancelledWriter], after a Write of five bytes: the row of segment 1
    is still in the table, so the INSERT has failed. *)
Definition failedBuffer : bufferedWriter.bufferedWriter * world :=
  match bufferedWriter.Write 2 hello
          (bufferedWriter.newBufferedWriter (fst cancelledWriter) 4)
          (snd cancelledWriter) with
  | (_, w1, st1) => (w1, st1)
  end.

(** An access level with every permission. *)
Definition fullAccess : api.AccessLevel unit :=
  api.mkAccess unit true (fun _ => true) (fun _ => true).

End Worlds.
Module PathExamples.
Import path.

Example Clean_empty : Clean "" = ".". Proof. reflexivity. Qed.
Example Clean_root : Clean "/" = "/". Proof. reflexivity. Qed.
Example Clean_trailing : Clean "/abc/" = "/abc". Proof. reflexivity. Qed.
Example Clean_doubled : Clean "abc//def//ghi" = "abc/def/ghi". Proof. reflexivity. Qed.
Example Clean_dot : Clean "/./abc/def" = "/abc/def". Proof. reflexivity. Qed.
Example Clean_dotdot : Clean "abc/def/ghi/../jkl" = "abc/def/jkl". Proof. reflexivity. Qed.
Example Clean_dotdot_root : Clean "/abc/def/../../.." = "/". Proof. reflexivity. Qed.
Example Clean_dotdot_rel :
  Clean "abc/def/../../../ghi/jkl/../../../mno" = "../../mno".
Proof. reflexivity. Qed.
Example Clean_combination : Clean "abc/../../././../def" = "../../def". Proof. reflexivity. Qed.
Example Dir_file : Dir "/a/b/c" = "/a/b". Proof. reflexivity. Qed.
Example Dir_top : Dir "/a" = "/". Proof. reflexivity. Qed.
Example Dir_root : Dir "/" = "/". Proof. reflexivity. Qed.
Example Dir_relative : Dir "a" = ".". Proof. reflexivity. Qed.
Example Dir_dot : Dir "." = ".". Proof. reflexivity. Qed.
Example Base_file : Base "/a/b/c" = "c". Proof. reflexivity. Qed.
Example Base_root : Base "/" = "/". Proof. reflexivity. Qed.
Example Base_trailing : Base "/a/b/" = "b". Proof. reflexivity. Qed.
Example Join_root : Join "/" "a" = "/a". Proof. reflexivity. Qed.
Example Join_root_root : Join "/" "/" = "/". Proof. reflexivity. Qed.
Example Join_nested : Join "/a/b" "c" = "/a/b/c". Proof. reflexivity. Qed.
Example Trim_both : Str.Trim "//a/b/" = "a/b". Proof. reflexivity. Qed.

End PathExamples.

(** * Properties *)

(** ** Strings and paths *)

Module StrFacts.
Import Str.

Lemma append_assoc (a b c : string) : (a +++ b) +++ c = a +++ b +++ c.
Proof. induction a; simpl; congruence. Qed.

Lemma append_empty_r (a : string) : a +++ "" = a.
Proof. induction a; simpl; congruence. Qed.

Lemma length_append (a b : string) :
  String.length (a +++ b) = String.length a + String.length b.
Proof. induction a; simpl; congruence. Qed.

Lemma append_inv_head (a b c : string) : a +++ b = a +++ c -> b = c.
Proof. induction a; simpl; intros H; [assumption | injection H; auto]. Qed.

Lemma noSlash_append (a b : string) :
  noSlash (a +++ b) = noSlash a && noSlash b.
Proof.
  induction a as [|c a IH]; simpl; [reflexivity|].
  rewrite IH. now rewrite andb_assoc.
Qed.

Lemma splitSlash_not_nil (s : string) : splitSlash s <> [].
Proof.
  induction s as [|c s IH]; simpl; [discriminate|].
  destruct (isSlash c); [discriminate|].
  destruct (splitSlash s); discriminate.
Qed.

Lemma splitSlash_noSlash (c : string) : noSlash c = true -> splitSlash c = [c].
Proof.
  induction c as [|a c IH]; simpl; [reflexivity|].
  intros H. apply andb_true_iff in H as [Ha Hc].
  apply negb_true_iff in Ha. rewrite Ha, (IH Hc). reflexivity.
Qed.

Lemma splitSlash_elem_slash (c y : string) :
  noSlash c = true -> splitSlash (c +++ String "/" y) = c :: splitSlash y.
Proof.
  induction c as [|a c IH]; simpl; [reflexivity|].
  intros H. apply andb_true_iff in H as [Ha Hc].
  apply negb_true_iff in Ha. rewrite Ha, (IH Hc). reflexivity.
Qed.

Lemma splitSlash_forall_noSlash (s : string) :
  Forall (fun e => noSlash e = true) (splitSlash s).
Proof.
  induction s as [|c s IH]; simpl.
  - repeat constructor.
  - destruct (isSlash c) eqn:E.
    + constructor; [reflexivity | assumption].
    + destruct (splitSlash s) as [|x xs]; inversion IH; subst.
      * repeat constructor; simpl; now rewrite E.
      * constructor; [simpl; rewrite E; assumption | assumption].
Qed.

Lemma isSlash_eq (c : ascii) : isSlash c = true -> c = "/"%char.
Proof. unfold isSlash. apply Ascii.eqb_eq. Qed.

Lemma concat_splitSlash (s : string) : String.concat "/" (splitSlash s) = s.
Proof.
  induction s as [|c s IH]; simpl; [reflexivity|].
  destruct (isSlash c) eqn:E.
  - apply isSlash_eq in E. subst c.
    pose proof (splitSlash_not_nil s) as Hn.
    destruct (splitSlash s) as [|x xs]; [congruence|].
    change (String.concat "/" ("" :: x :: xs))
      with ("" +++ "/" +++ String.concat "/" (x :: xs)).
    simpl. simpl in IH. now rewrite IH.
  - pose proof (splitSlash_not_nil s) as Hn.
    destruct (splitSlash s) as [|x xs]; [congruence|].
    destruct xs as [|y ys]; simpl in *; now rewrite IH.
Qed.

Lemma concat_snoc (cs : list string) (c : string) :
  String.concat "/" (cs ++ [c]) = dirSlash cs +++ c.
Proof.
  induction cs as [|x cs IH]; simpl; [reflexivity|].
  destruct (cs ++ [c]) eqn:E.
  - destruct cs; discriminate.
  - rewrite IH. now rewrite append_assoc.
Qed.

Lemma splitSlash_dirSlash (cs : list string) (c : string) :
  Forall (fun e => noSlash e = true) cs -> noSlash c = true ->
  splitSlash (dirSlash cs +++ c) = cs ++ [c].
Proof.
  induction 1 as [|x cs Hx _ IH]; simpl; intros Hc.
  - now apply splitSlash_noSlash.
  - rewrite append_assoc. simpl.
    rewrite splitSlash_elem_slash by assumption. now rewrite IH.
Qed.

Lemma trimRightSlash_noSlash_end (a c : string) :
  noSlash c = true -> c <> "" -> trimRightSlash (a +++ c) = a +++ c.
Proof.
  intros Hc Hne. induction a as [|x a IH]; simpl.
  - clear Hne. induction c as [|y c IH]; simpl; [reflexivity|].
    simpl in Hc. apply andb_true_iff in Hc as [Hy Hc].
    apply negb_true_iff in Hy. rewrite (IH Hc), Hy.
    destruct c; reflexivity.
  - rewrite IH. destruct (a +++ c) eqn:E; [|reflexivity].
    destruct a; simpl in E; [congruence | discriminate].
Qed.

Lemma trimLeftSlash_noSlash (c : string) : noSlash c = true -> trimLeftSlash c = c.
Proof.
  destruct c as [|x c]; simpl; [reflexivity|].
  intros H. apply andb_true_iff in H as [Hx _].
  apply negb_true_iff in Hx. now rewrite Hx.
Qed.

Lemma Trim_noSlash (c : string) : noSlash c = true -> Trim c = c.
Proof.
  intros H. unfold Trim. rewrite trimLeftSlash_noSlash by assumption.
  destruct c as [|x c]; [reflexivity|].
  apply (trimRightSlash_noSlash_end "" (String x c)); [assumption | discriminate].
Qed.

Lemma Trim_noSlash_suffix (c t : string) :
  noSlash c = true -> c <> "" -> noSlash t = true -> t <> "" ->
  Trim (c +++ "/" +++ t) = c +++ "/" +++ t.
Proof.
  intros Hc Hne Ht Hte. unfold Trim.
  destruct c as [|x c]; [congruence|].
  simpl in Hc. apply andb_true_iff in Hc as [Hx Hc].
  apply negb_true_iff in Hx.
  change (String x c +++ "/" +++ t) with (String x (c +++ "/" +++ t)).
  cbn [trimLeftSlash]. rewrite Hx.
  change (String x (c +++ "/" +++ t)) with (String x c +++ "/" +++ t).
  rewrite <- append_assoc.
  now apply trimRightSlash_noSlash_end.
Qed.

End StrFacts.

Module PathFacts.
Import Str StrFacts path.

Lemma validElem_noSlash (e : string) : validElem e = true -> noSlash e = true.
Proof. unfold validElem. intros H. now apply andb_true_iff in H as [H _]. Qed.

Lemma validElem_tests (e : string) :
  validElem e = true -> (e =? "") = false /\ (e =? ".") = false /\ (e =? "..") = false.
Proof.
  unfold validElem. intros H. apply andb_true_iff in H as [_ H].
  apply negb_true_iff in H.
  apply orb_false_iff in H as [H H3]. apply orb_false_iff in H as [H1 H2].
  auto.
Qed.

Lemma validElem_nonempty (e : string) : validElem e = true -> e <> "".
Proof.
  intros H. apply validElem_tests in H as [H _]. now apply String.eqb_neq.
Qed.

Lemma validElems_noSlash (cs : list string) :
  validElems cs -> Forall (fun e => noSlash e = true) cs.
Proof. apply Forall_impl. exact validElem_noSlash. Qed.

Lemma cleanElems_valid (r : bool) (cs rest stk : list string) :
  validElems cs ->
  cleanElems r stk (cs ++ rest) = cleanElems r (rev cs ++ stk) rest.
Proof.
  intros H. revert stk. induction H as [|e cs He _ IH]; intros stk; [reflexivity|].
  destruct (validElem_tests e He) as (H1 & H2 & H3).
  cbn [app cleanElems]. rewrite H1, H2, H3. cbn [orb].
  rewrite IH. cbn [rev]. now rewrite <- app_assoc.
Qed.

Lemma Split_noSlash (c : string) : noSlash c = true -> Split c = ("", c).
Proof.
  induction c as [|x c IH]; simpl; [reflexivity|].
  intros H. apply andb_true_iff in H as [Hx Hc].
  apply negb_true_iff in Hx. now rewrite (IH Hc), Hx.
Qed.

Lemma Split_slash (a c : string) :
  noSlash c = true -> Split (a +++ String "/" c) = (a +++ "/", c).
Proof.
  intros Hc. induction a as [|x a IH]; simpl.
  - now rewrite (Split_noSlash c Hc).
  - rewrite IH. destruct a; reflexivity.
Qed.

Lemma Split_dirSlash (cs : list string) (pre c : string) :
  noSlash c = true ->
  Split (pre +++ "/" +++ dirSlash cs +++ c) = (pre +++ "/" +++ dirSlash cs, c).
Proof.
  intros Hc. revert pre. induction cs as [|x cs IH]; intros pre; simpl.
  - rewrite (Split_slash pre c Hc). reflexivity.
  - specialize (IH (pre +++ "/" +++ x)).
    rewrite !append_assoc in IH. simpl in IH.
    rewrite !append_assoc. simpl. exact IH.
Qed.

Lemma Split_abs (cs : list string) (c : string) :
  noSlash c = true ->
  Split (String "/" (dirSlash cs +++ c)) = (String "/" (dirSlash cs), c).
Proof. intros H. exact (Split_dirSlash cs "" c H). Qed.

Lemma concat_slash (cs : list string) :
  cs <> [] -> String.concat "/" cs +++ "/" = dirSlash cs.
Proof.
  induction cs as [|x cs IH]; [congruence|]. intros _.
  destruct cs as [|y cs].
  - reflexivity.
  - change (String.concat "/" (x :: y :: cs))
      with (x +++ "/" +++ String.concat "/" (y :: cs)).
    rewrite !append_assoc. rewrite IH by discriminate. reflexivity.
Qed.

Lemma absPath_snoc (cs : list string) (c : string) :
  absPath (cs ++ [c]) = String "/" (dirSlash cs +++ c).
Proof. unfold absPath. now rewrite concat_snoc. Qed.

Lemma Clean_rooted_elems (s : string) (cs : list string) :
  cleanElems true [] (splitSlash (String "/" s)) = cs ->
  Clean (String "/" s) = absPath cs.
Proof.
  intros H. unfold Clean, isRooted. change (isSlash "/") with true.
  cbv zeta. rewrite H. reflexivity.
Qed.

Lemma cleanElems_empty (r : bool) (stk l : list string) :
  cleanElems r stk ("" :: l) = cleanElems r stk l.
Proof. reflexivity. Qed.

Lemma splitSlash_slash (s : string) :
  splitSlash (String "/" s) = "" :: splitSlash s.
Proof. reflexivity. Qed.

Lemma Dir_abs (cs : list string) (c : string) :
  validElems cs -> validElem c = true -> Dir (absPath (cs ++ [c])) = absPath cs.
Proof.
  intros Hcs Hc. unfold Dir. rewrite absPath_snoc.
  rewrite (Split_abs cs c (validElem_noSlash c Hc)). cbn [fst].
  apply Clean_rooted_elems.
  rewrite splitSlash_slash, cleanElems_empty.
  rewrite <- (append_empty_r (dirSlash cs)).
  rewrite splitSlash_dirSlash by (auto using validElems_noSlash).
  rewrite cleanElems_valid by assumption.
  rewrite cleanElems_empty. cbn [cleanElems]. now rewrite app_nil_r, rev_involutive.
Qed.

Lemma Base_abs (cs : list string) (c : string) :
  validElems cs -> validElem c = true -> Base (absPath (cs ++ [c])) = c.
Proof.
  intros Hcs Hc. rewrite absPath_snoc. unfold Base.
  pose proof (validElem_noSlash c Hc) as Hn.
  pose proof (validElem_nonempty c Hc) as Hne.
  change (String "/" (dirSlash cs +++ c)) with ("/" +++ dirSlash cs +++ c).
  rewrite <- append_assoc.
  rewrite trimRightSlash_noSlash_end by assumption.
  rewrite append_assoc.
  change ("/" +++ dirSlash cs +++ c) with (String "/" (dirSlash cs +++ c)).
  cbv iota. rewrite (Split_abs cs c Hn). cbn [snd]. destruct c; congruence.
Qed.

Lemma Join_abs (cs : list string) (c : string) :
  validElems cs -> validElem c = true -> Join (absPath cs) c = absPath (cs ++ [c]).
Proof.
  intros Hcs Hc.
  assert (E : Join (absPath cs) c
              = Clean (String "/" (String.concat "/" cs +++ "/" +++ c)))
    by reflexivity.
  rewrite E. apply Clean_rooted_elems.
  rewrite splitSlash_slash, cleanElems_empty.
  destruct cs as [|x cs].
  - change (String.concat "/" [] +++ "/" +++ c) with (String "/" c).
    rewrite splitSlash_slash, cleanElems_empty.
    rewrite splitSlash_noSlash by (now apply validElem_noSlash).
    apply (cleanElems_valid true [c] [] []). now constructor.
  - rewrite <- append_assoc, concat_slash by discriminate.
    rewrite splitSlash_dirSlash
      by (auto using validElems_noSlash, validElem_noSlash).
    rewrite <- (app_nil_r ((x :: cs) ++ [c])) at 1.
    rewrite cleanElems_valid.
    + cbn [cleanElems]. now rewrite !app_nil_r, rev_involutive.
    + apply Forall_app. split; [assumption | now constructor].
Qed.

Lemma length_dirSlash_concat (cs : list string) :
  String.length (String.concat "/" cs) <= String.length (dirSlash cs).
Proof.
  destruct cs as [|x cs]; [simpl; lia|].
  rewrite <- concat_slash by discriminate. rewrite length_append. lia.
Qed.

Lemma length_abs_snoc (cs : list string) (c : string) :
  c <> "" -> String.length (absPath cs) < String.length (absPath (cs ++ [c])).
Proof.
  intros Hc. rewrite absPath_snoc. unfold absPath. cbn [append String.length].
  rewrite length_append. pose proof (length_dirSlash_concat cs).
  destruct c; [congruence|]. simpl. lia.
Qed.

Lemma validPath_inv (p : string) :
  validPath p = true ->
  exists cs c, validElems cs /\ validElem c = true /\ p = absPath (cs ++ [c]).
Proof.
  destruct p as [|x r]; [discriminate|]. cbn [validPath].
  intros H. apply andb_true_iff in H as [Hx H].
  apply isSlash_eq in Hx. subst x.
  pose proof (concat_splitSlash r) as Hr.
  pose proof (splitSlash_not_nil r) as Hn.
  rewrite forallb_forall in H.
  destruct (exists_last Hn) as (cs & c & E). rewrite E in H, Hr.
  exists cs, c. repeat split.
  - apply Forall_forall. intros e He. apply H, in_or_app. now left.
  - apply H, in_or_app. right. now left.
  - unfold absPath. now rewrite Hr.
Qed.

Lemma splitSlash_concat (cs : list string) :
  cs <> [] -> Forall (fun e => noSlash e = true) cs ->
  splitSlash (String.concat "/" cs) = cs.
Proof.
  intros Hn H. destruct (exists_last Hn) as (l & c & E). subst cs.
  apply Forall_app in H as [Hl Hc]. inversion Hc; subst.
  rewrite concat_snoc. now apply splitSlash_dirSlash.
Qed.

Lemma validPath_abs (cs : list string) :
  validElems cs -> cs <> [] -> validPath (absPath cs) = true.
Proof.
  intros H Hn. unfold absPath. cbn [append validPath].
  change (isSlash "/") with true. cbn [andb].
  rewrite splitSlash_concat by (auto using validElems_noSlash).
  apply forallb_forall. now apply Forall_forall.
Qed.

Lemma validDir_inv (d : string) :
  validDir d = true -> exists cs, validElems cs /\ d = absPath cs.
Proof.
  unfold validDir. intros H. apply orb_true_iff in H as [H|H].
  - apply String.eqb_eq in H. subst d. exists []. split; [constructor | reflexivity].
  - destruct (validPath_inv d H) as (cs & c & Hcs & Hc & E).
    exists (cs ++ [c]). split; [|assumption].
    apply Forall_app. split; [assumption | now constructor].
Qed.

Lemma validDir_abs (cs : list string) : validElems cs -> validDir (absPath cs) = true.
Proof.
  intros H. unfold validDir. destruct cs as [|x cs]; [reflexivity|].
  rewrite validPath_abs by (assumption || discriminate). apply orb_true_r.
Qed.

(** The facts the driver needs, on strings. *)

Lemma validPath_Dir (p : string) : validPath p = true -> validDir (Dir p) = true.
Proof.
  intros H. destruct (validPath_inv p H) as (cs & c & Hcs & Hc & ->).
  rewrite Dir_abs by assumption. now apply validDir_abs.
Qed.

Lemma validPath_Base (p : string) : validPath p = true -> validElem (Base p) = true.
Proof.
  intros H. destruct (validPath_inv p H) as (cs & c & Hcs & Hc & ->).
  now rewrite Base_abs.
Qed.

Lemma validPath_Join (p : string) : validPath p = true -> Join (Dir p) (Base p) = p.
Proof.
  intros H. destruct (validPath_inv p H) as (cs & c & Hcs & Hc & ->).
  rewrite Dir_abs, Base_abs by assumption. now apply Join_abs.
Qed.

Lemma validPath_Dir_length (p : string) :
  validPath p = true -> String.length (Dir p) < String.length p.
Proof.
  intros H. destruct (validPath_inv p H) as (cs & c & Hcs & Hc & ->).
  rewrite Dir_abs by assumption. apply length_abs_snoc.
  now apply validElem_nonempty.
Qed.

Lemma validPath_not_root (p : string) : validPath p = true -> p <> "/".
Proof. intros H ->. discriminate. Qed.

Lemma validDir_cases (d : string) :
  validDir d = true -> d = "/" \/ validPath d = true.
Proof.
  unfold validDir. intros H. apply orb_true_iff in H as [H|H]; [left|right].
  - now apply String.eqb_eq. - assumption.
Qed.

Lemma Join_valid (d b : string) :
  validDir d = true -> validElem b = true -> validPath (Join d b) = true.
Proof.
  intros Hd Hb. destruct (validDir_inv d Hd) as (cs & Hcs & ->).
  rewrite Join_abs by assumption. apply validPath_abs.
  - apply Forall_app. split; [assumption | now constructor].
  - destruct cs; discriminate.
Qed.

Lemma Dir_Join (d b : string) :
  validDir d = true -> validElem b = true -> Dir (Join d b) = d.
Proof.
  intros Hd Hb. destruct (validDir_inv d Hd) as (cs & Hcs & ->).
  rewrite Join_abs by assumption. now apply Dir_abs.
Qed.

Lemma Base_Join (d b : string) :
  validDir d = true -> validElem b = true -> Base (Join d b) = b.
Proof.
  intros Hd Hb. destruct (validDir_inv d Hd) as (cs & Hcs & ->).
  rewrite Join_abs by assumption. now apply Base_abs.
Qed.


End PathFacts.

(** ** The tables *)

Module SqlFacts.
Import sql.

Lemma keyEq_true (d b : string) (r : fileInfo) :
  keyEq d b r = true <-> DirName r = d /\ BaseName r = b.
Proof.
  unfold keyEq. rewrite andb_true_iff, !String.eqb_eq. tauto.
Qed.

Lemma keyEq_self (r : fileInfo) : keyEq (DirName r) (BaseName r) r = true.
Proof. now apply keyEq_true. Qed.

Lemma keyEq_false (d b : string) (r : fileInfo) :
  keyEq d b r = false <-> ~ (DirName r = d /\ BaseName r = b).
Proof.
  rewrite <- keyEq_true. destruct (keyEq d b r); split; intros; congruence.
Qed.

Lemma selectFile_Some (d b : string) (t : list fileInfo) (r : fileInfo) :
  selectFile d b t = Some r -> In r t /\ DirName r = d /\ BaseName r = b.
Proof.
  unfold selectFile. intros H. apply find_some in H as [Hin Hk].
  apply keyEq_true in Hk. tauto.
Qed.

Lemma hasFile_select (d b : string) (t : list fileInfo) :
  hasFile d b t = true <-> exists r, selectFile d b t = Some r.
Proof.
  unfold hasFile, selectFile. induction t as [|x t IH]; simpl.
  - split; [discriminate | intros [r H]; discriminate].
  - destruct (keyEq d b x); simpl; [|exact IH].
    split; [eauto | reflexivity].
Qed.

Lemma hasFile_false_select (d b : string) (t : list fileInfo) :
  hasFile d b t = false <-> selectFile d b t = None.
Proof.
  unfold hasFile, selectFile. induction t as [|x t IH]; simpl.
  - tauto.
  - destruct (keyEq d b x); simpl; [|exact IH].
    split; discriminate.
Qed.

Lemma hasFile_In (d b : string) (t : list fileInfo) :
  hasFile d b t = true <-> exists r, In r t /\ DirName r = d /\ BaseName r = b.
Proof.
  unfold hasFile. rewrite existsb_exists.
  split; intros (r & Hin & H); exists r; split; auto; now apply keyEq_true.
Qed.

(** Upsert *)

Lemma hasFile_app (d b : string) (t u : list fileInfo) :
  hasFile d b (t ++ u) = hasFile d b t || hasFile d b u.
Proof. unfold hasFile. apply existsb_app. Qed.

Lemma selectFile_app (d b : string) (t u : list fileInfo) :
  selectFile d b (t ++ u)
  = match selectFile d b t with Some r => Some r | None => selectFile d b u end.
Proof.
  unfold selectFile. induction t as [|x t IH]; simpl; [reflexivity|].
  destruct (keyEq d b x); [reflexivity | exact IH].
Qed.

Lemma selectFile_map_replace (d b : string) (fi : fileInfo) (t : list fileInfo) :
  selectFile d b
    (map (fun r => if keyEq (DirName fi) (BaseName fi) r then fi else r) t)
  = if keyEq d b fi
    then (if hasFile (DirName fi) (BaseName fi) t then Some fi else None)
    else selectFile d b t.
Proof.
  unfold selectFile, hasFile. induction t as [|x t IH]; simpl.
  - now destruct (keyEq d b fi).
  - destruct (keyEq (DirName fi) (BaseName fi) x) eqn:Ex; simpl.
    + destruct (keyEq d b fi) eqn:Ef; [reflexivity|].
      assert (keyEq d b x = false) as ->.
      { apply keyEq_true in Ex. apply keyEq_false. apply keyEq_false in Ef.
        intros [H1 H2]. apply Ef. destruct Ex. split; congruence. }
      rewrite IH. reflexivity.
    + destruct (keyEq d b x) eqn:Edx.
      * assert (keyEq d b fi = false) as ->; [|reflexivity].
        apply keyEq_true in Edx. apply keyEq_false. apply keyEq_false in Ex.
        intros [H1 H2]. apply Ex. destruct Edx. split; congruence.
      * exact IH.
Qed.

Lemma selectFile_upsert (d b : string) (fi : fileInfo) (t : list fileInfo) :
  selectFile d b (upsertFile fi t)
  = if keyEq d b fi then Some fi else selectFile d b t.
Proof.
  unfold upsertFile. destruct (hasFile (DirName fi) (BaseName fi) t) eqn:E.
  - rewrite selectFile_map_replace, E. reflexivity.
  - rewrite selectFile_app. cbn [selectFile find].
    destruct (keyEq d b fi) eqn:Ef.
    + apply keyEq_true in Ef as [<- <-].
      apply hasFile_false_select in E. now rewrite E.
    + now destruct (selectFile d b t).
Qed.

Lemma In_upsert (fi r : fileInfo) (t : list fileInfo) :
  In r (upsertFile fi t) -> r = fi \/ In r t.
Proof.
  unfold upsertFile. destruct (hasFile _ _ t).
  - rewrite in_map_iff. intros (x & Hx & Hin).
    destruct (keyEq _ _ x); subst; auto.
  - rewrite in_app_iff. simpl. intuition congruence.
Qed.

(** Insert unless present *)

Lemma selectFile_insertIgnore (d b : string) (fi : fileInfo) (t : list fileInfo) :
  selectFile d b (insertIgnore fi t)
  = match selectFile d b t with
    | Some r => Some r
    | None => if keyEq d b fi then Some fi else None
    end.
Proof.
  unfold insertIgnore. destruct (hasFile (DirName fi) (BaseName fi) t) eqn:E.
  - destruct (selectFile d b t) eqn:Es; [reflexivity|].
    destruct (keyEq d b fi) eqn:Ef; [|reflexivity].
    apply keyEq_true in Ef as [<- <-].
    apply hasFile_select in E as [r Hr]. congruence.
  - rewrite selectFile_app. reflexivity.
Qed.

Lemma In_insertIgnore (fi r : fileInfo) (t : list fileInfo) :
  In r (insertIgnore fi t) -> In r t \/ r = fi.
Proof.
  unfold insertIgnore. destruct (hasFile _ _ t); [tauto|].
  rewrite in_app_iff. simpl. intuition congruence.
Qed.


Lemma hasFile_insertIgnore (d b : string) (fi : fileInfo) (t : list fileInfo) :
  hasFile d b (insertIgnore fi t) = hasFile d b t || keyEq d b fi.
Proof.
  unfold insertIgnore. destruct (hasFile (DirName fi) (BaseName fi) t) eqn:E.
  - destruct (keyEq d b fi) eqn:Ef; [|now rewrite orb_false_r].
    apply keyEq_true in Ef as [<- <-]. now rewrite E.
  - rewrite hasFile_app. unfold hasFile at 2. simpl. now rewrite orb_false_r.
Qed.

(** Delete *)


Lemma selectFile_deleteFile (d b d' b' : string) (t : list fileInfo) :
  selectFile d b (deleteFile d' b' t)
  = if (d =? d') && (b =? b') then None else selectFile d b t.
Proof.
  unfold selectFile, deleteFile. induction t as [|x t IH]; simpl.
  - now destruct ((d =? d') && (b =? b')).
  - destruct (keyEq d' b' x) eqn:E'; simpl.
    + rewrite IH. destruct ((d =? d') && (b =? b')) eqn:E; [reflexivity|].
      assert (keyEq d b x = false) as ->; [|reflexivity].
      apply keyEq_true in E' as [<- <-]. unfold keyEq.
      now rewrite (String.eqb_sym (DirName x)), (String.eqb_sym (BaseName x)).
    + destruct (keyEq d b x) eqn:Ex.
      * assert ((d =? d') && (b =? b') = false) as ->; [|reflexivity].
        apply keyEq_true in Ex as [<- <-]. exact E'.
      * exact IH.
Qed.

Lemma selectChildren_In (d : string) (r : fileInfo) (t : list fileInfo) :
  In r (selectChildren d t) <-> In r t /\ DirName r = d.
Proof. unfold selectChildren. now rewrite filter_In, String.eqb_eq. Qed.

(** Update of the key *)

Lemma updateKey_absent (d' b' d b : string) (t : list fileInfo) :
  hasFile d' b' t = false ->
  updateKey d' b' d b t
  = Some (map (fun r => if keyEq d b r then rekey d' b' r else r) t).
Proof. unfold updateKey. intros ->. now rewrite andb_false_r. Qed.

Lemma selectFile_rekey_new (d' b' d b : string) (t : list fileInfo) (row : fileInfo) :
  selectFile d b t = Some row -> hasFile d' b' t = false ->
  selectFile d' b' (map (fun r => if keyEq d b r then rekey d' b' r else r) t)
  = Some (rekey d' b' row).
Proof.
  unfold selectFile, hasFile. induction t as [|x t IH]; simpl; [discriminate|].
  intros Hs Hn. apply orb_false_iff in Hn as [Hx Hn].
  destruct (keyEq d b x) eqn:E.
  - injection Hs as ->. cbn [find]. unfold keyEq at 1. simpl.
    now rewrite !String.eqb_refl.
  - cbn [find]. rewrite Hx. now apply IH.
Qed.

Lemma selectFile_rekey_other (d' b' d b k1 k2 : string) (t : list fileInfo) :
  ~ (k1 = d /\ k2 = b) -> ~ (k1 = d' /\ k2 = b') ->
  selectFile k1 k2 (map (fun r => if keyEq d b r then rekey d' b' r else r) t)
  = selectFile k1 k2 t.
Proof.
  intros H1 H2. unfold selectFile. induction t as [|x t IH]; simpl; [reflexivity|].
  destruct (keyEq d b x) eqn:E.
  - assert (keyEq k1 k2 (rekey d' b' x) = false) as ->.
    { apply keyEq_false. simpl. intros [<- <-]. now apply H2. }
    assert (keyEq k1 k2 x = false) as ->; [|exact IH].
    apply keyEq_true in E as [<- <-]. apply keyEq_false.
    intros [<- <-]. now apply H1.
  - destruct (keyEq k1 k2 x); [reflexivity | exact IH].
Qed.

Lemma selectFile_rekey_old (d' b' d b : string) (t : list fileInfo) :
  ~ (d = d' /\ b = b') ->
  selectFile d b (map (fun r => if keyEq d b r then rekey d' b' r else r) t) = None.
Proof.
  intros H. unfold selectFile. induction t as [|x t IH]; simpl; [reflexivity|].
  destruct (keyEq d b x) eqn:E.
  - assert (keyEq d b (rekey d' b' x) = false) as ->; [|exact IH].
    apply keyEq_false. simpl. intros [<- <-]. now apply H.
  - rewrite E. exact IH.
Qed.

Lemma In_rekey (d' b' d b : string) (t : list fileInfo) (r : fileInfo) :
  In r (map (fun r => if keyEq d b r then rekey d' b' r else r) t) ->
  (In r t /\ keyEq d b r = false)
  \/ (exists x, In x t /\ keyEq d b x = true /\ r = rekey d' b' x).
Proof.
  rewrite in_map_iff. intros (x & Hx & Hin).
  destruct (keyEq d b x) eqn:E; subst; eauto.
Qed.

(** Segments *)

Lemma In_insertByNumber (r x : segmentRow) (l : list segmentRow) :
  In x (insertByNumber r l) <-> x = r \/ In x l.
Proof.
  induction l as [|y l IH]; simpl; [intuition congruence|].
  destruct (rowNumber r <=? rowNumber y)%Z; simpl; [intuition congruence|].
  rewrite IH. intuition congruence.
Qed.

Lemma In_selectSegments (l : string) (x : segmentRow) (t : list segmentRow) :
  In x (selectSegments l t) <-> In x t /\ rowLocation x = l.
Proof.
  unfold selectSegments. induction t as [|y t IH]; simpl; [tauto|].
  destruct (rowLocation y =? l) eqn:E; simpl.
  - rewrite In_insertByNumber, IH. apply String.eqb_eq in E.
    intuition congruence.
  - rewrite IH. apply String.eqb_neq in E. intuition congruence.
Qed.

End SqlFacts.

(** ** The driver's helpers *)

Module DrvFacts.
Import path plusDriver sql SqlFacts PathFacts Tree.

Ltac mstep := unfold bind, ret, fail, gets, outOfFuel, mapErr in *; cbn beta iota in *.

Lemma row_rebuild (d b : string) (t : list fileInfo) (row : fileInfo) :
  selectFile d b t = Some row ->
  mkFileInfo d b (SizeBytes row) (ModifiedAt row) (Contents row) (Location row) = row.
Proof.
  intros H. apply selectFile_Some in H as (_ & <- & <-). now destruct row.
Qed.

Lemma readFileInfo_found (p : string) (w : world) (row : fileInfo) :
  selectFile (Dir p) (Base p) (files w) = Some row ->
  readFileInfo p w = (Ok (row, None), w).
Proof.
  intros H. unfold readFileInfo. rewrite H. now rewrite (row_rebuild _ _ _ _ H).
Qed.

Lemma readFileInfo_missing (p : string) (w : world) :
  selectFile (Dir p) (Base p) (files w) = None ->
  readFileInfo p w
  = (Ok (mkFileInfo (Dir p) (Base p) 0 zeroTime [] "", Some ErrNoRows), w).
Proof. intros H. unfold readFileInfo. now rewrite H. Qed.

Lemma Clean_nonempty (p : string) : Clean p <> "".
Proof.
  unfold Clean. destruct p; [discriminate|]. cbv zeta.
  match goal with |- match ?o with _ => _ end <> _ => destruct o eqn:E end;
    [discriminate | discriminate].
Qed.

Lemma Dir_nonempty (p : string) : Dir p <> "".
Proof. apply Clean_nonempty. Qed.

(** *** mkdirAll *)

Lemma mkdirAll_S (fuel : nat) (p : string) (w : world) :
  mkdirAll (S fuel) p w
  = if (p =? "/") || (p =? "") then (Ok tt, w)
    else mkdirAll fuel (Dir p)
           (setFiles (insertIgnore (marker (Dir p) (Base p) w) (files w))
                     (StInsertDir (Dir p) (Base p)) w).
Proof. cbn [mkdirAll]. destruct ((p =? "/") || (p =? "")); reflexivity. Qed.

Lemma mkdirAll_no_error (fuel : nat) (p : string) (w w' : world) (e : error) :
  mkdirAll fuel p w <> (Err e, w').
Proof.
  revert p w. induction fuel as [|fuel IH]; intros p w; [discriminate|].
  rewrite mkdirAll_S. destruct ((p =? "/") || (p =? "")); [discriminate | apply IH].
Qed.

Lemma mkdirAll_frame (fuel : nat) (p : string) (w w' : world) (r : result unit) :
  mkdirAll fuel p w = (r, w') ->
  segmentRows w' = segmentRows w /\ swift w' = swift w
  /\ now w' = now w /\ entropy w' = entropy w.
Proof.
  revert p w. induction fuel as [|fuel IH]; intros p w.
  - intros [= _ <-]. auto.
  - rewrite mkdirAll_S. destruct ((p =? "/") || (p =? "")).
    + intros [= _ <-]. auto.
    + intros H. apply IH in H. exact H.
Qed.

Lemma mkdirAll_select_old (fuel : nat) (p : string) (w w' : world) (r : result unit)
  (d b : string) (x : fileInfo) :
  mkdirAll fuel p w = (r, w') ->
  selectFile d b (files w) = Some x -> selectFile d b (files w') = Some x.
Proof.
  revert p w. induction fuel as [|fuel IH]; intros p w.
  - intros [= _ <-]. auto.
  - rewrite mkdirAll_S. destruct ((p =? "/") || (p =? "")).
    + intros [= _ <-]. auto.
    + intros H Hs. apply (IH _ _ H). cbn [files setFiles].
      rewrite selectFile_insertIgnore, Hs. reflexivity.
Qed.

Lemma mkdirAll_select_new (fuel : nat) (p : string) (w w' : world) (r : result unit)
  (d b : string) (x : fileInfo) :
  mkdirAll fuel p w = (r, w') ->
  selectFile d b (files w') = Some x ->
  selectFile d b (files w) = Some x \/ x = marker d b w.
Proof.
  revert p w. induction fuel as [|fuel IH]; intros p w.
  - intros [= _ <-]. auto.
  - rewrite mkdirAll_S. destruct ((p =? "/") || (p =? "")).
    + intros [= _ <-]. auto.
    + intros H Hs. destruct (IH _ _ H Hs) as [Ho|Hn].
      * cbn [files setFiles] in Ho. rewrite selectFile_insertIgnore in Ho.
        destruct (selectFile d b (files w)); [now left|].
        destruct (keyEq d b _) eqn:E; [|discriminate].
        injection Ho as <-. right. apply keyEq_true in E. cbn in E.
        destruct E as [-> ->]. reflexivity.
      * right. exact Hn.
Qed.

Lemma hasFile_mono_mkdirAll (fuel : nat) (p : string) (w w' : world)
  (r : result unit) (d b : string) :
  mkdirAll fuel p w = (r, w') ->
  hasFile d b (files w) = true -> hasFile d b (files w') = true.
Proof.
  intros H Hh. apply hasFile_select in Hh as [x Hx].
  apply hasFile_select. exists x. eapply mkdirAll_select_old; eauto.
Qed.

Lemma covered_mono (t u : list fileInfo) (p : string) :
  (forall d b, hasFile d b t = true -> hasFile d b u = true) ->
  covered t p -> covered u p.
Proof.
  intros Hm. induction 1 as [p H|p H _ IH].
  - now apply covered_root.
  - apply covered_step; auto.
Qed.

Lemma mkdirAll_covered (fuel : nat) (p : string) (w w' : world) :
  mkdirAll fuel p w = (Ok tt, w') -> covered (files w') p.
Proof.
  revert p w. induction fuel as [|fuel IH]; intros p w; [discriminate|].
  rewrite mkdirAll_S. destruct ((p =? "/") || (p =? "")) eqn:E.
  - intros _. now apply covered_root.
  - intros H. apply covered_step; [|exact (IH _ _ H)].
    eapply hasFile_mono_mkdirAll; [exact H|].
    cbn [files setFiles]. rewrite hasFile_insertIgnore.
    unfold marker, keyEq. cbn. now rewrite !String.eqb_refl, orb_true_r.
Qed.

Lemma mkdirAll_In (fuel : nat) (p : string) (w w' : world) (x : fileInfo) :
  mkdirAll fuel p w = (Ok tt, w') ->
  In x (files w') ->
  In x (files w)
  \/ (x = marker (DirName x) (BaseName x) w /\ DirName x <> ""
      /\ covered (files w') (DirName x)).
Proof.
  revert p w. induction fuel as [|fuel IH]; intros p w; [discriminate|].
  rewrite mkdirAll_S. destruct ((p =? "/") || (p =? "")) eqn:E.
  - intros [= <-]. auto.
  - intros H Hin. destruct (IH _ _ H Hin) as [Ho|Hn].
    + cbn [files setFiles] in Ho. apply In_insertIgnore in Ho as [Ho| ->].
      * now left.
      * right. split; [reflexivity|]. cbn.
        split; [apply Dir_nonempty | exact (mkdirAll_covered _ _ _ _ H)].
    + right. exact Hn.
Qed.



Lemma mkdirAll_total (fuel : nat) (p : string) (w : world) :
  validDir p = true -> String.length p < fuel ->
  exists w', mkdirAll fuel p w = (Ok tt, w').
Proof.
  revert p w. induction fuel as [|fuel IH]; intros p w Hv Hl; [lia|].
  rewrite mkdirAll_S. destruct ((p =? "/") || (p =? "")) eqn:E; [eauto|].
  apply orb_false_iff in E as [E _]. apply String.eqb_neq in E.
  destruct (validDir_cases p Hv) as [?|Hp]; [congruence|].
  apply IH.
  - now apply validPath_Dir.
  - pose proof (validPath_Dir_length p Hp). lia.
Qed.

End DrvFacts.

(** ** The object store *)

Module SwiftFacts.
Import swiftModel.

Lemma lookup_put_same (name : string) (o : object) (objs : list (string * object)) :
  lookup name (put name o objs) = Some o.
Proof.
  induction objs as [|[n o'] objs IH]; simpl.
  - now rewrite String.eqb_refl.
  - destruct (n =? name) eqn:E; simpl; rewrite E; [reflexivity | exact IH].
Qed.

Lemma lookup_put_other (name name' : string) (o : object)
  (objs : list (string * object)) :
  name' <> name -> lookup name' (put name o objs) = lookup name' objs.
Proof.
  intros Hne. induction objs as [|[n o'] objs IH]; simpl.
  - apply String.eqb_neq in Hne. now rewrite String.eqb_sym, Hne.
  - destruct (n =? name) eqn:E; simpl.
    + apply String.eqb_eq in E. subst n.
      apply String.eqb_neq in Hne. now rewrite String.eqb_sym, Hne.
    + destruct (n =? name'); [reflexivity | exact IH].
Qed.

Lemma writeCalls_record (c : swiftCall) (objs : list (string * object))
  (sw : swiftInterface) :
  writeCalls (record c objs sw) = writeCalls sw + (if isWrite c then 1 else 0).
Proof.
  unfold writeCalls, record. cbn [calls]. rewrite filter_app, length_app.
  cbn [filter]. now destruct (isWrite c).
Qed.

Lemma In_deletePrefix (prefix name : string) (o : object)
  (objs : list (string * object)) :
  In (name, o) (deletePrefix prefix objs)
  <-> In (name, o) objs /\ String.prefix prefix name = false.
Proof.
  unfold deletePrefix. rewrite filter_In. cbn [fst]. now rewrite negb_true_iff.
Qed.

End SwiftFacts.

(** ** Temporary URLs *)

Module URLForProps.
Import path plusDriver sql SqlFacts DrvFacts Tree.

(** C6, as the code has it: [URLFor] succeeds only for a record with an
    external location; a record stored inline yields ErrUnsupportedMethod;
    a path without a record yields PathNotFoundError for that path. *)
Theorem URLFor_outcomes (p : string) (options : list (string * string)) (w : world) :
  (forall url w', URLFor p options w = (Ok url, w') ->
     exists fi, recordAt w p = Some fi /\ Location fi <> "")
  /\ (forall fi, recordAt w p = Some fi -> Location fi = "" ->
        URLFor p options w = (Err ErrUnsupportedMethod, w))
  /\ (recordAt w p = None -> URLFor p options w = (Err (PathNotFoundError p), w))
  /\ (forall fi, recordAt w p = Some fi -> Location fi <> "" ->
        exists url w', URLFor p options w = (Ok url, w')).
Proof.
  unfold recordAt, URLFor. mstep.
  destruct (selectFile (Dir p) (Base p) (files w)) as [row|] eqn:E.
  - rewrite (readFileInfo_found _ _ _ E). cbn beta iota.
    destruct (Location row =? "") eqn:El.
    + apply String.eqb_eq in El. split; [|split; [|split]].
      * discriminate.
      * reflexivity.
      * discriminate.
      * intros fi [= <-] Hne. congruence.
    + apply String.eqb_neq in El. split; [|split; [|split]].
      * intros url w' _. eauto.
      * intros fi [= <-] He. congruence.
      * discriminate.
      * intros fi _ _. unfold swiftObjectName, gets, swiftModel.MakeTempURL. eauto.
  - rewrite (readFileInfo_missing _ _ E). cbn beta iota.
    split; [|split; [|split]].
    + discriminate.
    + discriminate.
    + reflexivity.
    + discriminate.
Qed.

(** C6 as stated fails: for a path without any record the error is
    PathNotFoundError, not ErrUnsupportedMethod. *)
Lemma URLFor_missing_is_not_unsupported :
  recordAt Sample.emptyWorld "/v2/blob" = None
  /\ fst (URLFor "/v2/blob" [] Sample.emptyWorld) = Err (PathNotFoundError "/v2/blob")
  /\ fst (URLFor "/v2/blob" [] Sample.emptyWorld) <> Err ErrUnsupportedMethod.
Proof. split; [reflexivity | split; [reflexivity | discriminate]]. Qed.

End URLForProps.

(** ** Deleting a file that lives in the object store *)

Module DeleteFileProps.
Import path plusDriver sql SqlFacts DrvFacts Tree SwiftFacts.

Lemma deleteDownwards_file (fuel : nat) (fi : fileInfo) (w : world) :
  IsDir fi = false ->
  deleteDownwards (S fuel) fi w
  = match deleteBlobs fi w with
    | (Ok _, w1) => execDeleteFile (DirName fi) (BaseName fi) w1
    | (Err e, w1) => (Err e, w1)
    | (OutOfFuel, w1) => (OutOfFuel, w1)
    end.
Proof.
  intros Hd. cbn [deleteDownwards]. unfold bind. rewrite Hd.
  destruct (deleteBlobs fi w) as [[[]| |] w1]; reflexivity.
Qed.

Lemma deleteBlobs_external (fi : fileInfo) (w : world) :
  Location fi <> "" ->
  deleteBlobs fi w
  = (Ok tt,
     setSwift (swiftModel.record
                 (CallDeleteAll (prependPrefix (ObjectPrefix (swift w)) (Location fi) +++ "/"))
                 (swiftModel.deletePrefix
                    (prependPrefix (ObjectPrefix (swift w)) (Location fi) +++ "/")
                    (objects (swift w)))
                 (swift w)) w).
Proof.
  intros H. apply String.eqb_neq in H. unfold deleteBlobs. rewrite H. reflexivity.
Qed.

Lemma deleteBlobs_inline (fi : fileInfo) (w : world) :
  Location fi = "" -> deleteBlobs fi w = (Ok tt, w).
Proof. intros H. unfold deleteBlobs. rewrite H. reflexivity. Qed.


End DeleteFileProps.

(** ** PutContent followed by GetContent and Stat *)

Module PutProps.
Import path plusDriver sql SqlFacts DrvFacts PathFacts Tree SwiftFacts DeleteFileProps.

Lemma deleteBlobs_frame (fi : fileInfo) (w : world) :
  exists wa,
    deleteBlobs fi w = (Ok tt, wa)
    /\ files wa = files w /\ segmentRows wa = segmentRows w
    /\ journal wa = journal w /\ entropy wa = entropy w /\ now wa = now w
    /\ ObjectPrefix (swift wa) = ObjectPrefix (swift w)
    /\ swiftModel.writeCalls (swift wa) = swiftModel.writeCalls (swift w).
Proof.
  destruct (String.eqb_spec (Location fi) "") as [E|E].
  - rewrite (deleteBlobs_inline _ _ E). exists w. repeat split.
  - rewrite (deleteBlobs_external _ _ E). eexists. split; [reflexivity|].
    repeat split; try reflexivity.
    cbn [swift setSwift]. rewrite writeCalls_record. cbn [swiftModel.isWrite]. lia.
Qed.

Lemma plusRandLocation_ok (w : world) :
  8 <= List.length (entropy w) ->
  plusRandLocation w
  = (Ok (Enc.hexEncode (firstn 8 (entropy w))), setEntropy (skipn 8 (entropy w)) w).
Proof.
  intros H. unfold plusRandLocation.
  destruct (Nat.ltb_spec (List.length (entropy w)) 8); [lia | reflexivity].
Qed.

Lemma stamped_names (fi : fileInfo) (w : world) :
  DirName (stamped fi w) = DirName fi /\ BaseName (stamped fi w) = BaseName fi
  /\ SizeBytes (stamped fi w) = SizeBytes fi /\ Contents (stamped fi w) = Contents fi
  /\ Location (stamped fi w) = Location fi.
Proof. unfold stamped. destruct (ModifiedAt fi =? zeroTime)%Z; repeat split. Qed.

Lemma writeFileInfo_unfold (fuel : nat) (fi : fileInfo) (w : world) :
  writeFileInfo fuel fi w
  = mkdirAll fuel (DirName fi)
      (setFiles (upsertFile (stamped fi w) (files w)) (StUpsertFile (stamped fi w)) w).
Proof.
  unfold writeFileInfo, bind, execUpsertFile, stamped.
  destruct (ModifiedAt fi =? zeroTime)%Z; reflexivity.
Qed.

Lemma writeFileInfo_stored (fuel : nat) (fi : fileInfo) (w w' : world)
  (r : result unit) :
  writeFileInfo fuel fi w = (r, w') ->
  selectFile (DirName fi) (BaseName fi) (files w') = Some (stamped fi w)
  /\ segmentRows w' = segmentRows w /\ swift w' = swift w
  /\ now w' = now w /\ entropy w' = entropy w.
Proof.
  rewrite writeFileInfo_unfold. intros H. split.
  - eapply mkdirAll_select_old; [exact H|]. cbn [files setFiles].
    rewrite selectFile_upsert.
    destruct (stamped_names fi w) as (Hd & Hb & _).
    assert (keyEq (DirName fi) (BaseName fi) (stamped fi w) = true) as ->;
      [|reflexivity].
    apply keyEq_true. now split.
  - exact (mkdirAll_frame _ _ _ _ _ H).
Qed.

Lemma writeFileInfo_total (fuel : nat) (fi : fileInfo) (w : world) :
  validDir (DirName fi) = true -> String.length (DirName fi) < fuel ->
  exists w', writeFileInfo fuel fi w = (Ok tt, w').
Proof.
  intros Hv Hl. rewrite writeFileInfo_unfold. now apply mkdirAll_total.
Qed.

Lemma GetContent_inline (p : string) (w : world) (fi : fileInfo) :
  recordAt w p = Some fi -> IsDir fi = false ->
  SizeBytes fi = Z.of_nat (List.length (Contents fi)) ->
  GetContent p w = (Ok (Contents fi), w).
Proof.
  unfold recordAt. intros Hrec Hdir Hsize.
  unfold GetContent, bind. rewrite (readFileInfo_found _ _ _ Hrec).
  cbn beta iota. rewrite Hdir. cbn [isErrNoRows orb].
  destruct (SizeBytes fi =? 0)%Z eqn:E0.
  - apply Z.eqb_eq in E0. destruct (Contents fi); [reflexivity|].
    cbn [List.length] in Hsize. lia.
  - apply Z.eqb_neq in E0.
    destruct (Nat.ltb_spec 0 (List.length (Contents fi))); [reflexivity|].
    lia.
Qed.

Lemma GetContent_external (p : string) (w : world) (fi : fileInfo) (data : list byte) :
  recordAt w p = Some fi -> IsDir fi = false -> SizeBytes fi <> 0%Z ->
  Contents fi = [] ->
  swiftModel.content (objects (swift w))
    (prependPrefix (ObjectPrefix (swift w)) (ObjectPath fi)) = Some data ->
  exists w', GetContent p w = (Ok data, w').
Proof.
  unfold recordAt. intros Hrec Hdir Hsize Hc Hobj.
  unfold GetContent, bind. rewrite (readFileInfo_found _ _ _ Hrec).
  cbn beta iota. rewrite Hdir. cbn [isErrNoRows orb].
  apply Z.eqb_neq in Hsize. rewrite Hsize, Hc. cbn [List.length Nat.ltb Nat.leb].
  unfold swiftObjectName, gets, mapErr, swiftModel.Reader.
  rewrite Hobj. cbn. eauto.
Qed.

Lemma Stat_found (p : string) (w : world) (fi : fileInfo) :
  p <> "/" -> recordAt w p = Some fi -> Stat p w = (Ok fi, w).
Proof.
  unfold recordAt. intros Hp Hrec. unfold Stat.
  apply String.eqb_neq in Hp. rewrite Hp. unfold bind.
  now rewrite (readFileInfo_found _ _ _ Hrec).
Qed.

Lemma PutContent_split (fuel : nat) (p : string) (content : list byte) :
  PutContent fuel p content
  = ('(fi, err) <- readFileInfo p ;;
     _ <- match err with
          | None => deleteBlobs fi
          | Some ErrNoRows => ret tt
          | Some e => fail e
          end ;;
     putStore fuel p content).
Proof. reflexivity. Qed.

Lemma putStore_inline (fuel : nat) (p : string) (content : list byte) (w : world) :
  validPath p = true -> String.length p <= fuel ->
  List.length content <= maxInlineSizeBytes ->
  exists w1,
    putStore fuel p content w = (Ok tt, w1)
    /\ recordAt w1 p
       = Some (mkFileInfo (Dir p) (Base p) (Z.of_nat (List.length content))
                          (now w) content "")
    /\ swift w1 = swift w.
Proof.
  intros Hp Hfuel Hsmall.
  pose proof (validPath_Dir p Hp) as Hdir.
  pose proof (validPath_Dir_length p Hp) as Hlen.
  unfold putStore. cbv zeta.
  destruct (Nat.ltb_spec maxInlineSizeBytes (List.length content)) as [?|_]; [lia|].
  unfold bind at 1. unfold ret at 1. cbn beta iota.
  set (fi := mkFileInfo (Dir p) (Base p) _ zeroTime content "").
  destruct (writeFileInfo_total fuel fi w) as (w1 & Hw); [exact Hdir | cbn; lia |].
  unfold bind. rewrite Hw. cbn [negb]. unfold ret.
  exists w1. split; [reflexivity|].
  destruct (writeFileInfo_stored _ _ _ _ _ Hw) as (Hs & _ & Hsw & _).
  split; [exact Hs | exact Hsw].
Qed.

Lemma putStore_external (fuel : nat) (p : string) (content : list byte) (w : world) :
  validPath p = true -> String.length p <= fuel ->
  maxInlineSizeBytes < List.length content ->
  8 <= List.length (entropy w) ->
  let loc := Enc.hexEncode (firstn 8 (entropy w)) in
  let name := prependPrefix (ObjectPrefix (swift w)) (loc +++ "/content") in
  exists w1,
    putStore fuel p content w = (Ok tt, w1)
    /\ recordAt w1 p
       = Some (mkFileInfo (Dir p) (Base p) (Z.of_nat (List.length content))
                          (now w) [] loc)
    /\ swift w1
       = swiftModel.record (CallWrite name content)
           (swiftModel.put name (Blob content) (objects (swift w))) (swift w).
Proof.
  intros Hp Hfuel Hbig Hrand loc name.
  pose proof (validPath_Dir p Hp) as Hdir.
  pose proof (validPath_Dir_length p Hp) as Hlen.
  unfold putStore. cbv zeta.
  destruct (Nat.ltb_spec maxInlineSizeBytes (List.length content)) as [_|?]; [|lia].
  unfold bind at 1. rewrite (plusRandLocation_ok w Hrand). cbn beta iota.
  fold loc.
  set (fi := mkFileInfo (Dir p) (Base p) _ zeroTime [] loc).
  set (wb := setEntropy _ w).
  destruct (writeFileInfo_total fuel fi wb) as (wc & Hw); [exact Hdir | cbn; lia |].
  unfold bind at 1. rewrite Hw. cbn [negb].
  destruct (writeFileInfo_stored _ _ _ _ _ Hw) as (Hs & _ & Hsw & _).
  unfold bind, swiftObjectName, gets, mapErr, swiftModel.Write, ret.
  cbn beta iota. eexists. split; [reflexivity|].
  split.
  - unfold recordAt. cbn [files setSwift]. exact Hs.
  - cbn [swift setSwift]. rewrite Hsw. reflexivity.
Qed.

(** C1: a put followed by a get returns the bytes, and Stat reports their
    number; content of at most 256 bytes is kept in the row and the object
    store sees no write, larger content goes to the object store under a
    fresh random location with one write. *)
Theorem PutContent_then_GetContent
  (fuel : nat) (p : string) (content : list byte) (w : world) :
  validPath p = true ->
  String.length p <= fuel ->
  (maxInlineSizeBytes < List.length content -> 8 <= List.length (entropy w)) ->
  exists w1,
    PutContent fuel p content w = (Ok tt, w1)
    /\ (exists w2, GetContent p w1 = (Ok content, w2))
    /\ (exists fi, Stat p w1 = (Ok fi, w1)
                   /\ Size fi = Z.of_nat (List.length content))
    /\ (List.length content <= maxInlineSizeBytes ->
          swiftModel.writeCalls (swift w1) = swiftModel.writeCalls (swift w)
          /\ exists fi, recordAt w1 p = Some fi
                        /\ Contents fi = content /\ Location fi = "")
    /\ (maxInlineSizeBytes < List.length content ->
          swiftModel.writeCalls (swift w1) = S (swiftModel.writeCalls (swift w))
          /\ exists fi, recordAt w1 p = Some fi
                        /\ Contents fi = []
                        /\ Location fi = Enc.hexEncode (firstn 8 (entropy w))).
Proof.
  intros Hp Hfuel Hrand.
  pose proof (validPath_Dir p Hp) as Hdir.
  pose proof (validPath_Dir_length p Hp) as Hlen.
  pose proof (validPath_not_root p Hp) as Hroot.
  assert (Hpre : exists wa,
             PutContent fuel p content w = putStore fuel p content wa
             /\ entropy wa = entropy w
             /\ swiftModel.writeCalls (swift wa) = swiftModel.writeCalls (swift w)).
  { rewrite PutContent_split. unfold bind at 1.
    destruct (selectFile (Dir p) (Base p) (files w)) as [row|] eqn:E.
    - rewrite (readFileInfo_found _ _ _ E). cbn beta iota. unfold bind at 1.
      destruct (deleteBlobs_frame row w) as (wa & Hd & _ & _ & _ & He & _ & _ & Hc).
      rewrite Hd. exists wa. auto.
    - rewrite (readFileInfo_missing _ _ E). cbn beta iota.
      unfold bind at 1, ret at 1. exists w. auto. }
  destruct Hpre as (wa & -> & He & Hwc).
  destruct (le_lt_dec (List.length content) maxInlineSizeBytes) as [Hsmall|Hbig].
  - destruct (putStore_inline fuel p content wa Hp Hfuel Hsmall)
      as (w1 & Hrun & Hrec & Hsw).
    exists w1. split; [exact Hrun|]. split; [|split; [|split]].
    + exists w1. apply (GetContent_inline p w1 _ Hrec); [|reflexivity].
      unfold IsDir. cbn [SizeBytes]. apply Z.ltb_ge. lia.
    + eexists. split; [apply (Stat_found p w1 _ Hroot Hrec) | reflexivity].
    + intros _. rewrite Hsw, Hwc. split; [reflexivity|].
      eexists. split; [exact Hrec|]. split; reflexivity.
    + intros ?. lia.
  - assert (Hrnd : 8 <= List.length (entropy wa)) by (rewrite He; auto).
    destruct (putStore_external fuel p content wa Hp Hfuel Hbig Hrnd)
      as (w1 & Hrun & Hrec & Hsw).
    exists w1. split; [exact Hrun|]. split; [|split; [|split]].
    + apply (GetContent_external p w1 _ content Hrec).
      * unfold IsDir. cbn [SizeBytes]. apply Z.ltb_ge. lia.
      * cbn [SizeBytes]. unfold maxInlineSizeBytes in Hbig. lia.
      * reflexivity.
      * rewrite Hsw. cbn [objects ObjectPrefix swiftModel.record].
        unfold swiftModel.content, ObjectPath. cbn [Location].
        now rewrite lookup_put_same.
    + eexists. split; [apply (Stat_found p w1 _ Hroot Hrec) | reflexivity].
    + intros ?. lia.
    + intros _. split.
      * rewrite Hsw, writeCalls_record, Hwc. cbn [swiftModel.isWrite]. lia.
      * eexists. split; [exact Hrec|]. split; [reflexivity|].
        cbn [Location]. now rewrite He.
Qed.

End PutProps.

(** ** Move *)

Module MoveProps.
Import path plusDriver sql SqlFacts DrvFacts PathFacts Tree SwiftFacts
       DeleteFileProps PutProps.

Lemma mkdirAll_select_new_shorter (fuel : nat) (p : string) (w w' : world)
  (r : result unit) (d b : string) (x : fileInfo) :
  validDir p = true ->
  mkdirAll fuel p w = (r, w') ->
  selectFile d b (files w') = Some x ->
  selectFile d b (files w) = Some x
  \/ (x = marker d b w /\ String.length d < String.length p).
Proof.
  revert p w. induction fuel as [|fuel IH]; intros p w Hv.
  - intros [= _ <-]. auto.
  - rewrite mkdirAll_S. destruct ((p =? "/") || (p =? "")) eqn:E.
    + intros [= _ <-]. auto.
    + apply orb_false_iff in E as [E _]. apply String.eqb_neq in E.
      destruct (validDir_cases p Hv) as [?|Hp]; [congruence|].
      pose proof (validPath_Dir_length p Hp) as Hl.
      intros H Hs.
      destruct (IH _ _ (validPath_Dir p Hp) H Hs) as [Ho|[Hn Hlen]].
      * cbn [files setFiles] in Ho. rewrite selectFile_insertIgnore in Ho.
        destruct (selectFile d b (files w)); [now left|].
        destruct (keyEq d b _) eqn:Ek; [|discriminate].
        injection Ho as <-. right. apply keyEq_true in Ek. cbn in Ek.
        destruct Ek as [<- <-]. split; [reflexivity | exact Hl].
      * right. split; [exact Hn | cbn in Hlen; lia].
Qed.

Lemma map_rekey_absent (d' b' d b : string) (t : list fileInfo) :
  hasFile d b t = false ->
  map (fun r => if keyEq d b r then rekey d' b' r else r) t = t.
Proof.
  unfold hasFile. induction t as [|x t IH]; simpl; [reflexivity|].
  intros H. apply orb_false_iff in H as [Hx Ht]. rewrite Hx. now rewrite IH.
Qed.

Lemma ancestorOf_valid (a p : string) :
  validPath p = true -> ancestorOf a p ->
  validDir a = true /\ String.length a < String.length p.
Proof.
  intros Hp H. induction H as [p E|a p E H IH].
  - split; [now apply validPath_Dir | now apply validPath_Dir_length].
  - pose proof (validPath_Dir_length p Hp) as Hl.
    destruct (validDir_cases _ (validPath_Dir p Hp)) as [Hr|Hd].
    + rewrite Hr in H. inversion H; discriminate.
    + destruct (IH Hd) as [Hv Hlen]. split; [exact Hv | lia].
Qed.

Lemma covered_ancestor (t : list fileInfo) (q a : string) :
  covered t q -> a = q \/ ancestorOf a q ->
  (a =? "/") || (a =? "") = true \/ hasFile (Dir a) (Base a) t = true.
Proof.
  induction 1 as [q E|q Hh _ IH]; intros [->|Ha].
  - now left.
  - inversion Ha; subst; congruence.
  - now right.
  - inversion Ha; subst; apply IH; auto.
Qed.

Lemma GetContent_outcome (p : string) (w : world) (fi : fileInfo) :
  recordAt w p = Some fi ->
  fst (GetContent p w)
  = if IsDir fi then Err (PathNotFoundError p)
    else if (SizeBytes fi =? 0)%Z then Ok []
    else if (0 <? List.length (Contents fi))%nat then Ok (Contents fi)
    else match swiftModel.content (objects (swift w))
                 (prependPrefix (ObjectPrefix (swift w)) (ObjectPath fi)) with
         | Some d => Ok d
         | None => Err (PathNotFoundError (Path fi))
         end.
Proof.
  unfold recordAt. intros Hrec.
  unfold GetContent, bind. rewrite (readFileInfo_found _ _ _ Hrec).
  cbn beta iota. cbn [isErrNoRows orb].
  destruct (IsDir fi); [reflexivity|].
  destruct (SizeBytes fi =? 0)%Z; [reflexivity|].
  destruct (0 <? List.length (Contents fi))%nat; [reflexivity|].
  unfold swiftObjectName, gets, mapErr, swiftModel.Reader.
  destruct (swiftModel.content _ _); reflexivity.
Qed.

Lemma GetContent_missing (p : string) (w : world) :
  recordAt w p = None -> GetContent p w = (Err (PathNotFoundError p), w).
Proof.
  unfold recordAt. intros Hrec.
  unfold GetContent, bind. now rewrite (readFileInfo_missing _ _ Hrec).
Qed.

Lemma GetContent_directory (p : string) (w : world) (fi : fileInfo) :
  recordAt w p = Some fi -> IsDir fi = true ->
  GetContent p w = (Err (PathNotFoundError p), w).
Proof.
  unfold recordAt. intros Hrec Hd.
  unfold GetContent, bind. rewrite (readFileInfo_found _ _ _ Hrec).
  cbn beta iota. now rewrite Hd, orb_true_r.
Qed.


Lemma Stat_missing (p : string) (w : world) :
  p <> "/" -> recordAt w p = None -> Stat p w = (Err (PathNotFoundError p), w).
Proof.
  unfold recordAt. intros Hp Hrec. unfold Stat.
  apply String.eqb_neq in Hp. rewrite Hp. unfold bind.
  now rewrite (readFileInfo_missing _ _ Hrec).
Qed.

(** Move onto a path without a record: the row gets its new key, then the
    directories above the target are created. *)
Lemma Move_onto_free_path (fuel : nat) (src dst : string) (w : world) (row : fileInfo) :
  recordAt w src = Some row -> recordAt w dst = None ->
  Move fuel src dst w
  = mkdirAll fuel (Dir dst)
      (setFiles
         (map (fun r => if keyEq (Dir src) (Base src) r
                        then rekey (Dir dst) (Base dst) r else r) (files w))
         (StUpdateKey (Dir dst) (Base dst) (Dir src) (Base src)) w).
Proof.
  unfold recordAt. intros Hs Hd. unfold Move. unfold bind at 1.
  rewrite (readFileInfo_found _ _ _ Hs). cbn beta iota. cbn [isErrNoRows].
  unfold bind at 1. rewrite (readFileInfo_missing _ _ Hd). cbn beta iota.
  unfold bind at 1, ret at 1. unfold bind at 1. unfold execUpdateKey.
  pose proof (selectFile_Some _ _ _ _ Hs) as (_ & Hdn & Hbn).
  rewrite Hdn, Hbn.
  rewrite updateKey_absent by (now apply hasFile_false_select).
  reflexivity.
Qed.


Lemma Stat_root (w : world) :
  exists fi, Stat "/" w = (Ok fi, w) /\ IsDir fi = true.
Proof. eexists. split; reflexivity. Qed.


Lemma valid_key_inj (p q : string) :
  validPath p = true -> validPath q = true ->
  Dir p = Dir q -> Base p = Base q -> p = q.
Proof.
  intros Hp Hq Hd Hb.
  rewrite <- (validPath_Join p Hp), <- (validPath_Join q Hq). congruence.
Qed.


(** C10: moving a file onto its own path succeeds and deletes the record;
    get and stat then report that the path is not found. *)
Theorem Move_onto_itself_deletes_the_record
  (fuel : nat) (p : string) (w : world) (fi : fileInfo) :
  validPath p = true -> String.length p <= fuel ->
  recordAt w p = Some fi -> IsDir fi = false ->
  exists w',
    Move fuel p p w = (Ok tt, w')
    /\ recordAt w' p = None
    /\ GetContent p w' = (Err (PathNotFoundError p), w')
    /\ Stat p w' = (Err (PathNotFoundError p), w').
Proof.
  intros Hp Hfuel Hrec Hfile.
  pose proof (validPath_Dir_length p Hp) as Hlen.
  pose proof (selectFile_Some _ _ _ _ Hrec) as (_ & Hdn & Hbn).
  destruct fuel as [|fuel]; [lia|].
  destruct (deleteBlobs_frame fi w) as (wa & Hdb & Hfa & _).
  set (w1 := setFiles (deleteFile (Dir p) (Base p) (files wa))
                      (StDeleteFile (Dir p) (Base p)) wa).
  set (w2 := setFiles (files w1) (StUpdateKey (Dir p) (Base p) (Dir p) (Base p)) w1).
  assert (Hgone : selectFile (Dir p) (Base p) (files w1) = None).
  { unfold w1. cbn [files setFiles]. rewrite selectFile_deleteFile.
    now rewrite !String.eqb_refl. }
  assert (Hmove : Move (S fuel) p p w = mkdirAll (S fuel) (Dir p) w2).
  { unfold Move. unfold bind at 1. unfold recordAt in Hrec.
    rewrite (readFileInfo_found _ _ _ Hrec). cbn beta iota. cbn [isErrNoRows].
    unfold bind at 1. rewrite (readFileInfo_found _ _ _ Hrec). cbn beta iota.
    unfold bind at 1. rewrite (deleteDownwards_file _ _ _ Hfile), Hdb.
    rewrite Hdn, Hbn. unfold execDeleteFile. fold w1.
    unfold bind at 1. unfold execUpdateKey, updateKey.
    rewrite !String.eqb_refl. cbn [andb negb].
    rewrite andb_false_r.
    rewrite map_rekey_absent by (now apply hasFile_false_select).
    reflexivity. }
  destruct (mkdirAll_total (S fuel) (Dir p) w2) as (w' & Hmk).
  { now apply validPath_Dir. }
  { lia. }
  assert (Hnone : recordAt w' p = None).
  { unfold recordAt. destruct (selectFile (Dir p) (Base p) (files w')) as [x|] eqn:Ex;
      [|reflexivity].
    destruct (mkdirAll_select_new_shorter _ _ _ _ _ _ _ _ (validPath_Dir p Hp) Hmk Ex)
      as [Hold|[_ Hl]]; [|lia].
    unfold w2 in Hold. cbn [files setFiles] in Hold. fold w1 in Hold. congruence. }
  exists w'. split; [now rewrite Hmove|]. split; [exact Hnone|]. split.
  - now apply GetContent_missing.
  - apply Stat_missing; [now apply validPath_not_root | exact Hnone].
Qed.


End MoveProps.

(** ** The parent rows *)

Module InvariantProps.
Import path plusDriver sql SqlFacts DrvFacts PathFacts Tree SwiftFacts
       DeleteFileProps PutProps MoveProps Mutation.

Lemma parentsPresent_intro (t : list fileInfo) :
  (forall r, In r t ->
     DirName r = "/" \/ hasFile (Dir (DirName r)) (Base (DirName r)) t = true) ->
  parentsPresent t = true.
Proof.
  intros H. unfold parentsPresent. apply forallb_forall. intros r Hr.
  apply orb_true_iff. destruct (H r Hr) as [E|E]; [left|right].
  - now apply String.eqb_eq. - exact E.
Qed.

Lemma parentsPresent_elim (t : list fileInfo) (r : fileInfo) :
  parentsPresent t = true -> In r t ->
  DirName r = "/" \/ hasFile (Dir (DirName r)) (Base (DirName r)) t = true.
Proof.
  unfold parentsPresent. rewrite forallb_forall. intros H Hr.
  specialize (H r Hr). apply orb_true_iff in H as [E|E]; [left|right].
  - now apply String.eqb_eq. - exact E.
Qed.

Lemma covered_inv (t : list fileInfo) (d : string) :
  covered t d -> d <> "" ->
  d = "/" \/ hasFile (Dir d) (Base d) t = true.
Proof.
  intros H Hne. destruct H as [d E|d E _].
  - apply orb_true_iff in E as [E|E]; apply String.eqb_eq in E; [now left | congruence].
  - now right.
Qed.

Lemma hasFile_upsert_mono (d b : string) (fi : fileInfo) (t : list fileInfo) :
  hasFile d b t = true -> hasFile d b (upsertFile fi t) = true.
Proof.
  intros H. apply hasFile_select in H as [x Hx]. apply hasFile_select.
  rewrite selectFile_upsert. destruct (keyEq d b fi); eauto.
Qed.

Lemma isMarker_marker (d b : string) (w : world) : isMarker (marker d b w) = true.
Proof. reflexivity. Qed.

(** What a successful [writeFileInfo] does to the table. *)
Lemma writeFileInfo_effect (fuel : nat) (fi : fileInfo) (w w' : world) :
  writeFileInfo fuel fi w = (Ok tt, w') -> DirName fi <> "" ->
  (parentsPresent (files w) = true -> parentsPresent (files w') = true)
  /\ (forall d b, ~ (d = DirName fi /\ b = BaseName fi) ->
        match selectFile d b (files w) with
        | Some x => selectFile d b (files w') = Some x
        | None => forall x, selectFile d b (files w') = Some x -> isMarker x = true
        end).
Proof.
  rewrite writeFileInfo_unfold. intros H Hne.
  destruct (stamped_names fi w) as (Hd & Hb & _).
  set (w1 := setFiles _ _ w) in H.
  split.
  - intros Hinv. apply parentsPresent_intro. intros r Hr.
    destruct (mkdirAll_In _ _ _ _ _ H Hr) as [Hr1|(_ & Hn & Hc)].
    + unfold w1 in Hr1. cbn [files setFiles] in Hr1.
      apply In_upsert in Hr1 as [->|Hr0].
      * rewrite Hd. apply covered_inv; [|exact Hne].
        exact (mkdirAll_covered _ _ _ _ H).
      * destruct (parentsPresent_elim _ _ Hinv Hr0) as [?|Hh]; [now left|].
        right. eapply hasFile_mono_mkdirAll; [exact H|].
        unfold w1. cbn [files setFiles]. now apply hasFile_upsert_mono.
    + now apply covered_inv.
  - intros d b Hk.
    assert (Hsame : selectFile d b (files w1) = selectFile d b (files w)).
    { unfold w1. cbn [files setFiles]. rewrite selectFile_upsert.
      assert (keyEq d b (stamped fi w) = false) as ->; [|reflexivity].
      apply keyEq_false. rewrite Hd, Hb. intros [<- <-]. now apply Hk. }
    destruct (selectFile d b (files w)) as [x|] eqn:E.
    + eapply mkdirAll_select_old; [exact H | exact Hsame].
    + intros x Hx.
      destruct (mkdirAll_select_new _ _ _ _ _ _ _ _ H Hx) as [Hold| ->];
        [congruence | reflexivity].
Qed.

Lemma PutContent_putStore (fuel : nat) (p : string) (content : list byte) (w : world) :
  exists wa,
    PutContent fuel p content w = putStore fuel p content wa
    /\ files wa = files w /\ entropy wa = entropy w
    /\ swiftModel.writeCalls (swift wa) = swiftModel.writeCalls (swift w).
Proof.
  rewrite PutContent_split. unfold bind at 1.
  destruct (selectFile (Dir p) (Base p) (files w)) as [row|] eqn:E.
  - rewrite (readFileInfo_found _ _ _ E). cbn beta iota. unfold bind at 1.
    destruct (deleteBlobs_frame row w) as (wa & Hd & Hf & _ & _ & He & _ & _ & Hc).
    rewrite Hd. exists wa. auto.
  - rewrite (readFileInfo_missing _ _ E). cbn beta iota.
    unfold bind at 1, ret at 1. exists w. auto.
Qed.

Lemma putStore_writes (fuel : nat) (p : string) (content : list byte) (w w' : world) :
  putStore fuel p content w = (Ok tt, w') ->
  exists fi wb wc,
    files wb = files w /\ DirName fi = Dir p /\ BaseName fi = Base p
    /\ writeFileInfo fuel fi wb = (Ok tt, wc) /\ files w' = files wc.
Proof.
  unfold putStore. cbv zeta. intros H.
  destruct (maxInlineSizeBytes <? List.length content)%nat.
  - unfold bind at 1 in H. unfold plusRandLocation in H.
    destruct (List.length (entropy w) <? 8)%nat; [discriminate|].
    cbn beta iota in H. unfold bind at 1 in H.
    match type of H with
    | context [writeFileInfo fuel ?f ?v] =>
        destruct (writeFileInfo fuel f v) as [[[]| |] wc] eqn:Hw;
        [|discriminate|discriminate]; exists f, v, wc
    end.
    cbn [negb] in H.
    unfold bind, swiftObjectName, gets, mapErr, swiftModel.Write, ret in H.
    cbn beta iota in H. injection H as <-. repeat split; exact Hw.
  - unfold bind at 1, ret at 1 in H. cbn beta iota in H. unfold bind at 1 in H.
    match type of H with
    | context [writeFileInfo fuel ?f ?v] =>
        destruct (writeFileInfo fuel f v) as [[[]| |] wc] eqn:Hw;
        [|discriminate|discriminate]; exists f, v, wc
    end.
    cbn [negb] in H. unfold ret in H. injection H as <-. repeat split; exact Hw.
Qed.

Lemma wellFormed_row (t : list fileInfo) (r : fileInfo) :
  wellFormed t = true -> In r t ->
  validDir (DirName r) = true /\ validElem (BaseName r) = true.
Proof.
  unfold wellFormed. intros H Hr. apply andb_true_iff in H as [H _].
  rewrite forallb_forall in H. specialize (H r Hr).
  unfold wellFormedRow in H. now apply andb_true_iff in H.
Qed.

Lemma List_empty_inv (p : string) (w : world) :
  List p w = (Ok [], w) -> selectChildren p (files w) = [].
Proof.
  unfold List, bind, gets, ret. cbn beta iota. intros [= H].
  now apply map_eq_nil in H.
Qed.

Lemma Move_missing_source (fuel : nat) (src dst : string) (w : world) :
  recordAt w src = None ->
  Move fuel src dst w = (Err (PathNotFoundError src), w).
Proof.
  unfold recordAt. intros H. unfold Move. unfold bind at 1.
  now rewrite (readFileInfo_missing _ _ H).
Qed.

Lemma Move_effect (fuel : nat) (src dst : string) (w w' : world) :
  validPath src = true -> wellFormed (files w) = true ->
  List src w = (Ok [], w) -> recordAt w dst = None ->
  Move fuel src dst w = (Ok tt, w') ->
  (parentsPresent (files w) = true -> parentsPresent (files w') = true)
  /\ (forall d b, ~ (d = Dir src /\ b = Base src) -> ~ (d = Dir dst /\ b = Base dst) ->
        match selectFile d b (files w) with
        | Some x => selectFile d b (files w') = Some x
        | None => forall x, selectFile d b (files w') = Some x -> isMarker x = true
        end).
Proof.
  intros Hsrc Hwf Hlist Hfree Hrun.
  apply List_empty_inv in Hlist.
  destruct (recordAt w src) as [row|] eqn:Hrow.
  2:{ rewrite (Move_missing_source _ _ _ _ Hrow) in Hrun. discriminate. }
  rewrite (Move_onto_free_path fuel _ _ _ _ Hrow Hfree) in Hrun.
  set (w1 := setFiles _ _ w) in Hrun.
  split.
  - intros Hinv. apply parentsPresent_intro. intros r Hr.
    destruct (mkdirAll_In _ _ _ _ _ Hrun Hr) as [Hr1|(_ & Hn & Hc)];
      [|now apply covered_inv].
    unfold w1 in Hr1. cbn [files setFiles] in Hr1.
    apply In_rekey in Hr1 as [[Hr0 Hk]|(x & _ & _ & ->)].
    + destruct (parentsPresent_elim _ _ Hinv Hr0) as [?|Hh]; [now left|].
      right. eapply hasFile_mono_mkdirAll; [exact Hrun|].
      apply hasFile_In in Hh as (y & Hy & Hyd & Hyb).
      apply hasFile_In. exists y. split; [|now split].
      unfold w1. cbn [files setFiles]. apply in_map_iff. exists y.
      split; [|exact Hy].
      assert (keyEq (Dir src) (Base src) y = false) as ->; [|reflexivity].
      apply keyEq_false. intros [E1 E2].
      destruct (wellFormed_row _ _ Hwf Hr0) as [Hvd _].
      destruct (validDir_cases _ Hvd) as [Hroot|Hvp].
      * rewrite Hroot in Hyd. cbn in Hyd.
        pose proof (validPath_Dir_length src Hsrc) as Hl.
        assert (Dir src = "/") by congruence.
        assert (Base src = "/") by (rewrite Hroot in Hyb; cbn in Hyb; congruence).
        pose proof (validPath_Base src Hsrc) as Hb.
        rewrite H0 in Hb. discriminate.
      * assert (DirName r = src).
        { apply valid_key_inj; auto; congruence. }
        assert (Hc : In r (selectChildren src (files w))).
        { apply selectChildren_In. auto. }
        rewrite Hlist in Hc. destruct Hc.
    + cbn [rekey DirName]. apply covered_inv; [|apply Dir_nonempty].
      exact (mkdirAll_covered _ _ _ _ Hrun).
  - intros d b Hns Hnd.
    assert (Hsame : selectFile d b (files w1) = selectFile d b (files w)).
    { unfold w1. cbn [files setFiles]. now apply selectFile_rekey_other. }
    destruct (selectFile d b (files w)) as [x|] eqn:E.
    + eapply mkdirAll_select_old; [exact Hrun | exact Hsame].
    + intros x Hx.
      destruct (mkdirAll_select_new _ _ _ _ _ _ _ _ Hrun Hx) as [Hold| ->];
        [congruence | reflexivity].
Qed.

(** C8, as the code has it: a successful put or writer commit keeps the
    parent rows complete, and so does a move of a record without children
    onto a free path in a well-formed table.  Apart from the rows the
    operation writes or moves, rows that were there stay as they are and
    new rows are directory markers of size -1. *)
Theorem mutations_keep_parent_rows
  (fuel : nat) (m : mutation) (w w' : world) :
  parentsPresent (files w) = true ->
  leavesNoOrphans m w ->
  run fuel m w = (Ok tt, w') ->
  parentsPresent (files w') = true
  /\ (forall d b, ~ isTarget m d b ->
        match selectFile d b (files w) with
        | Some x => selectFile d b (files w') = Some x
        | None => forall x, selectFile d b (files w') = Some x -> isMarker x = true
        end).
Proof.
  intros Hinv Hside Hrun. destruct m as [p c|wr|src dst]; cbn [run] in Hrun.
  - destruct (PutContent_putStore fuel p c w) as (wa & Hput & Hfa & _).
    rewrite Hput in Hrun.
    destruct (putStore_writes _ _ _ _ _ Hrun) as (fi & wb & wc & Hfb & Hd & Hb & Hw & Hfc).
    destruct (writeFileInfo_effect _ _ _ _ Hw) as [H1 H2].
    { rewrite Hd. apply Dir_nonempty. }
    rewrite Hfc. rewrite Hfb, Hfa in H1, H2. split; [now apply H1|].
    intros d b Ht. apply H2. intros [E1 E2]. apply Ht.
    exists p. split; [now left|]. split; congruence.
  - unfold plusWriter.Commit in Hrun.
    destruct (plusWriter.closed wr); [discriminate|].
    destruct (plusWriter.cancelled wr); [discriminate|].
    destruct (plusWriter.committed wr); [discriminate|].
    unfold bind at 1 in Hrun. unfold swiftObjectName, gets in Hrun.
    unfold bind at 1 in Hrun. unfold swiftModel.WriteSLO in Hrun.
    match type of Hrun with
    | context [writeFileInfo fuel ?f ?v] =>
        destruct (writeFileInfo fuel f v) as [[[]| |] wc] eqn:Hw;
        [|discriminate|discriminate]
    end.
    injection Hrun as <-.
    destruct (writeFileInfo_effect _ _ _ _ Hw) as [H1 H2].
    { cbn [DirName]. apply Dir_nonempty. }
    cbn [files setSwift DirName BaseName] in H1, H2. split; [now apply H1|].
    intros d b Ht. apply H2. intros [E1 E2]. apply Ht.
    exists (plusWriter.fullPath wr). split; [now left|]. now split.
  - destruct Hside as (Hsrc & Hwf & Hlist & Hfree).
    destruct (Move_effect _ _ _ _ _ Hsrc Hwf Hlist Hfree Hrun) as [H1 H2].
    split; [now apply H1|].
    intros d b Ht. apply H2.
    + intros [E1 E2]. apply Ht. exists src. split; [now left | now split].
    + intros [E1 E2]. apply Ht. exists dst. split; [right; now left | now split].
Qed.

(** C8 as stated fails: the move of a directory with a child succeeds and
    leaves the child without a row for its directory. *)
Lemma Move_directory_breaks_parent_rows :
  parentsPresent (files Sample.dirWithFile) = true
  /\ fst (Move 8 "/a" "/b" Sample.dirWithFile) = Ok tt
  /\ parentsPresent (files (snd (Move 8 "/a" "/b" Sample.dirWithFile))) = false.
Proof. split; [|split]; vm_compute; reflexivity. Qed.

End InvariantProps.

(** ** The writer after Cancel, Commit and Close *)

Module WriterProps.
Import path plusDriver plusWriter.

(** Write looks at no flag of the writer: whatever a writer has reached,
    the errors of Write are those of the upload and of the INSERT. *)
Lemma Write_never_reports_state (buf : list byte) (wr : plusWriter) (st : world) :
  fst (fst (Write buf wr st)) <> Err errCancelled
  /\ fst (fst (Write buf wr st)) <> Err errClosed
  /\ fst (fst (Write buf wr st)) <> Err errCommitted.
Proof.
  unfold Write, swiftModel.Write, execInsertSegment, sql.insertSegment.
  cbn beta iota.
  match goal with
  | |- context [if ?c then _ else _] => destruct c
  end; [cbn; repeat split; discriminate|].
  match goal with
  | |- context [if ?c then _ else _] => destruct c
  end; cbn; repeat split; discriminate.
Qed.

(** Cancel looks at the closed flag only: on a writer that is already
    cancelled or committed it runs Delete again and returns its result. *)
Lemma Cancel_checks_closed_only (fuel : nat) (wr : plusWriter) (st : world) :
  closed wr = false ->
  fst (fst (Cancel fuel wr st)) = fst (Delete fuel (fullPath wr) st).
Proof.
  intros H. unfold Cancel. rewrite H.
  now destruct (Delete fuel (fullPath wr) st).
Qed.

(** No method assigns the closed flag. *)
Lemma closed_is_never_set (fuel : nat) (buf : list byte) (wr : plusWriter) (st : world) :
  closed wr = false ->
  closed (snd (fst (Write buf wr st))) = false
  /\ closed (snd (fst (Commit fuel wr st))) = false
  /\ closed (snd (fst (Cancel fuel wr st))) = false
  /\ closed (snd (fst (Close fuel wr st))) = false.
Proof.
  intros H.
  assert (Hcommit : closed (snd (fst (Commit fuel wr st))) = false).
  { unfold Commit. rewrite H.
    destruct (cancelled wr); [exact H|]. destruct (committed wr); [exact H|].
    match goal with
    | |- context [match ?m with _ => _ end] => destruct m as [[[]| |] st1]
    end; exact H. }
  split; [|split; [exact Hcommit|split]].
  - unfold Write, swiftModel.Write. cbn beta iota.
    match goal with
    | |- context [match ?m with _ => _ end] => destruct m as [[[]| |] st2]
    end; exact H.
  - unfold Cancel. rewrite H.
    destruct (Delete fuel (fullPath wr) st). exact H.
  - unfold Close. rewrite H.
    destruct (negb (committed wr) && negb (cancelled wr)); [exact Hcommit | exact H].
Qed.

(** C2 on the code: a writer that wrote once and was cancelled accepts a
    second Cancel without error, and its next Write is not refused as
    cancelled (it runs and fails on the duplicate segment number only);
    a committed writer accepts Write, Cancel and Close.  Commit alone
    reports the state reached. *)
Theorem writer_after_terminal_state :
  let wr := fst Sample.cancelledWriter in
  let st := snd Sample.cancelledWriter in
  let wc := fst Sample.committedWriter in
  let sc := snd Sample.committedWriter in
  cancelled wr = true /\ closed wr = false
  /\ fst (fst (Cancel 4 wr st)) = Ok tt
  /\ fst (fst (Write Sample.hello wr st)) = Err ErrUniqueViolation
  /\ fst (fst (Commit 12 wr st)) = Err errCancelled
  /\ committed wc = true /\ closed wc = false
  /\ fst (fst (Write Sample.hello wc sc)) = Ok 5%Z
  /\ fst (fst (Cancel 4 wc sc)) = Ok tt
  /\ fst (fst (Close 12 wc sc)) = Ok tt
  /\ fst (fst (Commit 12 wc sc)) = Err errCommitted.
Proof. vm_compute. repeat split. Qed.

End WriterProps.

(** ** Appending to a file in the object store *)

Module AppendProps.
Import path plusDriver plusWriter sql SqlFacts DrvFacts PathFacts Tree SwiftFacts
       StrFacts PutProps MoveProps WriterAux.

Lemma wrapI64_small (z : Z) : (0 <= z < 2 ^ 63)%Z -> Enc.wrapI64 z = z.
Proof.
  intros H. unfold Enc.wrapI64. rewrite Z.mod_small; lia.
Qed.

Lemma prependPrefix_content (prefix loc : string) :
  Str.noSlash loc = true -> loc <> "" ->
  prependPrefix prefix (loc +++ "/content") = prependPrefix prefix loc +++ "/content".
Proof.
  intros Hn Hne. unfold prependPrefix.
  change (loc +++ "/content") with (loc +++ "/" +++ "content").
  rewrite (Trim_noSlash loc Hn).
  rewrite (Trim_noSlash_suffix loc "content" Hn Hne eq_refl) by discriminate.
  destruct prefix; [reflexivity|].
  now rewrite !append_assoc.
Qed.

Lemma hexDigit_noSlash (n : N) : Str.isSlash (Enc.hexDigit n) = false.
Proof.
  destruct n as [|p]; [reflexivity|].
  do 5 (try destruct p as [p|p|]); reflexivity.
Qed.

Lemma hexEncode_noSlash (bs : list byte) : Str.noSlash (Enc.hexEncode bs) = true.
Proof.
  induction bs as [|b bs IH]; [reflexivity|].
  cbn [Enc.hexEncode Str.noSlash]. now rewrite !hexDigit_noSlash, IH.
Qed.

(** A location chosen by [plusRandLocation] is not empty and has no slash. *)
Lemma plusRandLocation_location (w w' : world) (loc : string) :
  plusRandLocation w = (Ok loc, w') -> Str.noSlash loc = true /\ loc <> "".
Proof.
  unfold plusRandLocation.
  destruct (Nat.ltb_spec (List.length (entropy w)) 8) as [|Hlen]; [discriminate|].
  intros [= <- _]. split; [apply hexEncode_noSlash|].
  destruct (entropy w) as [|b bs]; [cbn in Hlen; lia | discriminate].
Qed.

Lemma newPlusWriter_append (fuel : nat) (p : string) (w : world) (fi : fileInfo) :
  recordAt w p = Some fi -> Location fi <> "" ->
  newPlusWriter fuel p true w
  = (Ok (mkWriter false false false p (Location fi)
           (map (segmentOf (ObjectPrefix (swift w)) (Location fi))
                (selectSegments (Location fi) (segmentRows w)))), w).
Proof.
  unfold recordAt. intros Hrec Hloc. unfold newPlusWriter. unfold bind at 1.
  rewrite (readFileInfo_found _ _ _ Hrec). cbn beta iota.
  unfold bind, ret, readSegmentInfo. cbn [isErrNoRows negb andb orb].
  apply String.eqb_neq in Hloc. rewrite Hloc. cbn beta iota.
  rewrite Hloc. reflexivity.
Qed.

Lemma Write_ok (buf : list byte) (wr : plusWriter) (st : world) :
  (nextNumber wr <= 2147483647)%Z ->
  (forall r, In r (segmentRows st) ->
             ~ (rowLocation r = location wr /\ rowNumber r = nextNumber wr)) ->
  let name := segmentName st (location wr) (nextNumber wr) in
  let s := seg.mkSegment (ObjectPrefix (swift st)) (location wr) (nextNumber wr)
             (Z.of_nat (List.length buf)) (swiftModel.etag buf) in
  let row := mkSegmentRow (location wr) (nextNumber wr)
               (Z.of_nat (List.length buf)) (swiftModel.etag buf) in
  Write buf wr st
  = (Ok (Z.of_nat (List.length buf)),
     setSegments (segments wr ++ [s]) wr,
     setSegmentRows (segmentRows st ++ [row]) (StInsertSegment row)
       (setSwift (swiftModel.record (CallWrite name buf)
                    (swiftModel.put name (Blob buf) (objects (swift st)))
                    (swift st)) st)).
Proof.
  intros Hrange Hfresh name s row.
  unfold Write. fold (nextNumber wr). unfold swiftModel.Write.
  cbn beta iota. unfold execInsertSegment, insertSegment.
  cbn [seg.Prefix seg.Location seg.Number seg.SizeBytes seg.Hash
       rowLocation rowNumber segmentRows setSwift].
  destruct (Z.ltb_spec 2147483647 (nextNumber wr)); [lia|].
  destruct (existsb _ (segmentRows st)) eqn:E.
  - apply existsb_exists in E as (r & Hr & Hk). exfalso.
    apply (Hfresh r Hr). unfold segKeyEq in Hk.
    apply andb_true_iff in Hk as [H1 H2].
    apply String.eqb_eq in H1. apply Z.eqb_eq in H2. now split.
  - reflexivity.
Qed.

Lemma Commit_ok (fuel : nat) (wr : plusWriter) (st : world) :
  closed wr = false -> cancelled wr = false -> committed wr = false ->
  validPath (fullPath wr) = true -> String.length (fullPath wr) <= fuel ->
  let name := manifestName st (location wr) in
  let names := map segmentObjectPath (segments wr) in
  exists st',
    Commit fuel wr st = (Ok tt, setCommitted wr, st')
    /\ recordAt st' (fullPath wr)
       = Some (mkFileInfo (Dir (fullPath wr)) (Base (fullPath wr)) (Size wr)
                          (now st) [] (location wr))
    /\ swift st'
       = swiftModel.record (CallWriteSLO name names)
           (swiftModel.put name (SLO names) (objects (swift st))) (swift st)
    /\ segmentRows st' = segmentRows st.
Proof.
  intros Hc1 Hc2 Hc3 Hp Hfuel name names.
  unfold Commit. rewrite Hc1, Hc2, Hc3.
  unfold bind at 1. unfold swiftObjectName, gets.
  unfold bind at 1. unfold swiftModel.WriteSLO.
  set (fi := mkFileInfo _ _ (Size wr) zeroTime [] (location wr)).
  set (st1 := setSwift _ st).
  destruct (writeFileInfo_total fuel fi st1) as (st' & Hw).
  { now apply validPath_Dir. }
  { pose proof (validPath_Dir_length _ Hp). cbn. lia. }
  rewrite Hw.
  destruct (writeFileInfo_stored _ _ _ _ _ Hw) as (Hs & Hseg & Hsw & _).
  exists st'. split; [reflexivity|]. split; [exact Hs|]. split.
  - rewrite Hsw. reflexivity.
  - rewrite Hseg. reflexivity.
Qed.

Lemma segmentName_inj (w : world) (loc : string) (n m : Z) :
  segmentName w loc n = segmentName w loc m ->
  Enc.Sprintf016d (Enc.wrapI64 n) = Enc.Sprintf016d (Enc.wrapI64 m).
Proof.
  unfold segmentName. intros H.
  apply append_inv_head in H. now apply append_inv_head in H.
Qed.

Lemma segmentName_not_manifest (w : world) (loc : string) (n : Z) :
  Str.noSlash loc = true -> loc <> "" ->
  Enc.Sprintf016d (Enc.wrapI64 n) <> "content" ->
  segmentName w loc n <> manifestName w loc.
Proof.
  intros Hn Hne Hd H. unfold segmentName, manifestName in H.
  rewrite prependPrefix_content in H by assumption.
  apply append_inv_head in H. apply Hd.
  change "/content" with ("/" +++ "content") in H.
  now apply append_inv_head in H.
Qed.

Lemma blobOf_put_other (objs : list (string * object)) (name name' : string)
  (o : object) :
  name' <> name ->
  swiftModel.blobOf (swiftModel.put name o objs) name' = swiftModel.blobOf objs name'.
Proof.
  intros H. unfold swiftModel.blobOf. now rewrite lookup_put_other.
Qed.

Lemma blobOf_put_same (objs : list (string * object)) (name : string)
  (d : list byte) :
  swiftModel.blobOf (swiftModel.put name (Blob d) objs) name = Some d.
Proof. unfold swiftModel.blobOf. now rewrite lookup_put_same. Qed.

(** C4: a file in the object store whose segments are numbered 1 and 2 is
    opened for appending.  Two writes add the segment rows 3 and 4 for the
    same location, and after the commit a get returns the bytes of the
    segments 1 to 4 in this order: the original bytes, then both chunks. *)
Theorem append_continues_numbering
  (fuel : nat) (p : string) (w : world) (fi : fileInfo) (r1 r2 : segmentRow)
  (b1 b2 c1 c2 : list byte) :
  validPath p = true -> String.length p <= fuel ->
  recordAt w p = Some fi -> IsDir fi = false ->
  Str.noSlash (Location fi) = true -> Location fi <> "" ->
  selectSegments (Location fi) (segmentRows w) = [r1; r2] ->
  rowNumber r1 = 1%Z -> rowNumber r2 = 2%Z ->
  rowSizeBytes r1 = Z.of_nat (List.length b1) ->
  rowSizeBytes r2 = Z.of_nat (List.length b2) ->
  swiftModel.blobOf (objects (swift w)) (segmentName w (Location fi) 1) = Some b1 ->
  swiftModel.blobOf (objects (swift w)) (segmentName w (Location fi) 2) = Some b2 ->
  fst (GetContent p w) = Ok (b1 ++ b2) ->
  (Z.of_nat (List.length (b1 ++ b2 ++ c1 ++ c2)) < 2 ^ 63)%Z ->
  exists wr0 wr1 w1 wr2 w2 wr3 w3,
    newPlusWriter fuel p true w = (Ok wr0, w)
    /\ Write c1 wr0 w = (Ok (Z.of_nat (List.length c1)), wr1, w1)
    /\ Write c2 wr1 w1 = (Ok (Z.of_nat (List.length c2)), wr2, w2)
    /\ segmentRows w2
       = segmentRows w
         ++ [mkSegmentRow (Location fi) 3 (Z.of_nat (List.length c1)) (swiftModel.etag c1);
             mkSegmentRow (Location fi) 4 (Z.of_nat (List.length c2)) (swiftModel.etag c2)]
    /\ Commit fuel wr2 w2 = (Ok tt, wr3, w3)
    /\ fst (GetContent p w3) = Ok (b1 ++ b2 ++ c1 ++ c2).
Proof.
  intros Hp Hfuel Hrec Hfile Hns Hloc Hsegs Hn1 Hn2 Hs1 Hs2 Hb1 Hb2 _ Hsize.
  set (loc := Location fi) in *.
  pose proof (newPlusWriter_append fuel p w fi Hrec Hloc) as Hnew.
  fold loc in Hnew. rewrite Hsegs in Hnew. cbn [map] in Hnew.
  set (wr0 := mkWriter _ _ _ _ _ _) in Hnew.
  assert (Hrows : forall r, In r (segmentRows w) -> rowLocation r = loc ->
                            rowNumber r = 1%Z \/ rowNumber r = 2%Z).
  { intros r Hr Hl.
    assert (Hin : In r (selectSegments loc (segmentRows w)))
      by (apply In_selectSegments; auto).
    rewrite Hsegs in Hin. destruct Hin as [<-|[<-|[]]]; auto. }
  (* first write *)
  assert (Hnext0 : nextNumber wr0 = 3%Z).
  { unfold nextNumber, wr0. cbn. rewrite Hn2. reflexivity. }
  pose proof (Write_ok c1 wr0 w) as Hw1. rewrite Hnext0 in Hw1.
  cbv zeta in Hw1. cbn [location wr0] in Hw1.
  specialize (Hw1 ltac:(lia)).
  assert (Hfresh1 : forall r, In r (segmentRows w) ->
                              ~ (rowLocation r = loc /\ rowNumber r = 3%Z)).
  { intros r Hr [Hl Hn]. destruct (Hrows r Hr Hl); lia. }
  specialize (Hw1 Hfresh1).
  set (wr1 := setSegments _ wr0) in Hw1.
  set (w1 := setSegmentRows _ _ _) in Hw1.
  (* second write *)
  assert (Hnext1 : nextNumber wr1 = 4%Z).
  { unfold nextNumber, wr1, wr0. cbn. reflexivity. }
  pose proof (Write_ok c2 wr1 w1) as Hw2. rewrite Hnext1 in Hw2.
  cbv zeta in Hw2. cbn [location wr1 wr0 setSegments] in Hw2.
  specialize (Hw2 ltac:(lia)).
  assert (Hfresh2 : forall r, In r (segmentRows w1) ->
                              ~ (rowLocation r = loc /\ rowNumber r = 4%Z)).
  { intros r Hr [Hl Hn]. unfold w1 in Hr. cbn [segmentRows setSegmentRows] in Hr.
    apply in_app_iff in Hr as [Hr|[<-|[]]].
    - destruct (Hrows r Hr Hl); lia.
    - cbn in Hn. lia. }
  specialize (Hw2 Hfresh2).
  set (wr2 := setSegments _ wr1) in Hw2.
  set (w2 := setSegmentRows _ _ _) in Hw2.
  (* commit *)
  destruct (Commit_ok fuel wr2 w2) as (w3 & Hcommit & Hrec3 & Hsw3 & _);
    try reflexivity; try assumption.
  exists wr0, wr1, w1, wr2, w2, (setCommitted wr2), w3.
  split; [exact Hnew|]. split; [exact Hw1|]. split; [exact Hw2|].
  split; [unfold w2, w1; cbn [segmentRows setSegmentRows setSwift];
          now rewrite <- app_assoc|].
  split; [exact Hcommit|].
  (* the content after the commit *)
  cbn [fullPath wr2 wr1 wr0 setSegments location] in Hrec3.
  rewrite (GetContent_outcome _ _ _ Hrec3).
  unfold IsDir, ObjectPath. cbn [SizeBytes Contents Location List.length Nat.ltb Nat.leb].
  rewrite !length_app in Hsize.
  assert (Htotal : Size wr2
                   = Z.of_nat (List.length b1 + (List.length b2
                                + (List.length c1 + List.length c2)))).
  { unfold Size, wr2, wr1, wr0, segmentOf.
    cbn [segments setSegments app fold_left seg.SizeBytes].
    rewrite Hs1, Hs2.
    rewrite (wrapI64_small (Z.of_nat (List.length b1))) by lia.
    rewrite (wrapI64_small (Z.of_nat (List.length b2))) by lia.
    rewrite (wrapI64_small (Z.of_nat (List.length c1))) by lia.
    rewrite (wrapI64_small (Z.of_nat (List.length c2))) by lia.
    rewrite (wrapI64_small (0 + _)) by lia.
    rewrite (wrapI64_small (0 + _ + _)) by lia.
    rewrite (wrapI64_small (0 + _ + _ + _)) by lia.
    rewrite (wrapI64_small (0 + _ + _ + _ + _)) by lia.
    lia. }
  rewrite Htotal.
  destruct (Z.ltb_spec (Z.of_nat (List.length b1 + (List.length b2
              + (List.length c1 + List.length c2)))) 0); [lia|].
  destruct (Z.eqb_spec (Z.of_nat (List.length b1 + (List.length b2
              + (List.length c1 + List.length c2)))) 0) as [Hz|Hz].
  { destruct b1, b2, c1, c2; cbn in Hz; try lia. reflexivity. }
  rewrite Hsw3. cbn [objects ObjectPrefix swiftModel.record].
  fold (manifestName w2 loc).
  unfold swiftModel.content. rewrite lookup_put_same.
  change (manifestName w2 (location wr2)) with (manifestName w loc).
  assert (Hnames : map segmentObjectPath (segments wr2)
                   = [segmentName w loc 1; segmentName w loc 2;
                      segmentName w loc 3; segmentName w loc 4]).
  { unfold wr2, wr1, wr0. cbn [segments setSegments app map].
    unfold segmentObjectPath, segmentOf, segmentName.
    cbn [seg.Prefix seg.Location seg.Number]. rewrite Hn1, Hn2. reflexivity. }
  rewrite Hnames.
  assert (Hd : forall n m, Enc.Sprintf016d (Enc.wrapI64 n) <> Enc.Sprintf016d (Enc.wrapI64 m) ->
                           segmentName w loc n <> segmentName w loc m).
  { intros n m Hne Heq. apply Hne. now apply segmentName_inj in Heq. }
  assert (Hdm : forall n, Enc.Sprintf016d (Enc.wrapI64 n) <> "content" ->
                          segmentName w loc n <> manifestName w loc).
  { intros n Hne. now apply segmentName_not_manifest. }
  unfold w2. change (segmentName w1 loc 4) with (segmentName w loc 4).
  unfold w1. cbn [swift setSegmentRows setSwift objects swiftModel.record].
  cbn [swiftModel.gather].
  repeat first
    [ rewrite blobOf_put_same
    | rewrite blobOf_put_other
        by (apply Hd || apply Hdm; vm_compute; discriminate) ].
  rewrite Hb1, Hb2. now rewrite app_nil_r.
Qed.

End AppendProps.

(** ** Deleting a directory *)

Module SubtreeProps.
Import path plusDriver sql SqlFacts DrvFacts PathFacts Tree SwiftFacts
       DeleteFileProps PutProps MoveProps InvariantProps.







Lemma wellFormed_key_of_Path (t : list fileInfo) (r : fileInfo) :
  wellFormed t = true -> In r t ->
  Dir (Path r) = DirName r /\ Base (Path r) = BaseName r /\ Path r <> "/".
Proof.
  intros Hwf Hr. destruct (wellFormed_row _ _ Hwf Hr) as [Hd Hb].
  unfold Path. rewrite Dir_Join, Base_Join by assumption.
  repeat split. apply validPath_not_root. now apply Join_valid.
Qed.



Lemma objectsShrink_refl (w : world) : objectsShrink w w.
Proof. intros e He. exact He. Qed.




Section Descent.

Variable w0 : world.
Hypothesis Hwf : wellFormed (files w0) = true.



End Descent.




(** In a tree-shaped table the rows reached from a directory are all the
    rows whose path lies below the path of the directory. *)
Lemma rows_under_directory_are_below (t : list fileInfo) (dir r : fileInfo) :
  wellFormed t = true -> treeShaped t = true ->
  IsDir dir = true -> In r t ->
  ancestorOf (Path dir) (Path r) -> below t dir r.
Proof.
  intros Hwf Htree Hdir Hr Ha.
  remember (Path dir) as a eqn:Ea. remember (Path r) as q eqn:Eq.
  revert r Hr Eq. induction Ha as [q E|a q E Ha IH]; intros r Hr Eq; subst q.
  - destruct (wellFormed_key_of_Path _ _ Hwf Hr) as (Hd & _).
    apply (below_child _ _ dir); [apply below_self | exact Hdir | exact Hr|].
    congruence.
  - destruct (wellFormed_key_of_Path _ _ Hwf Hr) as (Hd & _).
    rewrite Hd in Ha, IH.
    unfold treeShaped in Htree. rewrite forallb_forall in Htree.
    specialize (Htree r Hr). apply orb_true_iff in Htree as [Hroot|Hpar].
    + apply String.eqb_eq in Hroot. rewrite Hroot in Ha.
      inversion Ha; discriminate.
    + apply existsb_exists in Hpar as (x & Hx & Hxp).
      apply andb_true_iff in Hxp as [Hxd Hxp]. apply String.eqb_eq in Hxp.
      apply (below_child _ _ x); [|exact Hxd | exact Hr | now symmetry].
      apply (IH Ea); [exact Hx | now symmetry].
Qed.



End SubtreeProps.
(** ** Directories *)

Module RelativeFacts.
Import Str StrFacts path PathFacts.

(** What [cleanElems] keeps: elements that are not empty and have no
    slash. *)
Lemma cleanElems_kept (r : bool) (elems stack : list string) :
  Forall (fun e => noSlash e = true) elems ->
  Forall (fun e => e <> "" /\ noSlash e = true) stack ->
  Forall (fun e => e <> "" /\ noSlash e = true) (cleanElems r stack elems).
Proof.
  revert stack. induction elems as [|e es IH]; intros stack He Hs.
  - cbn [cleanElems]. now apply Forall_rev.
  - inversion He as [|? ? He1 He2]; subst. cbn [cleanElems].
    destruct (String.eqb_spec e "") as [->|Hne]; [cbn [orb]; now apply IH|].
    destruct (String.eqb_spec e ".") as [->|Hd]; [cbn [orb]; now apply IH|].
    cbn [orb].
    assert (Hpush : Forall (fun e => e <> "" /\ noSlash e = true) (e :: stack))
      by (constructor; auto).
    destruct (String.eqb_spec e "..") as [->|Hdd]; [|now apply IH].
    destruct stack as [|t rest].
    + destruct r; apply IH; auto.
    + destruct (t =? ".."); apply IH; auto. now inversion Hs.
Qed.

Lemma isRooted_concat (l : list string) :
  Forall (fun e => e <> "" /\ noSlash e = true) l ->
  isRooted (String.concat "/" l) = false.
Proof.
  intros H. destruct l as [|x xs]; [reflexivity|].
  inversion H as [|? ? [Hne Hns] _]; subst.
  destruct x as [|c x]; [congruence|].
  cbn [noSlash] in Hns. apply andb_true_iff in Hns as [Hc _].
  apply negb_true_iff in Hc.
  destruct xs; cbn [String.concat String.append isRooted]; exact Hc.
Qed.

Lemma Clean_relative (s : string) : isRooted s = false -> isRooted (Clean s) = false.
Proof.
  intros H. unfold Clean. destruct s as [|c s]; [reflexivity|].
  rewrite H. cbn [String.append].
  pose proof (cleanElems_kept false (splitSlash (String c s)) []
                (splitSlash_forall_noSlash _) (Forall_nil _)) as Hk.
  apply isRooted_concat in Hk.
  destruct (String.concat "/" _); [reflexivity | exact Hk].
Qed.

Lemma Split_fst_rooted (p : string) :
  isRooted p = false -> isRooted (fst (Split p)) = false.
Proof.
  destruct p as [|c r]; [reflexivity|]. cbn [isRooted Split]. intros Hc.
  destruct (Split r) as [[|d ds] file]; rewrite ?Hc; cbn [fst isRooted]; auto.
Qed.

Lemma Dir_stays_relative (p : string) : isRooted p = false -> isRooted (Dir p) = false.
Proof.
  intros H. unfold Dir. now apply Clean_relative, Split_fst_rooted.
Qed.

End RelativeFacts.

Module DirectoryProps.
Import path plusDriver sql SqlFacts DrvFacts PathFacts Tree SwiftFacts
       DeleteFileProps PutProps MoveProps InvariantProps RelativeFacts.

(** X8: [mkdirAll] returns only on absolute paths.  From a relative path
    that is not empty, path.Dir never leads to "/" or to the empty string,
    so the recursion has no end: the model runs out of fuel whatever the
    budget is. *)
Theorem mkdirAll_relative_path_never_returns (fuel : nat) (p : string) (w : world) :
  isRooted p = false -> p <> "" -> fst (mkdirAll fuel p w) = OutOfFuel.
Proof.
  revert p w. induction fuel as [|fuel IH]; intros p w Hr Hne; [reflexivity|].
  rewrite mkdirAll_S.
  assert (H1 : (p =? "/") = false).
  { apply String.eqb_neq. intros ->. discriminate. }
  apply String.eqb_neq in Hne. rewrite H1, Hne. cbn [orb].
  apply IH; [now apply Dir_stays_relative | apply Dir_nonempty].
Qed.

Lemma mkdirAll_outcome_any_world (fuel : nat) (p : string) (w w' : world) :
  fst (mkdirAll fuel p w) = fst (mkdirAll fuel p w').
Proof.
  revert p w w'. induction fuel as [|fuel IH]; intros p w w'; [reflexivity|].
  rewrite !mkdirAll_S. destruct ((p =? "/") || (p =? "")); [reflexivity|].
  apply IH.
Qed.

Lemma mkdirAll_covered_keeps (fuel : nat) (p : string) (w : world) :
  covered (files w) p -> files (snd (mkdirAll fuel p w)) = files w.
Proof.
  revert p w. induction fuel as [|fuel IH]; intros p w Hc; [reflexivity|].
  rewrite mkdirAll_S. destruct ((p =? "/") || (p =? "")) eqn:E; [reflexivity|].
  inversion Hc as [? Hroot|? Hhas Hup]; subst; [congruence|].
  assert (Hsame : insertIgnore (marker (Dir p) (Base p) w) (files w) = files w).
  { unfold insertIgnore. cbn [DirName BaseName marker]. now rewrite Hhas. }
  rewrite IH; cbn [files setFiles]; rewrite Hsame; [reflexivity | exact Hup].
Qed.

(** X9: [mkdirAll] is idempotent on the table: when it has returned for a
    path, running it again for the same path returns as well and leaves
    every row as it is (the INSERTs meet a conflict and do nothing). *)
Theorem mkdirAll_again_changes_no_row (fuel : nat) (p : string) (w w1 : world) :
  mkdirAll fuel p w = (Ok tt, w1) ->
  exists w2, mkdirAll fuel p w1 = (Ok tt, w2) /\ files w2 = files w1.
Proof.
  intros H. pose proof (mkdirAll_covered _ _ _ _ H) as Hc.
  pose proof (mkdirAll_outcome_any_world fuel p w1 w) as Hr.
  rewrite H in Hr. cbn [fst] in Hr.
  destruct (mkdirAll fuel p w1) as [r w2] eqn:E. cbn [fst] in Hr. subst r.
  exists w2. split; [reflexivity|].
  pose proof (mkdirAll_covered_keeps fuel p w1 Hc) as Hk.
  now rewrite E in Hk.
Qed.

End DirectoryProps.
(** ** Reading from an offset *)

Module ReaderProps.
Import path plusDriver sql SqlFacts DrvFacts PathFacts Tree SwiftFacts
       DeleteFileProps PutProps MoveProps InvariantProps AppendProps.

Lemma Reader_record (p : string) (offset : Z) (w : world) (fi : fileInfo) :
  recordAt w p = Some fi -> IsDir fi = false ->
  Reader p offset w
  = if (SizeBytes fi <? offset)%Z then (Ok [], w)
    else if Location fi =? ""
         then (Ok (if (0 <? offset)%Z
                   then if (Z.of_nat (List.length (Contents fi)) <? offset)%Z
                        then [] else skipn (Z.to_nat offset) (Contents fi)
                   else Contents fi), w)
         else mapErr (fun e => setReportedPath e (Path fi))
                (swiftModel.Reader
                   (prependPrefix (ObjectPrefix (swift w)) (ObjectPath fi)) offset) w.
Proof.
  unfold recordAt. intros Hrec Hdir. unfold Reader. unfold bind at 1.
  rewrite (readFileInfo_found _ _ _ Hrec). cbn beta iota.
  rewrite Hdir. cbn [isErrNoRows orb].
  destruct (SizeBytes fi <? offset)%Z; [reflexivity|].
  destruct (Location fi =? ""); reflexivity.
Qed.

(** X5: Reader on a path without record, or on a directory, fails with
    PathNotFoundError for the path that was asked for and changes
    nothing. *)
Theorem Reader_without_file (p : string) (offset : Z) (w : world) :
  recordAt w p = None
  \/ (exists fi, recordAt w p = Some fi /\ IsDir fi = true) ->
  Reader p offset w = (Err (PathNotFoundError p), w).
Proof.
  unfold recordAt. intros [Hrec|(fi & Hrec & Hdir)]; unfold Reader; unfold bind at 1.
  - rewrite (readFileInfo_missing _ _ Hrec). reflexivity.
  - rewrite (readFileInfo_found _ _ _ Hrec). cbn beta iota.
    rewrite Hdir. cbn [isErrNoRows orb]. reflexivity.
Qed.

(** X6: an offset beyond the size of the file yields an empty stream and
    leaves the world as it is: also for a file whose content lies in the
    object store, the store is not asked. *)
Theorem Reader_beyond_size (p : string) (offset : Z) (w : world) (fi : fileInfo) :
  recordAt w p = Some fi -> IsDir fi = false -> (SizeBytes fi < offset)%Z ->
  Reader p offset w = (Ok [], w).
Proof.
  intros Hrec Hdir Hoff. rewrite (Reader_record _ _ _ _ Hrec Hdir).
  apply Z.ltb_lt in Hoff. now rewrite Hoff.
Qed.

(** X7: after a put, Reader at an offset that is not negative delivers
    the content from this offset on, whether the content is kept in the
    table or in the object store; at or beyond the end it delivers
    nothing. *)
Theorem Reader_after_PutContent
  (fuel : nat) (p : string) (content : list byte) (offset : Z) (w : world) :
  validPath p = true -> String.length p <= fuel ->
  (maxInlineSizeBytes < List.length content -> 8 <= List.length (entropy w)) ->
  (0 <= offset)%Z ->
  exists w1,
    PutContent fuel p content w = (Ok tt, w1)
    /\ fst (Reader p offset w1) = Ok (skipn (Z.to_nat offset) content).
Proof.
  intros Hp Hfuel Hent Hoff.
  destruct (PutContent_putStore fuel p content w) as (wa & Hput & _ & Hea & _).
  rewrite Hput.
  destruct (le_lt_dec (List.length content) maxInlineSizeBytes) as [Hsmall|Hbig].
  - destruct (putStore_inline fuel p content wa Hp Hfuel Hsmall) as (w1 & Hst & Hrec & _).
    exists w1. split; [exact Hst|].
    rewrite (Reader_record _ _ _ _ Hrec) by (unfold IsDir; cbn; apply Z.ltb_ge; lia).
    cbn [SizeBytes Location Contents String.eqb].
    destruct (Z.ltb_spec (Z.of_nat (List.length content)) offset) as [H|H].
    + cbn [fst]. now rewrite skipn_all2 by lia.
    + destruct (Z.ltb_spec 0 offset) as [H0|H0]; cbn [fst]; [reflexivity|].
      replace offset with 0%Z by lia. reflexivity.
  - rewrite <- Hea in Hent.
    destruct (putStore_external fuel p content wa Hp Hfuel Hbig (Hent Hbig))
      as (w1 & Hst & Hrec & Hsw).
    exists w1. split; [exact Hst|].
    rewrite (Reader_record _ _ _ _ Hrec) by (unfold IsDir; cbn; apply Z.ltb_ge; lia).
    cbn [SizeBytes Location Contents].
    destruct (Z.ltb_spec (Z.of_nat (List.length content)) offset) as [H|H].
    + cbn [fst]. now rewrite skipn_all2 by lia.
    + assert (Hne : Enc.hexEncode (firstn 8 (entropy wa)) <> "").
      { specialize (Hent Hbig).
        destruct (entropy wa) as [|b bs]; [cbn in Hent; lia | discriminate]. }
      apply String.eqb_neq in Hne. rewrite Hne.
      unfold mapErr, swiftModel.Reader, ObjectPath. cbn [Location].
      rewrite Hsw. cbn [objects ObjectPrefix swiftModel.record].
      unfold swiftModel.content. rewrite lookup_put_same. reflexivity.
Qed.

End ReaderProps.
(** ** How the operations of the driver compose *)

Module ComposeFacts.
Import path plusDriver sql SqlFacts DrvFacts PathFacts Tree SwiftFacts
       DeleteFileProps PutProps MoveProps InvariantProps SubtreeProps.

Lemma In_put (name n : string) (x o : object) (objs : list (string * object)) :
  In (n, o) (swiftModel.put name x objs) ->
  (n = name /\ o = x) \/ In (n, o) objs.
Proof.
  induction objs as [|[m y] objs IH]; cbn [swiftModel.put].
  - intros [[= <- <-]|[]]. now left.
  - destruct (String.eqb_spec m name) as [->|Hne].
    + intros [[= <- <-]|H]; [now left | right; now right].
    + intros [H|H]; [right; now left|].
      destruct (IH H) as [?|?]; [now left | right; now right].
Qed.

Lemma deleteBlobs_world (fi : fileInfo) (w : world) :
  exists wa,
    deleteBlobs fi w = (Ok tt, wa)
    /\ files wa = files w /\ segmentRows wa = segmentRows w
    /\ entropy wa = entropy w /\ now wa = now w
    /\ ObjectPrefix (swift wa) = ObjectPrefix (swift w)
    /\ objectsShrink w wa
    /\ (Location fi <> "" ->
        noObjectUnder (prependPrefix (ObjectPrefix (swift w)) (Location fi) +++ "/") wa).
Proof.
  destruct (String.eqb_spec (Location fi) "") as [Hl|Hl].
  - exists w. rewrite (deleteBlobs_inline _ _ Hl).
    repeat (split; [reflexivity|]). split; [apply objectsShrink_refl|]. congruence.
  - eexists. rewrite (deleteBlobs_external _ _ Hl).
    repeat (split; [reflexivity|]). split.
    + intros [n o] He. cbn [swift setSwift objects swiftModel.record] in He.
      now apply In_deletePrefix in He.
    + intros _ n o He. cbn [swift setSwift objects swiftModel.record] in He.
      now apply In_deletePrefix in He.
Qed.

(** The first half of [PutContent]: the blobs of a record that is already
    there are deleted, the tables stay as they are. *)
Lemma PutContent_effect (fuel : nat) (p : string) (content : list byte) (w : world) :
  exists wa,
    PutContent fuel p content w = putStore fuel p content wa
    /\ files wa = files w /\ segmentRows wa = segmentRows w
    /\ entropy wa = entropy w /\ now wa = now w
    /\ ObjectPrefix (swift wa) = ObjectPrefix (swift w)
    /\ objectsShrink w wa
    /\ (forall old, recordAt w p = Some old -> Location old <> "" ->
        noObjectUnder (prependPrefix (ObjectPrefix (swift w)) (Location old) +++ "/") wa).
Proof.
  rewrite PutContent_split. unfold recordAt.
  destruct (selectFile (Dir p) (Base p) (files w)) as [old|] eqn:Hrec.
  - destruct (deleteBlobs_world old w) as (wa & Hdb & H).
    exists wa. unfold bind at 1. rewrite (readFileInfo_found _ _ _ Hrec).
    cbn beta iota. unfold bind at 1. rewrite Hdb. split; [reflexivity|].
    destruct H as (H1 & H2 & H3 & H4 & H5 & H6 & H7).
    repeat (split; [assumption|]). intros old' [= <-]. exact H7.
  - exists w. unfold bind at 1. rewrite (readFileInfo_missing _ _ Hrec).
    cbn beta iota. split; [reflexivity|].
    repeat (split; [reflexivity|]). split; [apply objectsShrink_refl|]. discriminate.
Qed.

Lemma putStore_covered (fuel : nat) (p : string) (content : list byte) (w w' : world) :
  putStore fuel p content w = (Ok tt, w') ->
  hasFile (Dir p) (Base p) (files w') = true /\ covered (files w') (Dir p).
Proof.
  intros H. destruct (putStore_writes _ _ _ _ _ H) as (fi & wb & wc & _ & Hd & Hb & Hw & Hf).
  rewrite Hf. split.
  - apply hasFile_select. destruct (writeFileInfo_stored _ _ _ _ _ Hw) as (Hs & _).
    rewrite Hd, Hb in Hs. eauto.
  - rewrite writeFileInfo_unfold in Hw. rewrite <- Hd.
    exact (mkdirAll_covered _ _ _ _ Hw).
Qed.

(** Deleting a record that is not a directory: its blobs go, then its
    row. *)
Lemma Delete_file (fuel : nat) (p : string) (w : world) (fi : fileInfo) :
  recordAt w p = Some fi -> IsDir fi = false ->
  exists wa,
    Delete (S fuel) p w
    = (Ok tt, setFiles (deleteFile (Dir p) (Base p) (files wa))
                       (StDeleteFile (Dir p) (Base p)) wa)
    /\ files wa = files w /\ segmentRows wa = segmentRows w
    /\ ObjectPrefix (swift wa) = ObjectPrefix (swift w)
    /\ objectsShrink w wa
    /\ (Location fi <> "" ->
        noObjectUnder (prependPrefix (ObjectPrefix (swift w)) (Location fi) +++ "/") wa).
Proof.
  unfold recordAt. intros Hrec Hdir.
  destruct (deleteBlobs_world fi w) as (wa & Hdb & H1 & H2 & _ & _ & H5 & H6 & H7).
  exists wa. split; [|auto].
  unfold Delete. unfold bind at 1. rewrite (readFileInfo_found _ _ _ Hrec).
  cbn beta iota. rewrite (deleteDownwards_file _ _ _ Hdir), Hdb.
  destruct (selectFile_Some _ _ _ _ Hrec) as (_ & -> & ->). reflexivity.
Qed.

Lemma ancestorOf_cases (a p : string) :
  ancestorOf a p -> a = Dir p \/ ancestorOf a (Dir p).
Proof. inversion 1; subst; auto. Qed.

End ComposeFacts.

Module ComposeProps.
Import path plusDriver sql SqlFacts DrvFacts PathFacts Tree SwiftFacts
       DeleteFileProps PutProps MoveProps InvariantProps SubtreeProps
       AppendProps ComposeFacts.

(** X10: a put on a path that already has a record replaces it: a get
    returns the new content, and of the objects that lay under the
    location of the old record none is left (the one object that may lie
    there is the new content, in case the new location is the old one). *)
Theorem PutContent_replaces_the_record
  (fuel : nat) (p : string) (content : list byte) (w : world) (old : fileInfo) :
  validPath p = true -> String.length p <= fuel ->
  (maxInlineSizeBytes < List.length content -> 8 <= List.length (entropy w)) ->
  recordAt w p = Some old ->
  exists w1,
    PutContent fuel p content w = (Ok tt, w1)
    /\ (exists w2, GetContent p w1 = (Ok content, w2))
    /\ (Location old <> "" ->
        forall name o,
          In (name, o) (objects (swift w1)) ->
          String.prefix
            (prependPrefix (ObjectPrefix (swift w)) (Location old) +++ "/") name
          = true ->
          maxInlineSizeBytes < List.length content
          /\ name = prependPrefix (ObjectPrefix (swift w))
                      (Enc.hexEncode (firstn 8 (entropy w)) +++ "/content")
          /\ o = Blob content).
Proof.
  intros Hp Hfuel Hent Hrec.
  destruct (PutContent_effect fuel p content w)
    as (wa & Hput & _ & _ & Hea & _ & Hpa & _ & Hgone).
  rewrite Hput. specialize (Hgone old Hrec).
  destruct (le_lt_dec (List.length content) maxInlineSizeBytes) as [Hsmall|Hbig].
  - destruct (putStore_inline fuel p content wa Hp Hfuel Hsmall) as (w1 & Hst & Hr1 & Hsw).
    exists w1. split; [exact Hst|]. split.
    + exists w1. apply (GetContent_inline _ _ _ Hr1); [|reflexivity].
      unfold IsDir. cbn. apply Z.ltb_ge. lia.
    + intros Hl name o Hin Hpre. rewrite Hsw in Hin.
      specialize (Hgone Hl name o Hin). congruence.
  - rewrite <- Hea in Hent.
    destruct (putStore_external fuel p content wa Hp Hfuel Hbig (Hent Hbig))
      as (w1 & Hst & Hr1 & Hsw).
    exists w1. split; [exact Hst|]. split.
    + apply (GetContent_external _ _ _ content Hr1).
      * unfold IsDir. cbn. apply Z.ltb_ge. lia.
      * cbn. unfold maxInlineSizeBytes in Hbig. lia.
      * reflexivity.
      * rewrite Hsw. cbn [objects ObjectPrefix swiftModel.record ObjectPath Location].
        unfold swiftModel.content. now rewrite lookup_put_same.
    + intros Hl name o Hin Hpre. rewrite Hsw in Hin.
      cbn [objects swiftModel.record] in Hin.
      apply In_put in Hin as [[-> ->]|Hin].
      * rewrite Hpa, Hea. auto.
      * specialize (Hgone Hl name o Hin). congruence.
Qed.

(** X11: a put makes the path visible: the file is listed in its
    directory, and every directory above it, up to the root, is listed
    in the directory it lies in. *)
Theorem PutContent_shows_in_listings
  (fuel : nat) (p : string) (content : list byte) (w : world) :
  validPath p = true -> String.length p <= fuel ->
  (maxInlineSizeBytes < List.length content -> 8 <= List.length (entropy w)) ->
  exists w1,
    PutContent fuel p content w = (Ok tt, w1)
    /\ forall q, q = p \/ (ancestorOf q p /\ q <> "/") ->
         exists qs, List (Dir q) w1 = (Ok qs, w1) /\ In q qs.
Proof.
  intros Hp Hfuel Hent.
  destruct (PutContent_effect fuel p content w) as (wa & Hput & _ & _ & Hea & _).
  rewrite Hput.
  assert (Hok : exists w1, putStore fuel p content wa = (Ok tt, w1)).
  { destruct (le_lt_dec (List.length content) maxInlineSizeBytes) as [Hsmall|Hbig].
    - destruct (putStore_inline fuel p content wa Hp Hfuel Hsmall) as (w1 & Hst & _).
      eauto.
    - rewrite <- Hea in Hent.
      destruct (putStore_external fuel p content wa Hp Hfuel Hbig (Hent Hbig))
        as (w1 & Hst & _).
      eauto. }
  destruct Hok as (w1 & Hst). exists w1. split; [exact Hst|].
  destruct (putStore_covered _ _ _ _ _ Hst) as [Hhas Hcov].
  assert (Hrow : forall q, validPath q = true ->
            hasFile (Dir q) (Base q) (files w1) = true ->
            exists qs, List (Dir q) w1 = (Ok qs, w1) /\ In q qs).
  { intros q Hq Hh. eexists. split; [reflexivity|].
    apply hasFile_In in Hh as (r & Hr & Hd & Hb).
    apply in_map_iff. exists r. split.
    - rewrite Hb. now apply validPath_Join.
    - now apply selectChildren_In. }
  intros q [->|[Ha Hnr]]; [now apply Hrow|].
  destruct (ancestorOf_valid _ _ Hp Ha) as [Hv _].
  destruct (validDir_cases _ Hv) as [?|Hq]; [congruence|].
  apply Hrow; [exact Hq|].
  assert (Hq' : q = Dir p \/ ancestorOf q (Dir p)) by now apply ancestorOf_cases.
  destruct (covered_ancestor _ _ _ Hcov Hq') as [Hroot|Hh]; [|exact Hh].
  apply orb_true_iff in Hroot as [H|H]; apply String.eqb_eq in H; subst.
  - congruence.
  - discriminate.
Qed.

(** X12: a put followed by a delete of the same path.  The record and,
    for large content, the object are gone, and a get fails with
    PathNotFoundError; the directories that the put has created stay:
    Stat still finds every directory above the path. *)
Theorem Delete_leaves_the_directories
  (fuel : nat) (p : string) (content : list byte) (w : world) :
  validPath p = true -> String.length p <= fuel ->
  (maxInlineSizeBytes < List.length content -> 8 <= List.length (entropy w)) ->
  exists w1 w2,
    PutContent fuel p content w = (Ok tt, w1)
    /\ Delete fuel p w1 = (Ok tt, w2)
    /\ GetContent p w2 = (Err (PathNotFoundError p), w2)
    /\ (maxInlineSizeBytes < List.length content ->
        noObjectUnder
          (prependPrefix (ObjectPrefix (swift w))
             (Enc.hexEncode (firstn 8 (entropy w))) +++ "/") w2)
    /\ forall a, ancestorOf a p -> exists fi, Stat a w2 = (Ok fi, w2).
Proof.
  intros Hp Hfuel Hent.
  destruct (PutContent_effect fuel p content w)
    as (wa & Hput & _ & _ & Hea & _ & Hpa & _).
  rewrite Hput.
  assert (Hok : exists w1 rec,
            putStore fuel p content wa = (Ok tt, w1)
            /\ recordAt w1 p = Some rec /\ IsDir rec = false
            /\ ObjectPrefix (swift w1) = ObjectPrefix (swift wa)
            /\ (maxInlineSizeBytes < List.length content ->
                Location rec = Enc.hexEncode (firstn 8 (entropy wa)))).
  { destruct (le_lt_dec (List.length content) maxInlineSizeBytes) as [Hsmall|Hbig].
    - destruct (putStore_inline fuel p content wa Hp Hfuel Hsmall) as (w1 & Hst & Hr & Hsw).
      exists w1. eexists. split; [exact Hst|]. split; [exact Hr|].
      split; [unfold IsDir; cbn; apply Z.ltb_ge; lia|].
      split; [now rewrite Hsw | lia].
    - rewrite <- Hea in Hent.
      destruct (putStore_external fuel p content wa Hp Hfuel Hbig (Hent Hbig))
        as (w1 & Hst & Hr & Hsw).
      exists w1. eexists. split; [exact Hst|]. split; [exact Hr|].
      split; [unfold IsDir; cbn; apply Z.ltb_ge; lia|].
      split; [now rewrite Hsw | reflexivity]. }
  destruct Hok as (w1 & rec & Hst & Hrec & Hdir & Hp1 & Hloc).
  destruct (putStore_covered _ _ _ _ _ Hst) as [_ Hcov].
  destruct fuel as [|fuel]; [pose proof (validPath_Dir_length _ Hp); lia|].
  destruct (Delete_file fuel p w1 rec Hrec Hdir) as (wb & Hdel & Hfb & _ & _ & _ & Hgone).
  exists w1. eexists. split; [exact Hst|]. split; [exact Hdel|].
  set (w2 := setFiles _ _ wb).
  assert (Hsel : forall d b, ~ (d = Dir p /\ b = Base p) ->
            selectFile d b (files w2) = selectFile d b (files w1)).
  { intros d b Hk. unfold w2. cbn [files setFiles].
    rewrite selectFile_deleteFile, Hfb.
    destruct (String.eqb_spec d (Dir p)); destruct (String.eqb_spec b (Base p));
      cbn [andb]; tauto. }
  split; [|split].
  - apply GetContent_missing. unfold recordAt, w2. cbn [files setFiles].
    rewrite selectFile_deleteFile, !String.eqb_refl. reflexivity.
  - intros Hbig name o Hin. unfold w2 in Hin. cbn [swift setFiles] in Hin.
    rewrite <- Hpa, <- Hea, <- Hp1, <- (Hloc Hbig).
    apply (Hgone ltac:(rewrite (Hloc Hbig); specialize (Hent Hbig);
                       rewrite <- Hea in Hent;
                       destruct (entropy wa); [cbn in Hent; lia | discriminate])
             name o Hin).
  - intros a Ha.
    destruct (String.eqb_spec a "/") as [->|Hroot].
    { destruct (Stat_root w2) as (fi & Hs & _). eauto. }
    destruct (ancestorOf_valid _ _ Hp Ha) as [Hv Hlen].
    destruct (validDir_cases _ Hv) as [?|Hq]; [congruence|].
    assert (Ha' : a = Dir p \/ ancestorOf a (Dir p)) by now apply ancestorOf_cases.
    destruct (covered_ancestor _ _ _ Hcov Ha') as [Hr|Hh].
    { apply orb_true_iff in Hr as [H|H]; apply String.eqb_eq in H; subst;
        [congruence | discriminate]. }
    apply hasFile_select in Hh as (x & Hx). exists x.
    apply Stat_found; [exact Hroot|]. unfold recordAt. rewrite Hsel; [exact Hx|].
    intros [Hd Hb]. apply (valid_key_inj a p Hq Hp) in Hd; [|exact Hb].
    subst. lia.
Qed.

(** X13: a move onto a path that holds a file replaces that file.  The
    blobs of the old destination are deleted, then its row, and the row of
    the source gets the key of the destination with its size, content and
    location unchanged; a get on the source then fails with
    PathNotFoundError. *)
Theorem Move_replaces_destination_file
  (fuel : nat) (src dst : string) (w : world) (row old : fileInfo) :
  validPath src = true -> validPath dst = true -> src <> dst ->
  String.length dst <= fuel ->
  recordAt w src = Some row -> recordAt w dst = Some old -> IsDir old = false ->
  exists w',
    Move fuel src dst w = (Ok tt, w')
    /\ recordAt w' dst = Some (rekey (Dir dst) (Base dst) row)
    /\ GetContent src w' = (Err (PathNotFoundError src), w')
    /\ (Location old <> "" ->
        noObjectUnder
          (prependPrefix (ObjectPrefix (swift w)) (Location old) +++ "/") w').
Proof.
  intros Hs Hd Hne Hfuel Hrow Hold Hfile.
  pose proof Hrow as Hrow'. pose proof Hold as Hold'. unfold recordAt in Hrow', Hold'.
  destruct fuel as [|fuel]; [pose proof (validPath_Dir_length _ Hd); lia|].
  destruct (deleteBlobs_world old w) as (wa & Hdb & Hfa & _ & _ & _ & _ & _ & Hgone).
  assert (Hkey : ~ (Dir src = Dir dst /\ Base src = Base dst)).
  { intros [H1 H2]. apply Hne. now apply valid_key_inj. }
  set (t1 := deleteFile (Dir dst) (Base dst) (files w)).
  assert (Hsrc1 : selectFile (Dir src) (Base src) t1 = Some row).
  { unfold t1. rewrite selectFile_deleteFile.
    destruct (String.eqb_spec (Dir src) (Dir dst));
      destruct (String.eqb_spec (Base src) (Base dst)); cbn [andb]; tauto. }
  assert (Hdst1 : hasFile (Dir dst) (Base dst) t1 = false).
  { apply hasFile_false_select. unfold t1.
    now rewrite selectFile_deleteFile, !String.eqb_refl. }
  set (t2 := map (fun r => if keyEq (Dir src) (Base src) r
                           then rekey (Dir dst) (Base dst) r else r) t1).
  set (w2 := setFiles t2 (StUpdateKey (Dir dst) (Base dst) (Dir src) (Base src))
               (setFiles t1 (StDeleteFile (Dir dst) (Base dst)) wa)).
  assert (Hmove : Move (S fuel) src dst w = mkdirAll (S fuel) (Dir dst) w2).
  { unfold Move. unfold bind at 1. rewrite (readFileInfo_found _ _ _ Hrow').
    cbn beta iota. cbn [isErrNoRows]. unfold bind at 1.
    rewrite (readFileInfo_found _ _ _ Hold'). cbn beta iota. unfold bind at 1.
    rewrite (deleteDownwards_file _ _ _ Hfile), Hdb.
    destruct (selectFile_Some _ _ _ _ Hold') as (_ & Ho1 & Ho2).
    destruct (selectFile_Some _ _ _ _ Hrow') as (_ & Hr1 & Hr2).
    rewrite Ho1, Ho2, Hr1, Hr2. unfold execDeleteFile. cbn beta iota.
    unfold bind at 1. unfold execUpdateKey. cbn [files setFiles]. rewrite Hfa.
    fold t1. rewrite (updateKey_absent _ _ _ _ _ Hdst1). reflexivity. }
  destruct (mkdirAll_total (S fuel) (Dir dst) w2) as (w' & Hmk).
  { now apply validPath_Dir. }
  { pose proof (validPath_Dir_length _ Hd). lia. }
  exists w'. split; [now rewrite Hmove|]. split; [|split].
  - unfold recordAt. apply (mkdirAll_select_old _ _ _ _ _ _ _ _ Hmk).
    unfold w2. cbn [files setFiles]. unfold t2.
    now apply selectFile_rekey_new.
  - assert (Hold2 : selectFile (Dir src) (Base src) (files w2) = None).
    { unfold w2. cbn [files setFiles]. unfold t2. now apply selectFile_rekey_old. }
    destruct (recordAt w' src) as [x|] eqn:Hx.
    + unfold recordAt in Hx.
      destruct (mkdirAll_select_new _ _ _ _ _ _ _ _ Hmk Hx) as [H|H]; [congruence|].
      apply (GetContent_directory _ _ x); [exact Hx|]. now rewrite H.
    + now apply GetContent_missing.
  - intros Hl name o Hin.
    destruct (mkdirAll_frame _ _ _ _ _ Hmk) as (_ & Hsw & _).
    rewrite Hsw in Hin. unfold w2 in Hin. cbn [swift setFiles] in Hin.
    exact (Hgone Hl name o Hin).
Qed.

(** X14: in a well-formed table, List on a directory returns exactly the
    well-formed paths directly in this directory that have a record: each
    listed path is found by Stat, and each record of the directory is
    listed. *)
Theorem List_gives_the_records_of_the_directory (d : string) (w : world) :
  wellFormed (files w) = true -> validDir d = true ->
  exists qs,
    List d w = (Ok qs, w)
    /\ forall q,
         In q qs
         <-> (validPath q = true /\ Dir q = d
              /\ exists fi, Stat q w = (Ok fi, w)).
Proof.
  intros Hwf Hd. eexists. split; [reflexivity|]. intros q. split.
  - intros Hin. apply in_map_iff in Hin as (r & <- & Hr).
    apply selectChildren_In in Hr as [Hr Hdr].
    destruct (wellFormed_row _ _ Hwf Hr) as [_ Hb].
    assert (Hq : validPath (Join d (BaseName r)) = true) by now apply Join_valid.
    split; [exact Hq|]. split; [now apply Dir_Join|].
    assert (Hh : hasFile d (BaseName r) (files w) = true).
    { apply hasFile_In. now exists r. }
    apply hasFile_select in Hh as (x & Hx). exists x.
    apply Stat_found; [now apply validPath_not_root|].
    unfold recordAt. now rewrite Dir_Join, Base_Join.
  - intros (Hq & Hdq & fi & Hst).
    destruct (recordAt w q) as [x|] eqn:Hx.
    + unfold recordAt in Hx. destruct (selectFile_Some _ _ _ _ Hx) as (Hin & H1 & H2).
      apply in_map_iff. exists x. split.
      * rewrite <- Hdq, H2. now apply validPath_Join.
      * apply selectChildren_In. split; [exact Hin | congruence].
    + rewrite (Stat_missing q w (validPath_not_root _ Hq) Hx) in Hst. discriminate.
Qed.

(** X30: a temporary URL after a put.  Content of at most 256 bytes is
    kept in the table, and URLFor is refused with ErrUnsupportedMethod;
    larger content lies in the object store, and URLFor asks the store
    for a URL of the object of the file, once. *)
Theorem URLFor_after_PutContent
  (fuel : nat) (p : string) (content : list byte)
  (options : list (string * string)) (w : world) :
  validPath p = true -> String.length p <= fuel ->
  (maxInlineSizeBytes < List.length content -> 8 <= List.length (entropy w)) ->
  exists w1,
    PutContent fuel p content w = (Ok tt, w1)
    /\ (List.length content <= maxInlineSizeBytes ->
        URLFor p options w1 = (Err ErrUnsupportedMethod, w1))
    /\ (maxInlineSizeBytes < List.length content ->
        exists url w2,
          URLFor p options w1 = (Ok url, w2)
          /\ calls (swift w2)
             = calls (swift w1)
               ++ [CallMakeTempURL
                     (prependPrefix (ObjectPrefix (swift w))
                        (Enc.hexEncode (firstn 8 (entropy w)) +++ "/content"))]).
Proof.
  intros Hp Hfuel Hent.
  destruct (PutContent_effect fuel p content w)
    as (wa & Hput & _ & _ & Hea & _ & Hpa & _).
  rewrite Hput.
  destruct (le_lt_dec (List.length content) maxInlineSizeBytes) as [Hsmall|Hbig].
  - destruct (putStore_inline fuel p content wa Hp Hfuel Hsmall) as (w1 & Hst & Hr1 & _).
    exists w1. split; [exact Hst|]. split; [|lia].
    intros _. unfold URLFor. unfold bind at 1.
    unfold recordAt in Hr1. rewrite (readFileInfo_found _ _ _ Hr1). reflexivity.
  - rewrite <- Hea in Hent.
    destruct (putStore_external fuel p content wa Hp Hfuel Hbig (Hent Hbig))
      as (w1 & Hst & Hr1 & Hsw).
    exists w1. split; [exact Hst|]. split; [lia|].
    intros _. unfold URLFor. unfold bind at 1.
    unfold recordAt in Hr1. rewrite (readFileInfo_found _ _ _ Hr1).
    cbn beta iota. cbn [Location].
    assert (Hne : Enc.hexEncode (firstn 8 (entropy wa)) <> "").
    { specialize (Hent Hbig).
      destruct (entropy wa) as [|b bs]; [cbn in Hent; lia | discriminate]. }
    apply String.eqb_neq in Hne. rewrite Hne.
    unfold bind, swiftObjectName, gets, swiftModel.MakeTempURL. cbn beta iota.
    eexists. eexists. split; [reflexivity|].
    cbn [swift setSwift calls swiftModel.record ObjectPath Location].
    rewrite Hsw. cbn [ObjectPrefix swiftModel.record]. now rewrite Hpa, Hea.
Qed.

End ComposeProps.
(** ** Files written in chunks *)

Module EncFacts.
Import StrFacts.

Lemma readDecimal_zeros (k : nat) (s : string) :
  Stream.readDecimal (Enc.zeros k +++ s) = Stream.readDecimal s.
Proof.
  unfold Stream.readDecimal. induction k as [|k IH]; [reflexivity|].
  cbn [Enc.zeros String.append NilEmpty.uint_of_string]. rewrite <- IH.
  now destruct (NilEmpty.uint_of_string (Enc.zeros k +++ s)).
Qed.

Lemma readDecimal_to_uint (n : N) :
  Stream.readDecimal (NilZero.string_of_uint (N.to_uint n)) = Some n.
Proof.
  unfold Stream.readDecimal, NilZero.string_of_uint.
  destruct (N.to_uint n) eqn:E;
    try (rewrite <- E, NilEmpty.usu; cbn [option_map];
         now rewrite DecimalN.Unsigned.of_to).
  destruct n as [|p]; [discriminate|].
  now apply DecimalPos.Unsigned.to_uint_nonnil in E.
Qed.

Lemma readDecimal_Sprintf016d (n : Z) :
  (0 <= n)%Z -> Stream.readDecimal (Enc.Sprintf016d n) = Some (Z.to_N n).
Proof.
  intros H. unfold Enc.Sprintf016d, Enc.padZeros.
  destruct (Z.ltb_spec n 0); [lia|].
  now rewrite readDecimal_zeros, readDecimal_to_uint.
Qed.

(** Distinct numbers have distinct names. *)
Lemma Sprintf016d_inj (n m : Z) :
  (0 <= n)%Z -> (0 <= m)%Z -> Enc.Sprintf016d n = Enc.Sprintf016d m -> n = m.
Proof.
  intros Hn Hm H. apply (f_equal Stream.readDecimal) in H.
  rewrite !readDecimal_Sprintf016d in H by assumption.
  injection H as H. lia.
Qed.

Lemma Sprintf016d_not_content (n : Z) : Enc.Sprintf016d n <> "content".
Proof.
  intros H. destruct (Z.ltb_spec n 0) as [Hn|Hn].
  - unfold Enc.Sprintf016d in H. apply Z.ltb_lt in Hn. rewrite Hn in H.
    discriminate.
  - apply (f_equal Stream.readDecimal) in H.
    rewrite readDecimal_Sprintf016d in H by assumption. discriminate.
Qed.

End EncFacts.

Module StreamFacts.
Import path plusDriver plusWriter sql SqlFacts DrvFacts PathFacts Tree SwiftFacts
       StrFacts PutProps MoveProps WriterAux AppendProps EncFacts Stream.

Lemma gather_app (objs : list (string * object)) (l1 l2 : list string) :
  swiftModel.gather objs (l1 ++ l2)
  = match swiftModel.gather objs l1, swiftModel.gather objs l2 with
    | Some a, Some b => Some (a ++ b)
    | _, _ => None
    end.
Proof.
  induction l1 as [|n l1 IH]; cbn [app swiftModel.gather].
  - now destruct (swiftModel.gather objs l2).
  - rewrite IH. destruct (swiftModel.blobOf objs n) as [d|]; [|reflexivity].
    destruct (swiftModel.gather objs l1) as [a|]; [|reflexivity].
    destruct (swiftModel.gather objs l2) as [b|]; [|reflexivity].
    now rewrite app_assoc.
Qed.

Lemma gather_put_other (objs : list (string * object)) (name : string) (o : object)
  (names : list string) :
  ~ In name names ->
  swiftModel.gather (swiftModel.put name o objs) names = swiftModel.gather objs names.
Proof.
  induction names as [|n names IH]; intros Hn; [reflexivity|].
  cbn [swiftModel.gather]. rewrite blobOf_put_other.
  - rewrite IH; [reflexivity|]. intros H. apply Hn. now right.
  - intros ->. apply Hn. now left.
Qed.

Lemma top_snoc (wr : plusWriter) (s : seg.plusSegment) :
  top (setSegments (segments wr ++ [s]) wr) = seg.Number s.
Proof.
  unfold top. cbn [segments setSegments]. rewrite last_last.
  now destruct (segments wr).
Qed.

Lemma segmentFits_In (st : world) (wr : plusWriter) (s : seg.plusSegment) :
  forallb (segmentFits st wr) (segments wr) = true -> In s (segments wr) ->
  seg.Prefix s = ObjectPrefix (swift st) /\ seg.Location s = location wr
  /\ (1 <= seg.Number s <= top wr)%Z.
Proof.
  intros H Hin. rewrite forallb_forall in H. specialize (H s Hin).
  unfold segmentFits in H.
  apply andb_true_iff in H as [H H4]. apply andb_true_iff in H as [H H3].
  apply andb_true_iff in H as [H1 H2].
  apply String.eqb_eq in H1. apply String.eqb_eq in H2.
  apply Z.leb_le in H3. apply Z.leb_le in H4. auto.
Qed.

Lemma top_nonneg (st : world) (wr : plusWriter) :
  forallb (segmentFits st wr) (segments wr) = true -> (0 <= top wr)%Z.
Proof.
  intros H. destruct (segments wr) as [|s l] eqn:E.
  - unfold top. rewrite E. lia.
  - assert (Hin : In (last (segments wr) (seg.mkSegment "" "" 0 0 "")) (segments wr)).
    { rewrite E. destruct (exists_last (l := s :: l)) as (l' & a & ->); [discriminate|].
      rewrite last_last. apply in_or_app. right. now left. }
    rewrite <- E in H.
    destruct (segmentFits_In st wr _ H Hin) as (_ & _ & Hn).
    unfold top in *. rewrite E in *. lia.
Qed.

Lemma nextNumber_top (wr : plusWriter) :
  (0 <= top wr < 2 ^ 64 - 1)%Z -> nextNumber wr = (top wr + 1)%Z.
Proof.
  unfold nextNumber, top. destruct (segments wr); [reflexivity|].
  intros H. unfold Enc.wrapU64. rewrite Z.mod_small; lia.
Qed.

Lemma Size_snoc (wr : plusWriter) (s : seg.plusSegment) :
  plusWriter.Size (setSegments (segments wr ++ [s]) wr)
  = Enc.wrapI64 (plusWriter.Size wr + Enc.wrapI64 (seg.SizeBytes s)).
Proof.
  unfold plusWriter.Size. cbn [segments setSegments]. now rewrite fold_left_app.
Qed.

Lemma segmentName_fits (st : world) (wr : plusWriter) (s : seg.plusSegment) :
  forallb (segmentFits st wr) (segments wr) = true -> In s (segments wr) ->
  segmentObjectPath s = segmentName st (location wr) (seg.Number s).
Proof.
  intros H Hin. destruct (segmentFits_In st wr s H Hin) as (H1 & H2 & _).
  unfold segmentObjectPath, segmentName. now rewrite H1, H2.
Qed.

Lemma segmentName_number_inj (st : world) (loc : string) (n m : Z) :
  (0 <= n < 2 ^ 63)%Z -> (0 <= m < 2 ^ 63)%Z ->
  segmentName st loc n = segmentName st loc m -> n = m.
Proof.
  intros Hn Hm H. apply segmentName_inj in H.
  rewrite !wrapI64_small in H by assumption.
  apply Sprintf016d_inj in H; lia.
Qed.

Lemma sameSession_refl (wr : plusWriter) (st : world) : sameSession wr wr st st.
Proof. unfold sameSession. tauto. Qed.

Lemma sameSession_trans (wr1 wr2 wr3 : plusWriter) (st1 st2 st3 : world) :
  sameSession wr1 wr2 st1 st2 -> sameSession wr2 wr3 st2 st3 ->
  sameSession wr1 wr3 st1 st3.
Proof. unfold sameSession. intuition congruence. Qed.

Lemma Write_consistent (c : list byte) (wr : plusWriter) (st : world)
  (content : list byte) :
  consistent st wr content ->
  (top wr < 2147483647)%Z ->
  (Z.of_nat (List.length (content ++ c)) < 2 ^ 63)%Z ->
  exists wr' st',
    Write c wr st = (Ok (Z.of_nat (List.length c)), wr', st')
    /\ consistent st' wr' (content ++ c)
    /\ top wr' = (top wr + 1)%Z
    /\ segmentRows st'
       = segmentRows st
         ++ [mkSegmentRow (location wr) (top wr + 1) (Z.of_nat (List.length c))
                          (swiftModel.etag c)]
    /\ sameSession wr wr' st st'.
Proof.
  intros [Hsegs Hrows Hblobs Hsize [Hns Hne]] Htop Hlen.
  pose proof (top_nonneg st wr Hsegs) as H0.
  assert (Hnext : nextNumber wr = (top wr + 1)%Z) by (apply nextNumber_top; lia).
  pose proof (Write_ok c wr st) as Hw. rewrite Hnext in Hw. cbv zeta in Hw.
  specialize (Hw ltac:(lia)).
  assert (Hfresh : forall r, In r (segmentRows st) ->
            ~ (rowLocation r = location wr /\ rowNumber r = (top wr + 1)%Z)).
  { intros r Hr [Hl Hn]. rewrite forallb_forall in Hrows.
    specialize (Hrows r Hr). unfold rowKnown in Hrows.
    apply String.eqb_eq in Hl. rewrite Hl in Hrows. cbn in Hrows.
    apply Z.leb_le in Hrows. lia. }
  specialize (Hw Hfresh).
  set (s := seg.mkSegment _ _ _ _ _) in Hw.
  set (row := mkSegmentRow _ _ _ _) in Hw.
  set (name := segmentName st (location wr) (top wr + 1)) in Hw.
  set (wr' := setSegments _ wr) in Hw.
  set (st' := setSegmentRows _ _ _) in Hw.
  assert (Htop' : top wr' = (top wr + 1)%Z) by (unfold wr'; now rewrite top_snoc).
  exists wr', st'. split; [exact Hw|]. split; [|split; [exact Htop'|split]].
  - constructor.
    + unfold wr' at 2. cbn [segments setSegments]. rewrite forallb_app.
      apply andb_true_iff. split.
      * apply forallb_forall. intros x Hx.
        destruct (segmentFits_In st wr x Hsegs Hx) as (H1 & H2 & H3).
        unfold segmentFits. rewrite Htop'.
        change (ObjectPrefix (swift st')) with (ObjectPrefix (swift st)).
        change (location wr') with (location wr).
        rewrite H1, H2, !String.eqb_refl. cbn [andb].
        apply andb_true_iff. split; apply Z.leb_le; lia.
      * cbn [forallb]. rewrite andb_true_r. unfold segmentFits. rewrite Htop'.
        change (ObjectPrefix (swift st')) with (ObjectPrefix (swift st)).
        change (location wr') with (location wr).
        cbn [s seg.Prefix seg.Location seg.Number].
        rewrite !String.eqb_refl. cbn [andb].
        apply andb_true_iff. split; apply Z.leb_le; lia.
    + unfold st'. cbn [segmentRows setSegmentRows]. rewrite forallb_app.
      apply andb_true_iff. split.
      * apply forallb_forall. intros r Hr. rewrite forallb_forall in Hrows.
        specialize (Hrows r Hr). unfold rowKnown in *. rewrite Htop'.
        change (location wr') with (location wr).
        destruct (rowLocation r =? location wr); [|reflexivity].
        cbn [negb orb] in *. apply Z.leb_le in Hrows. apply Z.leb_le. lia.
      * cbn [forallb]. rewrite andb_true_r. unfold rowKnown. rewrite Htop'.
        cbn [row rowLocation rowNumber]. apply orb_true_iff. right.
        apply Z.leb_le. lia.
    + unfold wr', st'. cbn [segments setSegments swift setSegmentRows setSwift
                            objects swiftModel.record].
      rewrite map_app, gather_app. rewrite gather_put_other.
      * rewrite Hblobs. cbn [map swiftModel.gather].
        change (segmentObjectPath s) with name.
        rewrite blobOf_put_same. now rewrite app_nil_r.
      * intros Hin. apply in_map_iff in Hin as (x & Hx & Hin).
        destruct (segmentFits_In st wr x Hsegs Hin) as (_ & _ & H3).
        rewrite (segmentName_fits st wr x Hsegs Hin) in Hx. unfold name in Hx.
        apply segmentName_number_inj in Hx; lia.
    + unfold wr'. rewrite Size_snoc, Hsize. cbn [s seg.SizeBytes].
      rewrite length_app in *.
      rewrite (wrapI64_small (Z.of_nat (List.length c))) by lia.
      rewrite wrapI64_small by lia. lia.
    + split; assumption.
  - reflexivity.
  - unfold sameSession. repeat split.
Qed.

Lemma writeAll_consistent (chunks : list (list byte)) :
  forall (wr : plusWriter) (st : world) (content : list byte),
    consistent st wr content ->
    (top wr + Z.of_nat (List.length chunks) <= 2147483647)%Z ->
    (Z.of_nat (List.length (content ++ List.concat chunks)) < 2 ^ 63)%Z ->
    exists wr' st',
      writeAll chunks wr st = (Ok tt, wr', st')
      /\ consistent st' wr' (content ++ List.concat chunks)
      /\ top wr' = (top wr + Z.of_nat (List.length chunks))%Z
      /\ segmentRows st'
         = segmentRows st ++ newRows (location wr) (top wr + 1) chunks
      /\ sameSession wr wr' st st'.
Proof.
  induction chunks as [|c chunks IH]; intros wr st content Hc Htop Hlen.
  - exists wr, st. cbn [writeAll List.concat newRows List.length].
    rewrite !app_nil_r. split; [reflexivity|]. split; [exact Hc|].
    split; [lia|]. split; [reflexivity|]. apply sameSession_refl.
  - cbn [List.concat List.length] in *. rewrite app_assoc in Hlen.
    destruct (Write_consistent c wr st content Hc) as (wr1 & st1 & Hw & Hc1 & Ht1 & Hr1 & Hs1).
    { lia. }
    { rewrite !length_app in Hlen. rewrite length_app. lia. }
    destruct (IH wr1 st1 (content ++ c) Hc1) as (wr2 & st2 & Hw2 & Hc2 & Ht2 & Hr2 & Hs2).
    { lia. }
    { exact Hlen. }
    exists wr2, st2. cbn [writeAll]. rewrite Hw.
    split; [exact Hw2|]. split; [now rewrite app_assoc|].
    split; [lia|]. split.
    + rewrite Hr2, Hr1, <- app_assoc. cbn [newRows app].
      destruct Hs1 as (_ & _ & _ & _ & Hl & _). now rewrite Hl, Ht1.
    + eapply sameSession_trans; eassumption.
Qed.

Lemma Commit_reads_back (fuel : nat) (wr : plusWriter) (st : world)
  (content : list byte) :
  consistent st wr content ->
  closed wr = false -> cancelled wr = false -> committed wr = false ->
  validPath (fullPath wr) = true -> String.length (fullPath wr) <= fuel ->
  (Z.of_nat (List.length content) < 2 ^ 63)%Z ->
  exists st',
    Commit fuel wr st = (Ok tt, setCommitted wr, st')
    /\ recordAt st' (fullPath wr)
       = Some (mkFileInfo (Dir (fullPath wr)) (Base (fullPath wr))
                 (Z.of_nat (List.length content)) (now st) [] (location wr))
    /\ fst (GetContent (fullPath wr) st') = Ok content
    /\ segmentRows st' = segmentRows st.
Proof.
  intros [Hsegs Hrows Hblobs Hsize [Hns Hne]] Hc1 Hc2 Hc3 Hp Hfuel Hlen.
  destruct (Commit_ok fuel wr st Hc1 Hc2 Hc3 Hp Hfuel) as (st' & Hcommit & Hrec & Hsw & Hrows').
  rewrite Hsize in Hrec.
  exists st'. split; [exact Hcommit|]. split; [exact Hrec|]. split; [|exact Hrows'].
  rewrite (GetContent_outcome _ _ _ Hrec).
  unfold IsDir, ObjectPath.
  cbn [SizeBytes Contents Location List.length Nat.ltb Nat.leb].
  destruct (Z.ltb_spec (Z.of_nat (List.length content)) 0); [lia|].
  destruct (Z.eqb_spec (Z.of_nat (List.length content)) 0) as [Hz|Hz].
  { destruct content; [reflexivity | cbn in Hz; lia]. }
  rewrite Hsw. cbn [objects ObjectPrefix swiftModel.record].
  fold (manifestName st (location wr)).
  unfold swiftModel.content. rewrite lookup_put_same.
  rewrite gather_put_other; [now rewrite Hblobs|].
  intros Hin. apply in_map_iff in Hin as (x & Hx & Hin).
  destruct (segmentFits_In st wr x Hsegs Hin) as (_ & _ & H3).
  pose proof (top_nonneg st wr Hsegs).
  rewrite (segmentName_fits st wr x Hsegs Hin) in Hx.
  revert Hx. apply segmentName_not_manifest; try assumption.
  apply Sprintf016d_not_content.
Qed.

Lemma consistent_fresh (st : world) (wr : plusWriter) :
  segments wr = [] ->
  Str.noSlash (location wr) = true -> location wr <> "" ->
  (forall r, In r (segmentRows st) -> rowLocation r <> location wr) ->
  consistent st wr [].
Proof.
  intros Hs Hns Hne Hrows. constructor.
  - now rewrite Hs.
  - apply forallb_forall. intros r Hr. unfold rowKnown.
    apply Hrows in Hr. apply String.eqb_neq in Hr. now rewrite Hr.
  - now rewrite Hs.
  - unfold plusWriter.Size. now rewrite Hs.
  - now split.
Qed.

Lemma newPlusWriter_new (fuel : nat) (p : string) (appendFlag : bool) (w : world) :
  recordAt w p = None -> 8 <= List.length (entropy w) ->
  newPlusWriter fuel p appendFlag w
  = (Ok (mkWriter false false false p (Enc.hexEncode (firstn 8 (entropy w))) []),
     setEntropy (skipn 8 (entropy w)) w).
Proof.
  unfold recordAt. intros Hrec Hent. unfold newPlusWriter. unfold bind at 1.
  rewrite (readFileInfo_missing _ _ Hrec). cbn beta iota.
  cbn [isErrNoRows negb andb orb]. unfold bind at 1. unfold ret at 1.
  cbn beta iota. cbn [negb andb orb]. unfold bind at 1.
  rewrite (plusRandLocation_ok w Hent). reflexivity.
Qed.

Lemma selectSegments_none (loc : string) (t : list segmentRow) :
  (forall r, In r t -> rowLocation r <> loc) -> selectSegments loc t = [].
Proof.
  intros H. unfold selectSegments.
  replace (filter (fun r => rowLocation r =? loc) t) with (@nil segmentRow);
    [reflexivity|].
  symmetry. induction t as [|r t IH]; [reflexivity|]. cbn [filter].
  assert (Hr : rowLocation r <> loc) by (apply H; now left).
  apply String.eqb_neq in Hr. rewrite Hr. apply IH.
  intros x Hx. apply H. now right.
Qed.

Lemma newPlusWriter_append_inline (fuel : nat) (p : string) (w : world)
  (fi : fileInfo) :
  recordAt w p = Some fi -> Location fi = "" -> 8 <= List.length (entropy w) ->
  (forall r, In r (segmentRows w) ->
             rowLocation r <> Enc.hexEncode (firstn 8 (entropy w))) ->
  newPlusWriter fuel p true w
  = (Ok (mkWriter false false false p (Enc.hexEncode (firstn 8 (entropy w))) []),
     setEntropy (skipn 8 (entropy w)) w).
Proof.
  unfold recordAt. intros Hrec Hloc Hent Hrows. unfold newPlusWriter.
  unfold bind at 1. rewrite (readFileInfo_found _ _ _ Hrec). cbn beta iota.
  cbn [isErrNoRows negb andb orb]. unfold bind at 1. unfold ret at 1.
  cbn beta iota. rewrite Hloc. cbn [negb andb orb String.eqb]. unfold bind at 1.
  rewrite (plusRandLocation_ok w Hent). cbn beta iota.
  unfold bind, ret, readSegmentInfo. cbn [segmentRows setEntropy].
  assert (Hne : Enc.hexEncode (firstn 8 (entropy w)) <> "").
  { destruct (entropy w) as [|b bs]; [cbn in Hent; lia | discriminate]. }
  apply String.eqb_neq in Hne. rewrite Hne.
  now rewrite (selectSegments_none _ _ Hrows).
Qed.

Lemma fresh_location (w : world) :
  8 <= List.length (entropy w) ->
  Str.noSlash (Enc.hexEncode (firstn 8 (entropy w))) = true
  /\ Enc.hexEncode (firstn 8 (entropy w)) <> "".
Proof.
  intros H. apply (plusRandLocation_location w (setEntropy (skipn 8 (entropy w)) w)).
  now apply plusRandLocation_ok.
Qed.

End StreamFacts.

Module StreamProps.
Import path plusDriver plusWriter sql SqlFacts DrvFacts PathFacts Tree SwiftFacts
       StrFacts PutProps MoveProps WriterAux AppendProps EncFacts Stream StreamFacts.

(** X1: a writer that agrees with the store on the bytes [content] (a new
    writer, or one opened for appending) takes any list of chunks: every
    write succeeds and inserts the row with the next number, the size of
    the writer is the number of bytes, and after the commit a get returns
    the old bytes followed by the chunks in the order they were written,
    and Stat reports their number. *)
Theorem chunks_are_read_back_in_order
  (fuel : nat) (wr : plusWriter) (st : world) (content : list byte)
  (chunks : list (list byte)) :
  consistent st wr content ->
  closed wr = false -> cancelled wr = false -> committed wr = false ->
  validPath (fullPath wr) = true -> String.length (fullPath wr) <= fuel ->
  (top wr + Z.of_nat (List.length chunks) <= 2147483647)%Z ->
  (Z.of_nat (List.length (content ++ List.concat chunks)) < 2 ^ 63)%Z ->
  exists wr1 st1 wr2 st2,
    writeAll chunks wr st = (Ok tt, wr1, st1)
    /\ segmentRows st1
       = segmentRows st ++ newRows (location wr) (top wr + 1) chunks
    /\ plusWriter.Size wr1
       = Z.of_nat (List.length (content ++ List.concat chunks))
    /\ Commit fuel wr1 st1 = (Ok tt, wr2, st2)
    /\ fst (GetContent (fullPath wr) st2) = Ok (content ++ List.concat chunks)
    /\ exists fi,
         Stat (fullPath wr) st2 = (Ok fi, st2)
         /\ plusDriver.Size fi
            = Z.of_nat (List.length (content ++ List.concat chunks)).
Proof.
  intros Hc Hc1 Hc2 Hc3 Hp Hfuel Htop Hlen.
  destruct (writeAll_consistent chunks wr st content Hc Htop Hlen)
    as (wr1 & st1 & Hw & Hcons & _ & Hrows & Hs).
  destruct Hs as (H1 & H2 & H3 & H4 & _).
  destruct (Commit_reads_back fuel wr1 st1 _ Hcons) as (st2 & Hcommit & Hrec & Hget & _);
    try congruence.
  exists wr1, st1, (setCommitted wr1), st2.
  split; [exact Hw|]. split; [exact Hrows|]. split; [apply Hcons|].
  split; [exact Hcommit|]. rewrite H4 in *. split; [exact Hget|].
  eexists. split.
  - apply Stat_found; [now apply validPath_not_root | exact Hrec].
  - reflexivity.
Qed.

(** X2: a file that does not exist yet is written in chunks.  The writer
    draws a location, the chunks become the segments 1, 2, ... of this
    location, and after the commit a get returns the chunks in order. *)
Theorem Writer_new_file_round_trip
  (fuel : nat) (p : string) (appendFlag : bool) (w : world)
  (chunks : list (list byte)) :
  validPath p = true -> String.length p <= fuel ->
  recordAt w p = None -> 8 <= List.length (entropy w) ->
  (forall r, In r (segmentRows w) ->
             rowLocation r <> Enc.hexEncode (firstn 8 (entropy w))) ->
  (Z.of_nat (List.length chunks) <= 2147483647)%Z ->
  (Z.of_nat (List.length (List.concat chunks)) < 2 ^ 63)%Z ->
  exists wr0 w0 wr1 w1 wr2 w2,
    newPlusWriter fuel p appendFlag w = (Ok wr0, w0)
    /\ writeAll chunks wr0 w0 = (Ok tt, wr1, w1)
    /\ segmentRows w1
       = segmentRows w
         ++ newRows (Enc.hexEncode (firstn 8 (entropy w))) 1 chunks
    /\ Commit fuel wr1 w1 = (Ok tt, wr2, w2)
    /\ fst (GetContent p w2) = Ok (List.concat chunks).
Proof.
  intros Hp Hfuel Hrec Hent Hfree Hk Hlen.
  pose proof (newPlusWriter_new fuel p appendFlag w Hrec Hent) as Hnew.
  set (wr0 := mkWriter _ _ _ _ _ _) in Hnew. set (w0 := setEntropy _ w) in Hnew.
  destruct (fresh_location w Hent) as [Hns Hne].
  assert (Hc : consistent w0 wr0 []) by (now apply consistent_fresh).
  destruct (writeAll_consistent chunks wr0 w0 [] Hc) as (wr1 & w1 & Hw & Hcons & _ & Hrows & Hs);
    [unfold top; cbn; lia | exact Hlen |].
  destruct Hs as (H1 & H2 & H3 & H4 & _).
  destruct (Commit_reads_back fuel wr1 w1 _ Hcons) as (w2 & Hcommit & _ & Hget & _);
    [now rewrite H1 | now rewrite H2 | now rewrite H3 | now rewrite H4
    | now rewrite H4 | exact Hlen |].
  exists wr0, w0, wr1, w1, (setCommitted wr1), w2.
  split; [exact Hnew|]. split; [exact Hw|]. split; [exact Hrows|].
  split; [exact Hcommit|]. now rewrite H4 in Hget.
Qed.

(** X3: a record without external location (a file kept in the table) is
    opened for appending.  The writer draws a new location and starts
    without segments; the commit replaces the row, so a get afterwards
    returns the chunks alone: the bytes the record held are gone. *)
Theorem append_to_inline_file_drops_contents
  (fuel : nat) (p : string) (w : world) (fi : fileInfo)
  (chunks : list (list byte)) :
  validPath p = true -> String.length p <= fuel ->
  recordAt w p = Some fi -> Location fi = "" ->
  8 <= List.length (entropy w) ->
  (forall r, In r (segmentRows w) ->
             rowLocation r <> Enc.hexEncode (firstn 8 (entropy w))) ->
  (Z.of_nat (List.length chunks) <= 2147483647)%Z ->
  (Z.of_nat (List.length (List.concat chunks)) < 2 ^ 63)%Z ->
  exists wr0 w0 wr1 w1 wr2 w2,
    newPlusWriter fuel p true w = (Ok wr0, w0)
    /\ segments wr0 = []
    /\ writeAll chunks wr0 w0 = (Ok tt, wr1, w1)
    /\ Commit fuel wr1 w1 = (Ok tt, wr2, w2)
    /\ fst (GetContent p w2) = Ok (List.concat chunks).
Proof.
  intros Hp Hfuel Hrec Hloc Hent Hfree Hk Hlen.
  pose proof (newPlusWriter_append_inline fuel p w fi Hrec Hloc Hent Hfree) as Hnew.
  set (wr0 := mkWriter _ _ _ _ _ _) in Hnew. set (w0 := setEntropy _ w) in Hnew.
  destruct (fresh_location w Hent) as [Hns Hne].
  assert (Hc : consistent w0 wr0 []) by (now apply consistent_fresh).
  destruct (writeAll_consistent chunks wr0 w0 [] Hc) as (wr1 & w1 & Hw & Hcons & _ & Hrows & Hs);
    [unfold top; cbn; lia | exact Hlen |].
  destruct Hs as (H1 & H2 & H3 & H4 & _).
  destruct (Commit_reads_back fuel wr1 w1 _ Hcons) as (w2 & Hcommit & _ & Hget & _);
    [now rewrite H1 | now rewrite H2 | now rewrite H3 | now rewrite H4
    | now rewrite H4 | exact Hlen |].
  exists wr0, w0, wr1, w1, (setCommitted wr1), w2.
  split; [exact Hnew|]. split; [reflexivity|]. split; [exact Hw|].
  split; [exact Hcommit|]. now rewrite H4 in Hget.
Qed.

(** X4: when Write reports an error, the INSERT of the segment row was
    refused (duplicate key, or a number beyond the INT column).  By then
    the object is uploaded and the writer has taken the segment into its
    list; the table has no row for it, and nothing is taken back. *)
Theorem Write_failure_keeps_upload
  (buf : list byte) (wr wr' : plusWriter) (st st' : world) (e : error) :
  Write buf wr st = (Err e, wr', st') ->
  (e = ErrUniqueViolation \/ e = ErrOutOfRange)
  /\ segments wr'
     = segments wr
       ++ [seg.mkSegment (ObjectPrefix (swift st)) (location wr) (nextNumber wr)
             (Z.of_nat (List.length buf)) (swiftModel.etag buf)]
  /\ swiftModel.blobOf (objects (swift st'))
       (segmentName st (location wr) (nextNumber wr)) = Some buf
  /\ segmentRows st' = segmentRows st.
Proof.
  unfold Write. fold (nextNumber wr). unfold swiftModel.Write. cbn beta iota.
  unfold execInsertSegment, insertSegment.
  cbn [seg.Prefix seg.Location seg.Number seg.SizeBytes seg.Hash
       rowLocation rowNumber segmentRows setSwift].
  destruct (2147483647 <? nextNumber wr)%Z.
  - intros [= <- <- <-]. split; [now right|]. split; [reflexivity|].
    split; [|reflexivity].
    cbn [swift setSwift objects swiftModel.record]. apply blobOf_put_same.
  - destruct (existsb _ (segmentRows st)); [|discriminate].
    intros [= <- <- <-]. split; [now left|]. split; [reflexivity|].
    split; [|reflexivity].
    cbn [swift setSwift objects swiftModel.record]. apply blobOf_put_same.
Qed.

(** X15: an upload to a new path is cancelled after some writes.  Cancel
    runs Delete on the path, finds no record and changes nothing: the
    segment rows stay in the table and the segment objects in the store,
    while the writer forgets its segments. *)
Theorem Cancel_of_new_upload_leaves_segments
  (fuel : nat) (p : string) (appendFlag : bool) (w : world)
  (chunks : list (list byte)) :
  recordAt w p = None -> 8 <= List.length (entropy w) ->
  (forall r, In r (segmentRows w) ->
             rowLocation r <> Enc.hexEncode (firstn 8 (entropy w))) ->
  (Z.of_nat (List.length chunks) <= 2147483647)%Z ->
  (Z.of_nat (List.length (List.concat chunks)) < 2 ^ 63)%Z ->
  exists wr0 w0 wr1 w1 wr2,
    newPlusWriter fuel p appendFlag w = (Ok wr0, w0)
    /\ writeAll chunks wr0 w0 = (Ok tt, wr1, w1)
    /\ Cancel fuel wr1 w1 = (Ok tt, wr2, w1)
    /\ cancelled wr2 = true /\ segments wr2 = []
    /\ segmentRows w1
       = segmentRows w
         ++ newRows (Enc.hexEncode (firstn 8 (entropy w))) 1 chunks
    /\ swiftModel.gather (objects (swift w1))
         (map segmentObjectPath (segments wr1))
       = Some (List.concat chunks).
Proof.
  intros Hrec Hent Hfree Hk Hlen.
  pose proof (newPlusWriter_new fuel p appendFlag w Hrec Hent) as Hnew.
  set (wr0 := mkWriter _ _ _ _ _ _) in Hnew. set (w0 := setEntropy _ w) in Hnew.
  destruct (fresh_location w Hent) as [Hns Hne].
  assert (Hc : consistent w0 wr0 []) by (now apply consistent_fresh).
  destruct (writeAll_consistent chunks wr0 w0 [] Hc) as (wr1 & w1 & Hw & Hcons & _ & Hrows & Hs);
    [unfold top; cbn; lia | exact Hlen |].
  destruct Hs as (H1 & _ & _ & H4 & _ & H6 & _).
  exists wr0, w0, wr1, w1, (setSegments [] (setCancelled wr1)).
  split; [exact Hnew|]. split; [exact Hw|]. split.
  - unfold Cancel. rewrite H1. cbn [closed wr0]. unfold Delete. unfold bind.
    rewrite readFileInfo_missing; [reflexivity|].
    rewrite H4, H6. exact Hrec.
  - split; [reflexivity|]. split; [reflexivity|]. split; [exact Hrows|].
    apply Hcons.
Qed.

(** X16: a commit that has succeeded is final for Commit and Close: a
    second Commit is refused with errCommitted, Close returns without
    error, and neither touches the tables or the store. *)
Theorem Commit_is_final
  (fuel fuel' : nat) (wr wr' : plusWriter) (st st' : world) :
  Commit fuel wr st = (Ok tt, wr', st') ->
  committed wr' = true
  /\ Commit fuel' wr' st' = (Err errCommitted, wr', st')
  /\ Close fuel' wr' st' = (Ok tt, wr', st').
Proof.
  unfold Commit at 1.
  destruct (closed wr) eqn:E1; [discriminate|].
  destruct (cancelled wr) eqn:E2; [discriminate|].
  destruct (committed wr) eqn:E3; [discriminate|].
  match goal with
  | |- context [match ?m st with _ => _ end] => destruct (m st) as [[[]| |] st1]
  end; try discriminate.
  intros [= <- <-]. split; [reflexivity|].
  unfold Close, Commit. cbn [closed cancelled committed setCommitted].
  rewrite E1, E2. cbn [negb andb]. auto.
Qed.

End StreamProps.
(** ** The buffered writer *)

Module BufferFacts.
Import path plusDriver sql SqlFacts DrvFacts PathFacts Tree SwiftFacts
       StrFacts PutProps MoveProps WriterAux AppendProps EncFacts Stream StreamFacts.
Import bufio.

(** The Write of the plusWriter and its form with the count agree. *)
Lemma wrWrite_Write (p : list byte) (fw : plusWriter.plusWriter) (st : world) :
  plusWriter.Write p fw st
  = let '((n, e), fw1, st1) := wrWrite p fw st in
    (match e with
     | None => Ok (Z.of_nat n)
     | Some (Failed x) => Err x
     | Some _ => OutOfFuel
     end, fw1, st1).
Proof.
  unfold plusWriter.Write, wrWrite, swiftModel.Write. cbn beta iota.
  destruct (execInsertSegment _ _) as [[[]| |] st2]; reflexivity.
Qed.

Lemma wrWrite_ok (p : list byte) (fw fw1 : plusWriter.plusWriter) (st st1 : world)
  (n : Z) :
  plusWriter.Write p fw st = (Ok n, fw1, st1) ->
  wrWrite p fw st = ((List.length p, None), fw1, st1).
Proof.
  unfold plusWriter.Write, wrWrite, swiftModel.Write. cbn beta iota.
  destruct (execInsertSegment _ _) as [[[]| |] st2]; intros [= <- <- <-];
    reflexivity.
Qed.

Lemma wrWrite_consistent (c : list byte) (fw : plusWriter.plusWriter) (st : world)
  (content : list byte) :
  consistent st fw content ->
  (top fw < 2147483647)%Z ->
  (Z.of_nat (List.length (content ++ c)) < 2 ^ 63)%Z ->
  exists fw1 st1,
    wrWrite c fw st = ((List.length c, None), fw1, st1)
    /\ consistent st1 fw1 (content ++ c)
    /\ top fw1 = (top fw + 1)%Z
    /\ segmentRows st1
       = segmentRows st
         ++ [mkSegmentRow (plusWriter.location fw) (top fw + 1)
               (Z.of_nat (List.length c)) (swiftModel.etag c)]
    /\ sameSession fw fw1 st st1.
Proof.
  intros Hc Ht Hl.
  destruct (Write_consistent c fw st content Hc Ht Hl) as (fw1 & st1 & Hw & H).
  exists fw1, st1. split; [exact (wrWrite_ok _ _ _ _ _ _ Hw) | exact H].
Qed.

Lemma writeLoop_exit (fuel : nat) (p : list byte) (nn : nat) (b : Writer)
  (fw : plusWriter.plusWriter) (st : world) :
  (Available b <? List.length p)%nat && isNil (err b) = false ->
  writeLoop fuel p nn b fw st = (Some (p, nn), b, fw, st).
Proof. intros H. destruct fuel; cbn [writeLoop]; now rewrite H. Qed.

Lemma writeLoop_step (fuel : nat) (p : list byte) (nn : nat) (b : Writer)
  (fw : plusWriter.plusWriter) (st : world) :
  (Available b <? List.length p)%nat && isNil (err b) = true ->
  writeLoop (S fuel) p nn b fw st
  = if (Buffered b =? 0)%nat then
      let '((n, e), fw1, st1) := wrWrite p fw st in
      writeLoop fuel (skipn n p) (nn + n) (setErr e b) fw1 st1
    else
      let n := Nat.min (Available b) (List.length p) in
      let b1 := setBuf (buf b ++ firstn n p) b in
      let '(_, b2, fw1, st1) := Flush b1 fw st in
      writeLoop fuel (skipn n p) (nn + n) b2 fw1 st1.
Proof. intros H. cbn [writeLoop]. now rewrite H. Qed.

Lemma Flush_consistent (b : Writer) (fw : plusWriter.plusWriter) (st : world)
  (stored : list byte) :
  err b = None -> buf b <> [] ->
  consistent st fw stored ->
  (top fw < 2147483647)%Z ->
  (Z.of_nat (List.length (stored ++ buf b)) < 2 ^ 63)%Z ->
  exists fw1 st1,
    Flush b fw st = (None, setBuf [] b, fw1, st1)
    /\ consistent st1 fw1 (stored ++ buf b)
    /\ top fw1 = (top fw + 1)%Z
    /\ segmentRows st1
       = segmentRows st
         ++ [mkSegmentRow (plusWriter.location fw) (top fw + 1)
               (Z.of_nat (List.length (buf b))) (swiftModel.etag (buf b))]
    /\ sameSession fw fw1 st st1.
Proof.
  intros He Hb Hc Ht Hl.
  destruct (wrWrite_consistent (buf b) fw st stored Hc Ht Hl) as (fw1 & st1 & Hw & H).
  exists fw1, st1. split; [|exact H].
  unfold Flush. rewrite He.
  destruct (Nat.eqb_spec (List.length (buf b)) 0) as [H0|H0].
  { destruct (buf b); [congruence | discriminate]. }
  rewrite Hw. now rewrite Nat.ltb_irrefl.
Qed.

Lemma Flush_empty (b : Writer) (fw : plusWriter.plusWriter) (st : world) :
  err b = None -> buf b = [] -> Flush b fw st = (None, b, fw, st).
Proof. intros He Hb. unfold Flush. now rewrite He, Hb. Qed.

Lemma Flush_failed (b : Writer) (fw : plusWriter.plusWriter) (st : world)
  (e : failure) :
  err b = Some e -> Flush b fw st = (Some e, b, fw, st).
Proof. intros He. unfold Flush. now rewrite He. Qed.

(** One Write through the buffer: the bytes end up behind the bytes
    that were there, in the segments or in the buffer; at most two
    segments are uploaded. *)
Lemma Write_buffers (fuel : nat) (p : list byte) (b : Writer)
  (fw : plusWriter.plusWriter) (st : world) (stored : list byte) :
  2 <= fuel ->
  err b = None -> List.length (buf b) <= size b -> 0 < size b ->
  consistent st fw stored ->
  (top fw + 2 <= 2147483647)%Z ->
  (Z.of_nat (List.length (stored ++ buf b ++ p)) < 2 ^ 63)%Z ->
  exists b1 fw1 st1 stored1,
    Write fuel p b fw st = ((List.length p, None), b1, fw1, st1)
    /\ err b1 = None /\ size b1 = size b /\ List.length (buf b1) <= size b1
    /\ consistent st1 fw1 stored1
    /\ stored1 ++ buf b1 = stored ++ buf b ++ p
    /\ (top fw <= top fw1 <= top fw + 2)%Z
    /\ sameSession fw fw1 st st1.
Proof.
  intros Hfuel He Hlen Hsz Hc Htop Hbound.
  destruct b as [e sz bf]. cbn [err size buf] in *. subst e.
  rewrite !length_app in Hbound.
  destruct (Nat.ltb_spec (sz - List.length bf) (List.length p)) as [Hbig|Hfit].
  - (* the data does not fit *)
    destruct fuel as [|[|fuel]]; try lia.
    unfold Write. rewrite writeLoop_step
      by (unfold Available; cbn [size buf err isNil];
          apply andb_true_iff; split; [now apply Nat.ltb_lt | reflexivity]).
    unfold Buffered. cbn [buf].
    destruct (Nat.eqb_spec (List.length bf) 0) as [Hemp|Hne].
    + (* empty buffer: the data goes to the writer directly *)
      apply length_zero_iff_nil in Hemp. subst bf. cbn [List.length app] in *.
      destruct (wrWrite_consistent p fw st stored Hc) as (fw1 & st1 & Hw & Hc1 & Ht1 & _ & Hs1);
        [lia | rewrite length_app; lia |].
      rewrite Hw. rewrite skipn_all.
      rewrite writeLoop_exit by reflexivity.
      cbn [setErr err size buf Available List.length Nat.min firstn app].
      rewrite Nat.min_0_r. cbn [firstn].
      exists (mkBufio None sz []), fw1, st1, (stored ++ p).
      split; [now rewrite Nat.add_0_r|].
      cbn [err size buf List.length].
      split; [reflexivity|]. split; [reflexivity|]. split; [lia|].
      split; [exact Hc1|]. split; [now rewrite app_nil_r|].
      split; [lia | exact Hs1].
    + (* the buffer is filled up and flushed *)
      cbv zeta. unfold Available, setBuf. cbn [size buf err].
      rewrite Nat.min_l by lia.
      set (n := sz - List.length bf) in *.
      assert (Hfirst : List.length (firstn n p) = n) by (rewrite length_firstn; lia).
      assert (Hrest : List.length (skipn n p) = List.length p - n)
        by apply length_skipn.
      destruct (Flush_consistent (mkBufio None sz (bf ++ firstn n p)) fw st stored)
        as (fw1 & st1 & Hfl & Hc1 & Ht1 & _ & Hs1);
        [reflexivity
        | cbn [buf]; destruct bf; [cbn in Hne; lia | discriminate]
        | exact Hc | lia
        | cbn [buf]; rewrite !length_app, Hfirst; lia |].
      unfold setBuf in Hfl. cbn [buf err size] in Hfl, Hc1. rewrite Hfl.
      destruct (Nat.ltb_spec sz (List.length (skipn n p))) as [Hbig2|Hfit2].
      * rewrite writeLoop_step
          by (unfold Available; cbn [size buf err isNil List.length];
              apply andb_true_iff; split; [apply Nat.ltb_lt; lia | reflexivity]).
        unfold Buffered. cbn [buf List.length Nat.eqb].
        destruct (wrWrite_consistent (skipn n p) fw1 st1 _ Hc1)
          as (fw2 & st2 & Hw & Hc2 & Ht2 & _ & Hs2);
          [lia | rewrite !length_app, Hfirst, Hrest; lia |].
        rewrite Hw. rewrite skipn_all.
        rewrite writeLoop_exit by reflexivity.
        cbn [setErr err size buf Available List.length Nat.min firstn app].
        rewrite Nat.min_0_r. cbn [firstn].
        exists (mkBufio None sz []), fw2, st2,
               ((stored ++ bf ++ firstn n p) ++ skipn n p).
        split; [f_equal; f_equal; f_equal; f_equal; lia|].
        cbn [err size buf List.length].
        split; [reflexivity|]. split; [reflexivity|]. split; [lia|].
        split; [exact Hc2|]. split.
        { rewrite app_nil_r, <- !app_assoc. now rewrite firstn_skipn. }
        split; [lia | eapply sameSession_trans; eassumption].
      * rewrite writeLoop_exit
          by (unfold Available; cbn [size buf List.length];
              apply andb_false_iff; left; apply Nat.ltb_ge; lia).
        unfold Available, setBuf. cbn [err size buf List.length app].
        rewrite Nat.sub_0_r, Nat.min_r by lia. rewrite firstn_all.
        exists (mkBufio None sz (skipn n p)), fw1, st1, (stored ++ bf ++ firstn n p).
        split; [f_equal; f_equal; f_equal; f_equal; lia|].
        cbn [err size buf].
        split; [reflexivity|]. split; [reflexivity|]. split; [lia|].
        split; [exact Hc1|]. split.
        { rewrite <- !app_assoc. now rewrite firstn_skipn. }
        split; [lia | exact Hs1].
  - (* the data fits into the buffer *)
    unfold Write. rewrite writeLoop_exit
      by (unfold Available; cbn [size buf]; apply andb_false_iff; left;
          now apply Nat.ltb_ge).
    unfold Available, setBuf. cbn [err size buf].
    rewrite Nat.min_r by lia. rewrite firstn_all.
    exists (mkBufio None sz (bf ++ p)), fw, st, stored.
    split; [reflexivity|]. cbn [err size buf].
    rewrite length_app.
    split; [reflexivity|]. split; [reflexivity|]. split; [lia|].
    split; [exact Hc|]. split; [reflexivity|].
    split; [lia | apply sameSession_refl].
Qed.

Lemma Write_holds (fuel : nat) (p : list byte) (w : bufferedWriter.bufferedWriter)
  (st : world) (content : list byte) :
  bufferedWriter.holds st w content ->
  2 <= fuel ->
  (top (bufferedWriter.fw w) + 2 <= 2147483647)%Z ->
  (Z.of_nat (List.length (content ++ p)) < 2 ^ 63)%Z ->
  exists w1 st1,
    bufferedWriter.Write fuel p w st = ((List.length p, None), w1, st1)
    /\ bufferedWriter.holds st1 w1 (content ++ p)
    /\ (top (bufferedWriter.fw w) <= top (bufferedWriter.fw w1)
        <= top (bufferedWriter.fw w) + 2)%Z
    /\ sameSession (bufferedWriter.fw w) (bufferedWriter.fw w1) st st1.
Proof.
  intros (He & Hlen & Hsz & stored & Hc & ->) Hfuel Htop Hbound.
  rewrite <- app_assoc in Hbound.
  destruct (Write_buffers fuel p _ _ st stored Hfuel He Hlen Hsz Hc Htop Hbound)
    as (b1 & fw1 & st1 & stored1 & Hw & He1 & Hs1 & Hl1 & Hc1 & Heq & Ht1 & Hss).
  exists (bufferedWriter.mkBuffered fw1 b1), st1.
  split; [unfold bufferedWriter.Write; now rewrite Hw|].
  split; [|split; [exact Ht1 | exact Hss]].
  unfold bufferedWriter.holds. cbn [bufferedWriter.fw bufferedWriter.bw].
  split; [exact He1|]. split; [exact Hl1|]. split; [lia|].
  exists stored1. split; [exact Hc1|]. now rewrite <- app_assoc.
Qed.

Lemma writeAll_holds (fuel : nat) (chunks : list (list byte)) :
  forall (w : bufferedWriter.bufferedWriter) (st : world) (content : list byte),
    bufferedWriter.holds st w content ->
    2 <= fuel ->
    (top (bufferedWriter.fw w) + 2 * Z.of_nat (List.length chunks) <= 2147483647)%Z ->
    (Z.of_nat (List.length (content ++ List.concat chunks)) < 2 ^ 63)%Z ->
    exists w1 st1,
      bufferedWriter.writeAll fuel chunks w st = (None, w1, st1)
      /\ bufferedWriter.holds st1 w1 (content ++ List.concat chunks)
      /\ (top (bufferedWriter.fw w) <= top (bufferedWriter.fw w1)
          <= top (bufferedWriter.fw w) + 2 * Z.of_nat (List.length chunks))%Z
      /\ sameSession (bufferedWriter.fw w) (bufferedWriter.fw w1) st st1.
Proof.
  induction chunks as [|c chunks IH]; intros w st content Hh Hfuel Htop Hbound.
  - exists w, st. cbn [bufferedWriter.writeAll List.concat List.length].
    rewrite app_nil_r. split; [reflexivity|]. split; [exact Hh|].
    split; [lia | apply sameSession_refl].
  - cbn [List.concat List.length] in *. rewrite app_assoc in Hbound.
    destruct (Write_holds fuel c w st content Hh Hfuel) as (w1 & st1 & Hw & Hh1 & Ht1 & Hs1).
    { lia. }
    { rewrite !length_app in Hbound. rewrite length_app. lia. }
    destruct (IH w1 st1 (content ++ c) Hh1 Hfuel) as (w2 & st2 & Hw2 & Hh2 & Ht2 & Hs2).
    { lia. }
    { exact Hbound. }
    exists w2, st2. cbn [bufferedWriter.writeAll]. rewrite Hw.
    split; [exact Hw2|]. split; [now rewrite app_assoc|].
    split; [lia | eapply sameSession_trans; eassumption].
Qed.

Lemma Size_holds (w : bufferedWriter.bufferedWriter) (st : world)
  (content : list byte) :
  bufferedWriter.holds st w content ->
  (Z.of_nat (List.length content) < 2 ^ 63)%Z ->
  bufferedWriter.Size w = Z.of_nat (List.length content).
Proof.
  intros (_ & _ & _ & stored & Hc & ->) Hb. unfold bufferedWriter.Size, Buffered.
  rewrite (c_size _ _ _ Hc). rewrite length_app in *.
  rewrite wrapI64_small; lia.
Qed.

(** Flushing a buffer that has no error: what is buffered becomes a
    segment, and the plusWriter holds all the content. *)
Lemma Flush_holds (w : bufferedWriter.bufferedWriter) (st : world)
  (content : list byte) :
  bufferedWriter.holds st w content ->
  (top (bufferedWriter.fw w) < 2147483647)%Z ->
  (Z.of_nat (List.length content) < 2 ^ 63)%Z ->
  exists fw1 st1,
    Flush (bufferedWriter.bw w) (bufferedWriter.fw w) st
    = (None, setBuf [] (bufferedWriter.bw w), fw1, st1)
    /\ consistent st1 fw1 content
    /\ sameSession (bufferedWriter.fw w) fw1 st st1
    /\ segmentRows st1
       = segmentRows st
         ++ match buf (bufferedWriter.bw w) with
            | [] => []
            | l => [mkSegmentRow (plusWriter.location (bufferedWriter.fw w))
                      (top (bufferedWriter.fw w) + 1)
                      (Z.of_nat (List.length l)) (swiftModel.etag l)]
            end.
Proof.
  intros (He & _ & _ & stored & Hc & ->) Htop Hb.
  destruct (buf (bufferedWriter.bw w)) as [|x l] eqn:Ebuf.
  - exists (bufferedWriter.fw w), st. rewrite (Flush_empty _ _ _ He Ebuf).
    rewrite app_nil_r in *. split.
    + destruct (bufferedWriter.bw w) as [e sz bf]. cbn in *. now subst.
    + split; [exact Hc|]. split; [apply sameSession_refl | now rewrite app_nil_r].
  - rewrite <- Ebuf in *.
    destruct (Flush_consistent _ (bufferedWriter.fw w) st stored He) as (fw1 & st1 & Hf & Hc1 & _ & Hr & Hs);
      [rewrite Ebuf; discriminate | exact Hc | exact Htop | exact Hb |].
    exists fw1, st1. split; [exact Hf|]. split; [exact Hc1|]. split; [exact Hs|].
    exact Hr.
Qed.

End BufferFacts.

Module BufferProps.
Import path plusDriver sql SqlFacts DrvFacts PathFacts Tree SwiftFacts
       StrFacts PutProps MoveProps WriterAux AppendProps EncFacts Stream StreamFacts
       BufferFacts.
Import bufio.

Lemma validPath_length (p : string) : validPath p = true -> 2 <= String.length p.
Proof.
  intros H. pose proof (validPath_Dir_length _ H).
  pose proof (Dir_nonempty p). destruct (Dir p); [congruence | cbn in *; lia].
Qed.

(** X17: a buffered writer that holds the bytes [content] (in segments
    and in its buffer) takes any list of chunks.  Every Write reports the
    full length, Size is the number of bytes written so far, Commit
    flushes the buffer and commits, and a get then returns the old bytes
    followed by the chunks in order, however the buffer has cut them into
    segments. *)
Theorem buffered_chunks_are_read_back
  (fuel : nat) (w : bufferedWriter.bufferedWriter) (st : world)
  (content : list byte) (chunks : list (list byte)) :
  bufferedWriter.holds st w content ->
  plusWriter.closed (bufferedWriter.fw w) = false ->
  plusWriter.cancelled (bufferedWriter.fw w) = false ->
  plusWriter.committed (bufferedWriter.fw w) = false ->
  validPath (plusWriter.fullPath (bufferedWriter.fw w)) = true ->
  String.length (plusWriter.fullPath (bufferedWriter.fw w)) <= fuel ->
  (top (bufferedWriter.fw w) + 2 * Z.of_nat (List.length chunks) + 1
   <= 2147483647)%Z ->
  (Z.of_nat (List.length (content ++ List.concat chunks)) < 2 ^ 63)%Z ->
  exists w1 st1 w2 st2,
    bufferedWriter.writeAll fuel chunks w st = (None, w1, st1)
    /\ bufferedWriter.Size w1
       = Z.of_nat (List.length (content ++ List.concat chunks))
    /\ bufferedWriter.Commit fuel w1 st1 = (None, w2, st2)
    /\ fst (GetContent (plusWriter.fullPath (bufferedWriter.fw w)) st2)
       = Ok (content ++ List.concat chunks).
Proof.
  intros Hh Hc1 Hc2 Hc3 Hp Hfuel Htop Hbound.
  pose proof (validPath_length _ Hp) as H2.
  destruct (writeAll_holds fuel chunks w st content Hh) as (w1 & st1 & Hw & Hh1 & Ht1 & Hs1);
    [lia | lia | exact Hbound |].
  destruct (Flush_holds w1 st1 _ Hh1) as (fw2 & st2 & Hf & Hcons & Hs2 & _);
    [lia | exact Hbound |].
  pose proof (sameSession_trans _ _ _ _ _ _ Hs1 Hs2) as (H1 & H2' & H3 & H4 & _).
  destruct (Commit_reads_back fuel fw2 st2 _ Hcons) as (st3 & Hcommit & _ & Hget & _);
    [congruence | congruence | congruence | now rewrite H4 | now rewrite H4
    | exact Hbound |].
  exists w1, st1. eexists. exists st3.
  split; [exact Hw|]. split; [now apply (Size_holds w1 st1)|]. split.
  - unfold bufferedWriter.Commit, bufferedWriter.flushThen. rewrite Hf, Hcommit.
    reflexivity.
  - now rewrite H4 in Hget.
Qed.

(** X18: Writer on a path without record, any number of writes through
    the buffer, Commit: a get returns the chunks in order, for every
    chunk size of the store (0 stands for the default size of bufio). *)
Theorem Writer_round_trip
  (fuel : nat) (p : string) (appendFlag : bool) (w : world)
  (chunks : list (list byte)) :
  validPath p = true -> String.length p <= fuel ->
  recordAt w p = None -> 8 <= List.length (entropy w) ->
  (forall r, In r (segmentRows w) ->
             rowLocation r <> Enc.hexEncode (firstn 8 (entropy w))) ->
  (2 * Z.of_nat (List.length chunks) + 1 <= 2147483647)%Z ->
  (Z.of_nat (List.length (List.concat chunks)) < 2 ^ 63)%Z ->
  exists bw0 w0 bw1 w1 bw2 w2,
    bufferedWriter.Writer fuel p appendFlag w = (Ok bw0, w0)
    /\ bufferedWriter.writeAll fuel chunks bw0 w0 = (None, bw1, w1)
    /\ bufferedWriter.Size bw1 = Z.of_nat (List.length (List.concat chunks))
    /\ bufferedWriter.Commit fuel bw1 w1 = (None, bw2, w2)
    /\ fst (GetContent p w2) = Ok (List.concat chunks).
Proof.
  intros Hp Hfuel Hrec Hent Hfree Hk Hlen.
  pose proof (newPlusWriter_new fuel p appendFlag w Hrec Hent) as Hnew.
  set (wr0 := plusWriter.mkWriter _ _ _ _ _ _) in Hnew.
  set (w0 := setEntropy _ w) in Hnew.
  destruct (fresh_location w Hent) as [Hns Hne].
  assert (Hc : consistent w0 wr0 []) by (now apply consistent_fresh).
  set (bw0 := bufferedWriter.newBufferedWriter wr0 (ChunkSize (swift w0))).
  assert (Hh : bufferedWriter.holds w0 bw0 []).
  { unfold bufferedWriter.holds, bw0, bufferedWriter.newBufferedWriter, NewWriterSize.
    cbn [bufferedWriter.bw bufferedWriter.fw err size buf List.length].
    split; [reflexivity|]. split; [lia|]. split.
    - destruct (Nat.eqb_spec (ChunkSize (swift w0)) 0); [unfold defaultBufSize|]; lia.
    - exists []. split; [exact Hc | reflexivity]. }
  pose proof (validPath_length _ Hp) as H2.
  assert (Htop0 : top (bufferedWriter.fw bw0) = 0%Z) by reflexivity.
  destruct (writeAll_holds fuel chunks bw0 w0 [] Hh) as (bw1 & w1 & Hw & Hh1 & Ht1 & Hs1);
    [lia | lia | exact Hlen |].
  destruct (Flush_holds bw1 w1 _ Hh1) as (fw2 & w2 & Hf & Hcons & Hs2 & _);
    [lia | exact Hlen |].
  pose proof (sameSession_trans _ _ _ _ _ _ Hs1 Hs2) as (H1 & H2' & H3 & H4 & _).
  destruct (Commit_reads_back fuel fw2 w2 _ Hcons) as (w3 & Hcommit & _ & Hget & _);
    [now rewrite H1 | now rewrite H2' | now rewrite H3 | now rewrite H4
    | now rewrite H4 | exact Hlen |].
  exists bw0, w0, bw1, w1. eexists. exists w3.
  split; [|split; [exact Hw|split; [|split]]].
  - unfold bufferedWriter.Writer. unfold bind at 1. rewrite Hnew. reflexivity.
  - now apply (Size_holds bw1 w1).
  - unfold bufferedWriter.Commit, bufferedWriter.flushThen. rewrite Hf, Hcommit.
    reflexivity.
  - now rewrite H4 in Hget.
Qed.

(** X19: data that fits into what is left of the buffer stays in
    memory: Write reports the full length, and neither the plusWriter nor
    the tables nor the store are touched. *)
Theorem small_writes_stay_in_the_buffer
  (fuel : nat) (p : list byte) (w : bufferedWriter.bufferedWriter) (st : world) :
  err (bufferedWriter.bw w) = None ->
  List.length p <= Available (bufferedWriter.bw w) ->
  bufferedWriter.Write fuel p w st
  = ((List.length p, None),
     bufferedWriter.mkBuffered (bufferedWriter.fw w)
       (setBuf (buf (bufferedWriter.bw w) ++ p) (bufferedWriter.bw w)),
     st).
Proof.
  intros He Hfit. unfold bufferedWriter.Write, Write.
  rewrite writeLoop_exit
    by (apply andb_false_iff; left; now apply Nat.ltb_ge).
  rewrite He. rewrite Nat.min_r by exact Hfit. now rewrite firstn_all.
Qed.

(** X20: an error of the buffer is sticky.  Once a write to the
    plusWriter has failed, Write, Commit, Cancel and Close all return
    this error and do nothing else: the upload can neither be committed
    nor cancelled through the buffered writer, and Delete is not run. *)
Theorem buffer_error_is_sticky
  (fuel : nat) (p : list byte) (w : bufferedWriter.bufferedWriter) (st : world)
  (e : failure) :
  err (bufferedWriter.bw w) = Some e ->
  bufferedWriter.Write fuel p w st = ((0, Some e), w, st)
  /\ bufferedWriter.Commit fuel w st = (Some e, w, st)
  /\ bufferedWriter.Cancel fuel w st = (Some e, w, st)
  /\ bufferedWriter.Close fuel w st = (Some e, w, st).
Proof.
  intros He. destruct w as [fw b]. cbn [bufferedWriter.bw] in He.
  unfold bufferedWriter.Commit, bufferedWriter.Cancel, bufferedWriter.Close,
    bufferedWriter.flushThen, bufferedWriter.Write, Write.
  cbn [bufferedWriter.bw bufferedWriter.fw].
  rewrite (Flush_failed _ _ _ _ He).
  rewrite writeLoop_exit
    by (rewrite He; apply andb_false_iff; now right).
  rewrite He. auto.
Qed.

(** X21: Cancel through the buffer flushes first.  With bytes in the
    buffer and no record at the path, the bytes are uploaded as one more
    segment and its row is inserted; then the plusWriter cancels, which
    removes nothing, so the row stays. *)
Theorem Cancel_uploads_the_buffer_first
  (fuel : nat) (w : bufferedWriter.bufferedWriter) (st : world)
  (content : list byte) :
  bufferedWriter.holds st w content ->
  buf (bufferedWriter.bw w) <> [] ->
  plusWriter.closed (bufferedWriter.fw w) = false ->
  recordAt st (plusWriter.fullPath (bufferedWriter.fw w)) = None ->
  (top (bufferedWriter.fw w) < 2147483647)%Z ->
  (Z.of_nat (List.length content) < 2 ^ 63)%Z ->
  exists w1 st1,
    bufferedWriter.Cancel fuel w st = (None, w1, st1)
    /\ segmentRows st1
       = segmentRows st
         ++ [mkSegmentRow (plusWriter.location (bufferedWriter.fw w))
               (top (bufferedWriter.fw w) + 1)
               (Z.of_nat (List.length (buf (bufferedWriter.bw w))))
               (swiftModel.etag (buf (bufferedWriter.bw w)))]
    /\ files st1 = files st
    /\ plusWriter.cancelled (bufferedWriter.fw w1) = true
    /\ plusWriter.segments (bufferedWriter.fw w1) = [].
Proof.
  intros Hh Hbuf Hcl Hrec Htop Hb.
  destruct (Flush_holds w st content Hh Htop Hb) as (fw1 & st1 & Hf & _ & Hs & Hrows).
  destruct Hs as (H1 & _ & _ & H4 & _ & H6 & _).
  exists (bufferedWriter.mkBuffered
            (plusWriter.setSegments [] (plusWriter.setCancelled fw1))
            (setBuf [] (bufferedWriter.bw w))), st1.
  split; [|split; [|split; [exact H6 | split; reflexivity]]].
  - unfold bufferedWriter.Cancel, bufferedWriter.flushThen. rewrite Hf.
    unfold plusWriter.Cancel. rewrite H1, Hcl. unfold Delete. unfold bind.
    rewrite readFileInfo_missing; [reflexivity|].
    rewrite H4, H6. exact Hrec.
  - rewrite Hrows. destruct (buf (bufferedWriter.bw w)); [congruence | reflexivity].
Qed.

(** X29: Close on a buffered writer that is neither committed nor
    cancelled flushes the buffer and commits: the plusWriter is marked
    committed, the buffer is empty, a get returns the content, and a
    second Close returns without error and changes nothing. *)
Theorem Close_flushes_and_commits
  (fuel : nat) (w : bufferedWriter.bufferedWriter) (st : world)
  (content : list byte) :
  bufferedWriter.holds st w content ->
  plusWriter.closed (bufferedWriter.fw w) = false ->
  plusWriter.cancelled (bufferedWriter.fw w) = false ->
  plusWriter.committed (bufferedWriter.fw w) = false ->
  validPath (plusWriter.fullPath (bufferedWriter.fw w)) = true ->
  String.length (plusWriter.fullPath (bufferedWriter.fw w)) <= fuel ->
  (top (bufferedWriter.fw w) < 2147483647)%Z ->
  (Z.of_nat (List.length content) < 2 ^ 63)%Z ->
  exists w1 st1,
    bufferedWriter.Close fuel w st = (None, w1, st1)
    /\ plusWriter.committed (bufferedWriter.fw w1) = true
    /\ buf (bufferedWriter.bw w1) = []
    /\ fst (GetContent (plusWriter.fullPath (bufferedWriter.fw w)) st1)
       = Ok content
    /\ bufferedWriter.Close fuel w1 st1 = (None, w1, st1).
Proof.
  intros Hh Hc1 Hc2 Hc3 Hp Hfuel Htop Hb.
  pose proof Hh as (He & _).
  destruct (Flush_holds w st content Hh Htop Hb) as (fw1 & st1 & Hf & Hcons & Hs & _).
  destruct Hs as (H1 & H2 & H3 & H4 & _).
  destruct (Commit_reads_back fuel fw1 st1 _ Hcons) as (st2 & Hcommit & _ & Hget & _);
    [congruence | congruence | congruence | now rewrite H4 | now rewrite H4
    | exact Hb |].
  exists (bufferedWriter.mkBuffered (plusWriter.setCommitted fw1)
            (setBuf [] (bufferedWriter.bw w))), st2.
  split; [|split; [reflexivity | split; [reflexivity | split]]].
  - unfold bufferedWriter.Close, bufferedWriter.flushThen. rewrite Hf.
    unfold plusWriter.Close. rewrite H1, H2, H3, Hc1, Hc2, Hc3. cbn [negb andb].
    now rewrite Hcommit.
  - now rewrite H4 in Hget.
  - unfold bufferedWriter.Close, bufferedWriter.flushThen.
    cbn [bufferedWriter.bw bufferedWriter.fw].
    rewrite Flush_empty by (cbn [setBuf err buf]; auto).
    unfold plusWriter.Close.
    cbn [plusWriter.closed plusWriter.committed plusWriter.setCommitted negb andb].
    now rewrite H1, Hc1.
Qed.

End BufferProps.
(** ** Token scopes *)

Module RegexFacts.
Import regexp.

Lemma void_nullable (r : regex) : void r = true -> nullable r = false.
Proof.
  induction r as [| |f|a IHa b IHb|a IHa b IHb|a IHa]; cbn [void nullable];
    try discriminate; try reflexivity.
  - intros H. apply orb_true_iff in H as [H|H].
    + now rewrite (IHa H).
    + rewrite (IHb H). apply andb_false_r.
  - intros H. apply andb_true_iff in H as [H1 H2].
    now rewrite (IHa H1), (IHb H2).
Qed.

Lemma void_deriv (c : ascii) (r : regex) : void r = true -> void (deriv c r) = true.
Proof.
  induction r as [| |f|a IHa b IHb|a IHa b IHb|a IHa]; cbn [void deriv];
    try discriminate; try reflexivity.
  - intros H. apply orb_true_iff in H as [H|H].
    + rewrite (void_nullable a H). cbn [void]. now rewrite (IHa H).
    + destruct (nullable a); cbn [void]; rewrite ?(IHb H), H;
        now rewrite ?orb_true_r.
  - intros H. apply andb_true_iff in H as [H1 H2].
    now rewrite (IHa H1), (IHb H2).
Qed.

Lemma void_no_match (s : string) :
  forall r, void r = true -> MatchString r s = false.
Proof.
  induction s as [|c s IH]; intros r H; cbn [MatchString].
  - now apply void_nullable.
  - apply IH. now apply void_deriv.
Qed.

Lemma avoids_deriv_void (c : ascii) (r : regex) :
  avoids c r = true -> void (deriv c r) = true.
Proof.
  induction r as [| |f|a IHa b IHb|a IHa b IHb|a IHa]; cbn [avoids deriv void];
    try reflexivity.
  - intros H. apply negb_true_iff in H. now rewrite H.
  - intros H. apply andb_true_iff in H as [H1 H2].
    destruct (nullable a); cbn [void]; now rewrite ?(IHa H1), ?(IHb H2).
  - intros H. apply andb_true_iff in H as [H1 H2].
    now rewrite (IHa H1), (IHb H2).
  - intros H. now rewrite (IHa H).
Qed.

Lemma avoids_deriv (c x : ascii) (r : regex) :
  avoids c r = true -> avoids c (deriv x r) = true.
Proof.
  induction r as [| |f|a IHa b IHb|a IHa b IHb|a IHa]; cbn [avoids deriv];
    try reflexivity.
  - intros _. now destruct (f x).
  - intros H. apply andb_true_iff in H as [H1 H2].
    destruct (nullable a); cbn [avoids]; now rewrite ?(IHa H1), ?(IHb H2), ?H2.
  - intros H. apply andb_true_iff in H as [H1 H2].
    now rewrite (IHa H1), (IHb H2).
  - intros H. now rewrite (IHa H), H.
Qed.

(** A byte that no class of the expression contains does not occur in a
    string that matches. *)
Lemma match_without (c : ascii) (s : string) :
  forall r, avoids c r = true -> MatchString r s = true ->
            strings.without c s = true.
Proof.
  induction s as [|x s IH]; intros r Ha Hm; [reflexivity|].
  cbn [MatchString strings.without] in *.
  destruct (Ascii.eqb_spec x c) as [->|Hne].
  - rewrite void_no_match in Hm by (now apply avoids_deriv_void). discriminate.
  - cbn [negb andb]. apply (IH (deriv x r)); [now apply avoids_deriv | exact Hm].
Qed.

End RegexFacts.

Module SplitFacts.
Import strings StrFacts.

Lemma Split_not_nil (s : string) (sep : ascii) : Split s sep <> [].
Proof.
  destruct s as [|c r]; cbn [Split]; [discriminate|].
  destruct (Ascii.eqb c sep); [discriminate|].
  destruct (Split r sep); discriminate.
Qed.

Lemma Split_without (s : string) (sep : ascii) :
  without sep s = true -> Split s sep = [s].
Proof.
  induction s as [|c r IH]; [reflexivity|]. cbn [without Split]. intros H.
  apply andb_true_iff in H as [H1 H2]. apply negb_true_iff in H1.
  now rewrite H1, (IH H2).
Qed.

Lemma Split_app (a b : string) (sep : ascii) :
  without sep a = true -> Split (a +++ String sep b) sep = a :: Split b sep.
Proof.
  induction a as [|c r IH]; cbn [without String.append Split].
  - intros _. now rewrite Ascii.eqb_refl.
  - intros H. apply andb_true_iff in H as [H1 H2]. apply negb_true_iff in H1.
    now rewrite H1, (IH H2).
Qed.

Lemma Split_concat (l : list string) (sep : ascii) :
  l <> [] -> Forall (fun a => without sep a = true) l ->
  Split (String.concat (String sep "") l) sep = l.
Proof.
  induction l as [|a l IH]; [congruence|]. intros _ H.
  inversion H as [|? ? Ha Hl]; subst.
  destruct l as [|b l]; [now apply Split_without|].
  change (String.concat (String sep "") (a :: b :: l))
    with (a +++ String sep (String.concat (String sep "") (b :: l))).
  rewrite (Split_app _ _ _ Ha). f_equal. apply IH; [discriminate | exact Hl].
Qed.

Lemma concat_Split (s : string) (sep : ascii) :
  String.concat (String sep "") (Split s sep) = s.
Proof.
  induction s as [|c r IH]; [reflexivity|]. cbn [Split].
  destruct (Ascii.eqb_spec c sep) as [->|Hne].
  - pose proof (Split_not_nil r sep).
    destruct (Split r sep) as [|x xs] eqn:E; [congruence|].
    change (String.concat (String sep "") ("" :: x :: xs))
      with (String sep (String.concat (String sep "") (x :: xs))).
    now rewrite IH.
  - pose proof (Split_not_nil r sep).
    destruct (Split r sep) as [|x xs] eqn:E; [congruence|].
    rewrite <- IH. destruct xs; reflexivity.
Qed.

Lemma Split_all_without (s : string) (sep : ascii) :
  Forall (fun a => without sep a = true) (Split s sep).
Proof.
  induction s as [|c r IH]; cbn [Split]; [repeat constructor|].
  destruct (Ascii.eqb c sep) eqn:E; [now constructor|].
  destruct (Split r sep) as [|x xs]; [repeat constructor; cbn; now rewrite E|].
  inversion IH; subst. constructor; [|assumption].
  cbn [without]. now rewrite E.
Qed.

Lemma without_append (sep : ascii) (a b : string) :
  without sep (a +++ b) = without sep a && without sep b.
Proof.
  induction a as [|c a IH]; [reflexivity|]. cbn [String.append without].
  now rewrite IH, andb_assoc.
Qed.

End SplitFacts.

Module ScopeProps.
Import regexp strings auth RegexFacts SplitFacts StrFacts.

Lemma isAction_cases (a : string) : isAction a = true <-> a = "pull" \/ a = "push".
Proof.
  unfold isAction. rewrite orb_true_iff, !String.eqb_eq. tauto.
Qed.

Lemma fields_three (input : string) :
  (3 <? List.length (Split input ":"))%nat = false ->
  (List.length (Split input ":") =? 2)%nat = false ->
  (List.length (Split input ":") =? 1)%nat = false ->
  exists t n a,
    Split input ":" = [t; n; a]
    /\ input = t +++ ":" +++ n +++ ":" +++ a
    /\ without ":" n = true /\ without ":" a = true.
Proof.
  intros H3 H2 H1. pose proof (Split_not_nil input ":") as H0.
  pose proof (concat_Split input ":") as Hc.
  pose proof (Split_all_without input ":") as Hw.
  apply Nat.ltb_ge in H3. apply Nat.eqb_neq in H2. apply Nat.eqb_neq in H1.
  destruct (Split input ":") as [|t [|n [|a [|x l]]]]; cbn in *;
    try congruence; try lia.
  exists t, n, a. split; [reflexivity|]. split; [now rewrite <- Hc|].
  inversion Hw as [|? ? _ Hw1]; subst. inversion Hw1 as [|? ? Hn Hw2]; subst.
  inversion Hw2; subst. auto.
Qed.

(** X22: a repository scope with a name that the expression accepts and
    with actions among pull and push, written as a client writes it
    (type:name:action,action), is parsed back to itself. *)
Theorem ParseScope_reads_back_a_repository_scope
  (name : string) (actions : list string) :
  String.length name <= 256 ->
  MatchString repoNameRegexp name = true ->
  actions <> [] -> Forall (fun a => a = "pull" \/ a = "push") actions ->
  ParseScope (render (mkScope "repository" name actions))
  = Parsed (mkScope "repository" name actions).
Proof.
  intros Hlen Hm Hne Hact.
  assert (Hname : without ":" name = true).
  { apply (match_without ":" name repoNameRegexp); [reflexivity | exact Hm]. }
  assert (Hcolon : Forall (fun a => without ":" a = true) actions).
  { eapply Forall_impl; [|exact Hact]. intros a [->| ->]; reflexivity. }
  assert (Hcomma : Forall (fun a => without "," a = true) actions).
  { eapply Forall_impl; [|exact Hact]. intros a [->| ->]; reflexivity. }
  assert (Hjoin : without ":" (String.concat "," actions) = true).
  { clear Hne Hact Hcomma. induction actions as [|a l IH]; [reflexivity|].
    inversion Hcolon as [|? ? Ha Hl]; subst.
    destruct l as [|b l]; [exact Ha|].
    change (String.concat "," (a :: b :: l))
      with (a +++ "," +++ String.concat "," (b :: l)).
    rewrite !without_append, Ha, (IH Hl). reflexivity. }
  unfold render. cbn [ResourceType ResourceName Actions].
  set (acts := String.concat "," actions) in *.
  assert (Hfields : Split ("repository" +++ ":" +++ name +++ ":" +++ acts) ":"
                    = ["repository"; name; acts]).
  { change ("repository" +++ ":" +++ name +++ ":" +++ acts)
      with ("repository" +++ String ":" (name +++ String ":" acts)).
    rewrite Split_app by reflexivity. rewrite (Split_app _ _ _ Hname).
    now rewrite (Split_without _ _ Hjoin). }
  unfold ParseScope. rewrite Hfields.
  cbn [nth List.length ResourceType ResourceName Actions].
  change (3 <? 3)%nat with false. change (3 =? 2)%nat with false.
  change (3 =? 1)%nat with false.
  change (("repository" +++ ":" +++ name +++ ":" +++ acts) =? "") with false.
  change ("repository" =? "") with false.
  change ("repository" =? "registry") with false.
  change ("repository" =? "repository") with true.
  cbn beta iota. unfold acts. rewrite (Split_concat _ _ Hne Hcomma).
  destruct actions as [|a l]; [congruence|]. cbn [List.length Nat.eqb].
  apply Nat.ltb_ge in Hlen. rewrite Hlen, Hm. cbn [negb].
  replace (forallb isAction (a :: l)) with true; [reflexivity|].
  symmetry. apply forallb_forall. intros x Hx. apply isAction_cases.
  rewrite Forall_forall in Hact. now apply Hact.
Qed.

(** X23: what ParseScope accepts.  A scope that it returns is either the
    catalog of the registry with the single action "*" (whatever actions
    were asked for), or a repository with a name of at most 256 bytes
    that the expression matches and with actions among pull and push; in
    the second case the input is the scope as a client writes it. *)
Theorem ParseScope_accepts_only (input : string) (scope : Scope) :
  ParseScope input = Parsed scope ->
  (scope = mkScope "registry" "catalog" ["*"]
   /\ exists asked, input = "registry:catalog:" +++ asked
                    /\ without ":" asked = true)
  \/ (ResourceType scope = "repository"
      /\ String.length (ResourceName scope) <= 256
      /\ MatchString repoNameRegexp (ResourceName scope) = true
      /\ Actions scope <> []
      /\ (forall a, In a (Actions scope) -> a = "pull" \/ a = "push")
      /\ input = render scope).
Proof.
  unfold ParseScope.
  destruct (input =? ""); [discriminate|].
  destruct (nth 0 (Split input ":") "" =? ""); [discriminate|].
  destruct (3 <? List.length (Split input ":"))%nat eqn:H3; [discriminate|].
  destruct (List.length (Split input ":") =? 2)%nat eqn:H2; [discriminate|].
  destruct (List.length (Split input ":") =? 1)%nat eqn:H1; [discriminate|].
  destruct (fields_three input H3 H2 H1) as (t & n & a & Hf & Hin & Hn & Ha).
  rewrite Hf. cbn [nth ResourceType ResourceName Actions].
  destruct (List.length (Split a ",") =? 0)%nat; [discriminate|].
  destruct (String.eqb_spec t "registry") as [->|Hreg].
  - destruct (String.eqb_spec n "catalog") as [->|Hcat]; [|discriminate].
    cbn [negb]. intros [= <-]. left. split; [reflexivity|].
    exists a. split; [exact Hin | exact Ha].
  - destruct (String.eqb_spec t "repository") as [->|Hrep]; [|discriminate].
    destruct (Nat.ltb_spec 256 (String.length n)); [discriminate|].
    destruct (MatchString repoNameRegexp n) eqn:Hm; [|discriminate].
    cbn [negb]. destruct (forallb isAction (Split a ",")) eqn:Hact; [|discriminate].
    intros [= <-]. right. cbn [ResourceType ResourceName Actions].
    split; [reflexivity|]. split; [lia|]. split; [exact Hm|].
    split; [apply Split_not_nil|]. split.
    + intros x Hx. apply isAction_cases. rewrite forallb_forall in Hact. auto.
    + unfold render. cbn [ResourceType ResourceName Actions].
      now rewrite (concat_Split a ",").
Qed.

(** X24: an empty list of actions is reported as an invalid action.  The
    error errorScopeActionUndefined ("actions must not be empty") is
    declared but never returned: strings.Split always yields an element,
    so a repository scope that ends in a colon has the one action "". *)
Theorem empty_actions_are_invalid_not_undefined (name : string) :
  String.length name <= 256 ->
  MatchString repoNameRegexp name = true ->
  ParseScope ("repository:" +++ name +++ ":") = Rejected errorScopeActionInvalid
  /\ forall input, ParseScope input <> Rejected errorScopeActionUndefined.
Proof.
  intros Hlen Hm. split.
  - assert (Hname : without ":" name = true).
    { apply (match_without ":" name repoNameRegexp); [reflexivity | exact Hm]. }
    assert (Hfields : Split ("repository:" +++ name +++ ":") ":"
                      = ["repository"; name; ""]).
    { change ("repository:" +++ name +++ ":")
        with ("repository" +++ String ":" (name +++ String ":" "")).
      rewrite Split_app by reflexivity. now rewrite (Split_app _ _ _ Hname). }
    unfold ParseScope. rewrite Hfields.
    cbn [nth List.length ResourceType ResourceName Actions Split].
    change (3 <? 3)%nat with false. change (3 =? 2)%nat with false.
    change (3 =? 1)%nat with false. change (1 =? 0)%nat with false.
    change (("repository:" +++ name +++ ":") =? "") with false.
    change ("repository" =? "") with false.
    change ("repository" =? "registry") with false.
    change ("repository" =? "repository") with true.
    cbn beta iota. apply Nat.ltb_ge in Hlen. rewrite Hlen, Hm. reflexivity.
  - intros input. unfold ParseScope.
    repeat match goal with
           | |- context [if ?b then _ else _] => destruct b
           end; discriminate.
Qed.

Lemma ParseScope_shape (input : string) (scope : Scope) :
  ParseScope input = Parsed scope ->
  scope = mkScope "registry" "catalog" ["*"]
  \/ (ResourceType scope = "repository"
      /\ forall a, In a (Actions scope) -> isAction a = true).
Proof.
  unfold ParseScope.
  destruct (input =? ""); [discriminate|].
  destruct (nth 0 (Split input ":") "" =? ""); [discriminate|].
  destruct (3 <? List.length (Split input ":"))%nat; [discriminate|].
  destruct (List.length (Split input ":") =? 2)%nat; [discriminate|].
  destruct (List.length (Split input ":") =? 1)%nat; [discriminate|].
  cbn [ResourceType ResourceName Actions].
  destruct (List.length (Split (nth 2 (Split input ":") "") ",") =? 0)%nat;
    [discriminate|].
  destruct (String.eqb_spec (nth 0 (Split input ":") "") "registry") as [Hreg|Hreg].
  - destruct (String.eqb_spec (nth 1 (Split input ":") "") "catalog") as [Hcat|Hcat];
      [|discriminate].
    cbn [negb]. intros [= <-]. left. now rewrite Hreg, Hcat.
  - destruct (String.eqb_spec (nth 0 (Split input ":") "") "repository") as [Hrep|Hrep];
      [|discriminate].
    destruct (256 <? _)%nat; [discriminate|].
    destruct (MatchString repoNameRegexp _); [|discriminate].
    cbn [negb]. destruct (forallb isAction _) eqn:Hact; [|discriminate].
    intros [= <-]. right. cbn [ResourceType Actions]. split; [exact Hrep|].
    now apply forallb_forall.
Qed.

(** X25: what the expression for repository names lets through: the
    name is not empty, it begins with a lower-case letter or a digit, and
    it has no byte besides lower-case letters, digits, '.', '_', '-' and
    '/'. *)
Theorem repository_names_use_only_the_classes (name : string) :
  MatchString repoNameRegexp name = true ->
  (exists c rest, name = String c rest /\ lowerOrDigit c = true)
  /\ forall c, lowerOrDigit c = false -> separator c = false ->
               c <> "/"%char -> without c name = true.
Proof.
  intros Hm. split.
  - destruct name as [|c rest]; [discriminate|].
    exists c, rest. split; [reflexivity|].
    destruct (lowerOrDigit c) eqn:E; [reflexivity|].
    cbn [MatchString] in Hm. rewrite void_no_match in Hm; [discriminate|].
    unfold repoNameRegexp, repoComponentRegexp, Plus.
    cbn [deriv nullable andb orb]. rewrite E. reflexivity.
  - intros c H1 H2 H3. apply (match_without c name repoNameRegexp); [|exact Hm].
    unfold repoNameRegexp, repoComponentRegexp, Plus. cbn [avoids].
    rewrite H1, H2. apply Ascii.eqb_neq in H3. rewrite H3. reflexivity.
Qed.

End ScopeProps.

Module FilterProps.
Import regexp strings auth api RegexFacts SplitFacts ScopeProps.

Lemma filterRepoActions_acc {Account} (actions : list string)
  (access : AccessLevel Account) (account : Account) (acc : list string) :
  fold_left
    (fun result action =>
       if (action =? "pull") && CanViewAccount access account
       then result ++ [action]
       else if (action =? "push") && CanChangeAccount access account
       then result ++ [action] else result)
    actions acc
  = acc ++ filter (fun a => (a =? "pull") && CanViewAccount access account
                            || (a =? "push") && CanChangeAccount access account)
                  actions.
Proof.
  revert acc. induction actions as [|a l IH]; intros acc; cbn [fold_left filter].
  - now rewrite app_nil_r.
  - rewrite IH.
    destruct ((a =? "pull") && CanViewAccount access account);
      [cbn [orb]; now rewrite <- app_assoc|].
    destruct ((a =? "push") && CanChangeAccount access account);
      cbn [orb]; [now rewrite <- app_assoc | reflexivity].
Qed.

Lemma filterRepoActions_filter {Account} (actions : list string)
  (access : AccessLevel Account) (account : Account) :
  filterRepoActions actions access account
  = filter (fun a => (a =? "pull") && CanViewAccount access account
                     || (a =? "push") && CanChangeAccount access account)
           actions.
Proof. unfold filterRepoActions. now rewrite filterRepoActions_acc. Qed.

Lemma filterRegistryActions_acc {Account} (actions : list string)
  (access : AccessLevel Account) (acc : list string) :
  fold_left
    (fun result action =>
       if (action =? "*") && CanViewAccounts access
       then result ++ [action] else result)
    actions acc
  = acc ++ filter (fun a => (a =? "*") && CanViewAccounts access) actions.
Proof.
  revert acc. induction actions as [|a l IH]; intros acc; cbn [fold_left filter].
  - now rewrite app_nil_r.
  - rewrite IH. destruct ((a =? "*") && CanViewAccounts access);
      [now rewrite <- app_assoc | reflexivity].
Qed.

Lemma filterRegistryActions_filter {Account} (actions : list string)
  (access : AccessLevel Account) :
  filterRegistryActions actions access
  = filter (fun a => (a =? "*") && CanViewAccounts access) actions.
Proof. unfold filterRegistryActions. now rewrite filterRegistryActions_acc. Qed.

(** X26: filterRepoActions never adds to what was asked for: an action
    is in the result exactly when it was asked for and is "pull" under
    the permission to view the account, or "push" under the permission
    to change it.  Likewise filterRegistryActions keeps "*" alone, and
    only under the permission to view accounts. *)
Theorem filters_grant_only_what_is_permitted {Account} (actions : list string)
  (access : AccessLevel Account) (account : Account) (a : string) :
  (In a (filterRepoActions actions access account)
   <-> In a actions
       /\ ((a = "pull" /\ CanViewAccount access account = true)
           \/ (a = "push" /\ CanChangeAccount access account = true)))
  /\ (In a (filterRegistryActions actions access)
      <-> In a actions /\ a = "*" /\ CanViewAccounts access = true).
Proof.
  rewrite filterRepoActions_filter, filterRegistryActions_filter.
  rewrite !filter_In, orb_true_iff, !andb_true_iff, !String.eqb_eq. tauto.
Qed.

(** X27: a scope that ParseScope has accepted, under the filters.  For a
    repository scope a user with both permissions keeps every action,
    in the order of the request; the catalog scope keeps its action "*"
    exactly under the permission to view accounts. *)
Theorem parsed_scope_under_the_filters {Account} (input : string) (scope : Scope)
  (access : AccessLevel Account) (account : Account) :
  ParseScope input = Parsed scope ->
  (ResourceType scope = "repository" ->
   CanViewAccount access account = true ->
   CanChangeAccount access account = true ->
   filterRepoActions (Actions scope) access account = Actions scope)
  /\ (ResourceType scope = "registry" ->
      filterRegistryActions (Actions scope) access
      = if CanViewAccounts access then ["*"] else []).
Proof.
  intros Hp. destruct (ParseScope_shape input scope Hp) as [Hcat|Hrepo]; split.
  - intros Ht. rewrite Hcat in Ht. discriminate.
  - intros _. rewrite Hcat. unfold filterRegistryActions.
    cbn [Actions fold_left String.eqb Ascii.eqb Bool.eqb andb app].
    now destruct (CanViewAccounts access).
  - intros _ Hv Hc. rewrite filterRepoActions_filter, Hv, Hc.
    destruct Hrepo as [_ Hact]. induction (Actions scope) as [|a l IH];
      [reflexivity|].
    cbn [filter]. rewrite !andb_true_r.
    assert (Ha : isAction a = true) by (apply Hact; now left).
    unfold isAction in Ha. rewrite Ha. f_equal. apply IH.
    intros x Hx. apply Hact. now right.
  - intros Ht. destruct Hrepo as [Hr _]. rewrite Hr in Ht. discriminate.
Qed.

End FilterProps.

Module DriverRegistryProps.
Import keppel.

Lemma lookup_cons {AuthDriver} (name other : string)
  (f : option (unit -> AuthDriver)) (m : factories AuthDriver) :
  lookup other ((name, f) :: m) = if name =? other then Some f else lookup other m.
Proof. reflexivity. Qed.

(** X28: a factory that RegisterAuthDriver has taken is the one that
    NewAuthDriver calls for this name; the drivers of all other names are
    as before; and a second registration of the name panics, also when
    the first factory was nil, for which NewAuthDriver reports that there
    is no such driver. *)
Theorem RegisterAuthDriver_then_NewAuthDriver {AuthDriver}
  (m m' : factories AuthDriver) (name : string)
  (factory : option (unit -> AuthDriver)) :
  RegisterAuthDriver m name factory = Registered m' ->
  NewAuthDriver m' name
  = match factory with
    | Some f => Driver (f tt)
    | None => NoSuchDriver ("no such auth driver: " +++ name)
    end
  /\ (forall other, other <> name -> NewAuthDriver m' other = NewAuthDriver m other)
  /\ (forall again,
        RegisterAuthDriver m' name again
        = Panic ("attempted to register multiple auth drivers with name = " +++ name)).
Proof.
  unfold RegisterAuthDriver. destruct (lookup name m) eqn:E; [discriminate|].
  intros [= <-]. unfold NewAuthDriver. rewrite !lookup_cons, String.eqb_refl.
  split; [now destruct factory|]. split; [|reflexivity].
  intros other Hne. rewrite lookup_cons.
  destruct (String.eqb_spec name other); [congruence | reflexivity].
Qed.

End DriverRegistryProps.
(** ** Examples for the buffer and for scopes *)

Module MoreExamples.
Import Sample Worlds.

(** A buffer of four bytes: three bytes stay in the buffer; three more
    fill it up, it is flushed as one segment of four bytes, and two bytes
    stay. *)
Example buffer_fills_and_flushes :
  match bufferedWriter.Writer 4 "/v2/upload" false smallChunks with
  | (Ok w, st) =>
      match bufferedWriter.writeAll 2 [[x61; x62; x63]; [x64; x65; x66]] w st with
      | (e, w1, st1) =>
          (e, bufio.buf (bufferedWriter.bw w1), map rowSizeBytes (segmentRows st1))
      end
  | _ => (None, [], [])
  end
  = (None, [x65; x66], [4%Z]).
Proof. vm_compute. reflexivity. Qed.

(** A write that is larger than the empty buffer goes to the writer in
    one piece. *)
Example large_write_bypasses_the_buffer :
  match bufferedWriter.Writer 4 "/v2/upload" false smallChunks with
  | (Ok w, st) =>
      match bufferedWriter.Write 2 hello w st with
      | (r, w1, st1) =>
          (r, bufio.buf (bufferedWriter.bw w1), map rowSizeBytes (segmentRows st1))
      end
  | _ => ((0, None), [], [])
  end
  = ((5, None), [], [5%Z]).
Proof. vm_compute. reflexivity. Qed.

Example repoName_examples :
  map (regexp.MatchString auth.repoNameRegexp)
      ["library/alpine"; "a.b-c_d/e"; "a"; ""; "Alpine"; "a--b"; "a/b/"; "/a";
       "a..b"; "a b"]
  = [true; true; true; false; false; false; false; false; false; false].
Proof. vm_compute. reflexivity. Qed.

Example Split_examples :
  strings.Split "a:b::c" ":" = ["a"; "b"; ""; "c"]
  /\ strings.Split "" ":" = [""]
  /\ strings.Split ":" ":" = [""; ""].
Proof. repeat split; reflexivity. Qed.

Example ParseScope_examples :
  map auth.ParseScope
      [""; ":b:c"; "a:b:c:d"; "repository:foo"; "repository";
       "registry:other:*"; "image:foo:pull"; "repository:foo:delete";
       "repository:Foo:pull"]
  = map auth.Rejected
      [auth.errorScopeMissing; auth.errorScopeMissingResource;
       auth.errorScopeInvalid; auth.errorScopeMissingActions;
       auth.errorScopeMissingRepository; auth.errorScopeResourceUnsupported;
       auth.errorScopeResourceUnsupported; auth.errorScopeActionInvalid;
       auth.errorScopeRepositoryInvalid].
Proof. vm_compute. reflexivity. Qed.

End MoreExamples.

(** ** The theorems at sample worlds *)

Module Witnesses.
Import path plusDriver sql Tree Mutation WriterAux Sample.

Ltac leb := apply Nat.leb_le; reflexivity.

(** A put of 300 bytes at /v2/blob into the empty world. *)
Lemma PutContent_then_GetContent_witness :
  validPath "/v2/blob" = true
  /\ exists w1,
       PutContent 10 "/v2/blob" large emptyWorld = (Ok tt, w1)
       /\ (exists w2, GetContent "/v2/blob" w1 = (Ok large, w2))
       /\ (exists fi, Stat "/v2/blob" w1 = (Ok fi, w1) /\ Size fi = 300%Z)
       /\ swiftModel.writeCalls (swift w1) = 1.
Proof.
  split; [reflexivity|].
  destruct (PutProps.PutContent_then_GetContent 10 "/v2/blob" large emptyWorld)
    as (w1 & Hput & Hget & Hstat & _ & Hbig).
  - reflexivity.
  - leb.
  - intros _. leb.
  - exists w1. split; [exact Hput|]. split; [exact Hget|]. split; [exact Hstat|].
    apply Hbig. unfold maxInlineSizeBytes. apply Nat.ltb_lt. reflexivity.
Defined.


(** Moving /a/f onto itself. *)
Lemma Move_onto_itself_deletes_the_record_witness :
  recordAt dirWithFile "/a/f" = Some fileUnderA
  /\ exists w',
       Move 8 "/a/f" "/a/f" dirWithFile = (Ok tt, w')
       /\ recordAt w' "/a/f" = None
       /\ GetContent "/a/f" w' = (Err (PathNotFoundError "/a/f"), w')
       /\ Stat "/a/f" w' = (Err (PathNotFoundError "/a/f"), w').
Proof.
  split; [reflexivity|].
  apply (MoveProps.Move_onto_itself_deletes_the_record 8 "/a/f" dirWithFile fileUnderA).
  - reflexivity.
  - leb.
  - reflexivity.
  - reflexivity.
Defined.



(** Appending two chunks to a file written in two segments. *)
Lemma append_continues_numbering_witness :
  selectSegments "0123456789abcdef" (segmentRows twoSegments)
  = [segmentRow1; segmentRow2]
  /\ fst (GetContent "/v2/upload" twoSegments) = Ok (hello ++ hello)
  /\ exists wr0 wr1 w1 wr2 w2 wr3 w3,
       plusWriter.newPlusWriter 12 "/v2/upload" true twoSegments = (Ok wr0, twoSegments)
       /\ plusWriter.Write [x21] wr0 twoSegments = (Ok 1%Z, wr1, w1)
       /\ plusWriter.Write [x3f] wr1 w1 = (Ok 1%Z, wr2, w2)
       /\ segmentRows w2
          = segmentRows twoSegments
            ++ [mkSegmentRow "0123456789abcdef" 3 1 (swiftModel.etag [x21]);
                mkSegmentRow "0123456789abcdef" 4 1 (swiftModel.etag [x3f])]
       /\ plusWriter.Commit 12 wr2 w2 = (Ok tt, wr3, w3)
       /\ fst (GetContent "/v2/upload" w3) = Ok (hello ++ hello ++ [x21] ++ [x3f]).
Proof.
  split; [vm_compute; reflexivity|]. split; [vm_compute; reflexivity|].
  apply (AppendProps.append_continues_numbering
           12 "/v2/upload" twoSegments uploadRow segmentRow1 segmentRow2
           hello hello [x21] [x3f]).
  - reflexivity.
  - leb.
  - vm_compute. reflexivity.
  - reflexivity.
  - reflexivity.
  - discriminate.
  - vm_compute. reflexivity.
  - reflexivity.
  - reflexivity.
  - reflexivity.
  - reflexivity.
  - vm_compute. reflexivity.
  - vm_compute. reflexivity.
  - vm_compute. reflexivity.
  - reflexivity.
Defined.


(** Moving the file /a/f to /b/g keeps the parent rows complete. *)
Lemma mutations_keep_parent_rows_witness :
  leavesNoOrphans (MMove "/a/f" "/b/g") dirWithFile
  /\ fst (run 8 (MMove "/a/f" "/b/g") dirWithFile) = Ok tt
  /\ parentsPresent (files (snd (run 8 (MMove "/a/f" "/b/g") dirWithFile))) = true.
Proof.
  assert (Hside : leavesNoOrphans (MMove "/a/f" "/b/g") dirWithFile).
  { unfold leavesNoOrphans. split; [reflexivity|]. split; [reflexivity|].
    split; reflexivity. }
  split; [exact Hside|]. split; [vm_compute; reflexivity|].
  apply (InvariantProps.mutations_keep_parent_rows
           8 (MMove "/a/f" "/b/g") dirWithFile
           (snd (run 8 (MMove "/a/f" "/b/g") dirWithFile))).
  - reflexivity.
  - exact Hside.
  - vm_compute. reflexivity.
Defined.

End Witnesses.
(** ** Further theorems at sample worlds *)

Module Instances.
Import path plusDriver sql Tree WriterAux Stream Sample Worlds.

Ltac leb := apply Nat.leb_le; reflexivity.
Ltac zlt := apply Z.ltb_lt; vm_compute; reflexivity.
Ltac zle := apply Z.leb_le; vm_compute; reflexivity.

Lemma appendWriter_consistent :
  consistent twoSegments appendWriter (hello ++ hello).
Proof.
  constructor; try (vm_compute; reflexivity).
  split; [vm_compute; reflexivity | discriminate].
Qed.

(** One more chunk for the file that [twoSegments] holds in two
    segments. *)
Lemma chunks_are_read_back_in_order_witness :
  consistent twoSegments appendWriter (hello ++ hello)
  /\ exists wr1 st1 wr2 st2,
       writeAll [hello] appendWriter twoSegments = (Ok tt, wr1, st1)
       /\ segmentRows st1
          = segmentRows twoSegments
            ++ [mkSegmentRow "0123456789abcdef" 3 5 (swiftModel.etag hello)]
       /\ plusWriter.Commit 12 wr1 st1 = (Ok tt, wr2, st2)
       /\ fst (GetContent "/v2/upload" st2) = Ok (hello ++ hello ++ hello).
Proof.
  split; [exact appendWriter_consistent|].
  destruct (StreamProps.chunks_are_read_back_in_order
              12 appendWriter twoSegments (hello ++ hello) [hello])
    as (wr1 & st1 & wr2 & st2 & H1 & H2 & _ & H3 & H4 & _).
  - exact appendWriter_consistent.
  - reflexivity.
  - reflexivity.
  - reflexivity.
  - reflexivity.
  - leb.
  - zle.
  - zlt.
  - exists wr1, st1, wr2, st2. split; [exact H1|]. split; [exact H2|].
    split; [exact H3 | exact H4].
Defined.

(** A new file /v2/upload written in two chunks of 5 and 300 bytes. *)
Lemma Writer_new_file_round_trip_witness :
  recordAt emptyWorld "/v2/upload" = None
  /\ exists wr0 w0 wr1 w1 wr2 w2,
       plusWriter.newPlusWriter 12 "/v2/upload" false emptyWorld = (Ok wr0, w0)
       /\ writeAll [hello; large] wr0 w0 = (Ok tt, wr1, w1)
       /\ segmentRows w1
          = [mkSegmentRow "0123456789abcdef" 1 5 (swiftModel.etag hello);
             mkSegmentRow "0123456789abcdef" 2 300 (swiftModel.etag large)]
       /\ plusWriter.Commit 12 wr1 w1 = (Ok tt, wr2, w2)
       /\ fst (GetContent "/v2/upload" w2) = Ok (hello ++ large).
Proof.
  split; [reflexivity|].
  destruct (StreamProps.Writer_new_file_round_trip
              12 "/v2/upload" false emptyWorld [hello; large])
    as (wr0 & w0 & wr1 & w1 & wr2 & w2 & H1 & H2 & H3 & H4 & H5).
  - reflexivity.
  - leb.
  - reflexivity.
  - leb.
  - intros r [].
  - zle.
  - zlt.
  - exists wr0, w0, wr1, w1, wr2, w2. split; [exact H1|]. split; [exact H2|].
    split; [exact H3|]. split; [exact H4|].
    rewrite H5. cbn [List.concat]. now rewrite app_nil_r.
Defined.

(** Appending to /v2/small, which holds five bytes in the table. *)
Lemma append_to_inline_file_drops_contents_witness :
  recordAt smallFile "/v2/small" = Some smallRow
  /\ exists wr0 w0 wr1 w1 wr2 w2,
       plusWriter.newPlusWriter 12 "/v2/small" true smallFile = (Ok wr0, w0)
       /\ plusWriter.segments wr0 = []
       /\ writeAll [large] wr0 w0 = (Ok tt, wr1, w1)
       /\ plusWriter.Commit 12 wr1 w1 = (Ok tt, wr2, w2)
       /\ fst (GetContent "/v2/small" w2) = Ok large.
Proof.
  split; [vm_compute; reflexivity|].
  destruct (StreamProps.append_to_inline_file_drops_contents
              12 "/v2/small" smallFile smallRow [large])
    as (wr0 & w0 & wr1 & w1 & wr2 & w2 & H1 & H2 & H3 & H4 & H5).
  - reflexivity.
  - leb.
  - vm_compute. reflexivity.
  - reflexivity.
  - apply Nat.leb_le. vm_compute. reflexivity.
  - intros r [].
  - zle.
  - zlt.
  - exists wr0, w0, wr1, w1, wr2, w2. split; [exact H1|]. split; [exact H2|].
    split; [exact H3|]. split; [exact H4|].
    rewrite H5. cbn [List.concat]. now rewrite app_nil_r.
Defined.

(** A Write on the cancelled writer: the row of segment 1 is still in the
    table. *)
Lemma Write_failure_keeps_upload_witness :
  let wr := fst cancelledWriter in
  let st := snd cancelledWriter in
  fst (fst (plusWriter.Write hello wr st)) = Err ErrUniqueViolation
  /\ plusWriter.segments (snd (fst (plusWriter.Write hello wr st)))
     = [seg.mkSegment "keppel" "0123456789abcdef" 1 5 (swiftModel.etag hello)]
  /\ segmentRows (snd (plusWriter.Write hello wr st)) = segmentRows st.
Proof.
  cbv zeta. split; [vm_compute; reflexivity|].
  destruct (StreamProps.Write_failure_keeps_upload
              hello (fst cancelledWriter)
              (snd (fst (plusWriter.Write hello (fst cancelledWriter)
                           (snd cancelledWriter))))
              (snd cancelledWriter)
              (snd (plusWriter.Write hello (fst cancelledWriter)
                      (snd cancelledWriter)))
              ErrUniqueViolation)
    as (_ & H2 & _ & H4).
  - vm_compute. reflexivity.
  - split; [rewrite H2; vm_compute; reflexivity | exact H4].
Defined.

(** An upload of two chunks to /v2/upload that is cancelled. *)
Lemma Cancel_of_new_upload_leaves_segments_witness :
  exists wr0 w0 wr1 w1 wr2,
    plusWriter.newPlusWriter 4 "/v2/upload" false emptyWorld = (Ok wr0, w0)
    /\ writeAll [hello; large] wr0 w0 = (Ok tt, wr1, w1)
    /\ plusWriter.Cancel 4 wr1 w1 = (Ok tt, wr2, w1)
    /\ segmentRows w1
       = [mkSegmentRow "0123456789abcdef" 1 5 (swiftModel.etag hello);
          mkSegmentRow "0123456789abcdef" 2 300 (swiftModel.etag large)].
Proof.
  destruct (StreamProps.Cancel_of_new_upload_leaves_segments
              4 "/v2/upload" false emptyWorld [hello; large])
    as (wr0 & w0 & wr1 & w1 & wr2 & H1 & H2 & H3 & _ & _ & H4 & _).
  - reflexivity.
  - leb.
  - intros r [].
  - zle.
  - zlt.
  - exists wr0, w0, wr1, w1, wr2. split; [exact H1|]. split; [exact H2|].
    split; [exact H3 | exact H4].
Defined.

(** The commit of the upload of [openWriter], and a second one. *)
Lemma Commit_is_final_witness :
  plusWriter.Commit 12 (fst openWriter) (snd openWriter)
  = (Ok tt, fst committedWriter, snd committedWriter)
  /\ plusWriter.Commit 12 (fst committedWriter) (snd committedWriter)
     = (Err errCommitted, fst committedWriter, snd committedWriter)
  /\ plusWriter.Close 12 (fst committedWriter) (snd committedWriter)
     = (Ok tt, fst committedWriter, snd committedWriter).
Proof.
  assert (H : plusWriter.Commit 12 (fst openWriter) (snd openWriter)
              = (Ok tt, fst committedWriter, snd committedWriter))
    by (vm_compute; reflexivity).
  split; [exact H|].
  apply (StreamProps.Commit_is_final 12 12 _ _ _ _ H).
Defined.

(** Reader on /v2/blob in the empty world. *)
Lemma Reader_without_file_witness :
  recordAt emptyWorld "/v2/blob" = None
  /\ Reader "/v2/blob" 0 emptyWorld = (Err (PathNotFoundError "/v2/blob"), emptyWorld).
Proof.
  split; [reflexivity|].
  apply ReaderProps.Reader_without_file. left. reflexivity.
Defined.

(** Reader at offset 301 on the file of 300 bytes in the object store. *)
Lemma Reader_beyond_size_witness :
  recordAt withLargeFile "/v2/blob" = Some largeRow
  /\ Reader "/v2/blob" 301 withLargeFile = (Ok [], withLargeFile).
Proof.
  split; [vm_compute; reflexivity|].
  apply (ReaderProps.Reader_beyond_size "/v2/blob" 301 withLargeFile largeRow).
  - vm_compute. reflexivity.
  - reflexivity.
  - zlt.
Defined.

(** Reader at offset 100 after a put of 300 bytes. *)
Lemma Reader_after_PutContent_witness :
  exists w1,
    PutContent 10 "/v2/blob" large emptyWorld = (Ok tt, w1)
    /\ fst (Reader "/v2/blob" 100 w1) = Ok (skipn 100 large).
Proof.
  apply (ReaderProps.Reader_after_PutContent 10 "/v2/blob" large 100 emptyWorld).
  - reflexivity.
  - leb.
  - intros _. leb.
  - zle.
Defined.

(** mkdirAll on the relative path v2/blob with a budget of 50. *)
Lemma mkdirAll_relative_path_never_returns_witness :
  isRooted "v2/blob" = false
  /\ fst (mkdirAll 50 "v2/blob" emptyWorld) = OutOfFuel.
Proof.
  split; [reflexivity|].
  apply DirectoryProps.mkdirAll_relative_path_never_returns.
  - reflexivity.
  - discriminate.
Defined.

(** mkdirAll for /a/b, twice. *)
Lemma mkdirAll_again_changes_no_row_witness :
  fst (mkdirAll 5 "/a/b" emptyWorld) = Ok tt
  /\ exists w2,
       mkdirAll 5 "/a/b" (snd (mkdirAll 5 "/a/b" emptyWorld)) = (Ok tt, w2)
       /\ files w2 = files (snd (mkdirAll 5 "/a/b" emptyWorld)).
Proof.
  split; [reflexivity|].
  apply (DirectoryProps.mkdirAll_again_changes_no_row 5 "/a/b" emptyWorld).
  vm_compute. reflexivity.
Defined.

(** A put of five bytes onto /v2/blob, which holds 300 bytes in the
    object store. *)
Lemma PutContent_replaces_the_record_witness :
  recordAt withLargeFile "/v2/blob" = Some largeRow
  /\ exists w1,
       PutContent 10 "/v2/blob" hello withLargeFile = (Ok tt, w1)
       /\ (exists w2, GetContent "/v2/blob" w1 = (Ok hello, w2))
       /\ noObjectUnder "keppel/0123456789abcdef/" w1.
Proof.
  split; [vm_compute; reflexivity|].
  destruct (ComposeProps.PutContent_replaces_the_record
              10 "/v2/blob" hello withLargeFile largeRow)
    as (w1 & H1 & H2 & H3).
  - reflexivity.
  - leb.
  - intros H. exfalso. revert H. apply Nat.lt_nge. leb.
  - vm_compute. reflexivity.
  - exists w1. split; [exact H1|]. split; [exact H2|].
    intros name o Hin.
    destruct (String.prefix "keppel/0123456789abcdef/" name) eqn:E; [|reflexivity].
    exfalso. destruct (H3 ltac:(discriminate) name o Hin E) as [Hbig _].
    revert Hbig. apply Nat.lt_nge. leb.
Defined.

(** A put at /v2/blob: the file is listed in /v2, and /v2 in the root. *)
Lemma PutContent_shows_in_listings_witness :
  exists w1,
    PutContent 10 "/v2/blob" large emptyWorld = (Ok tt, w1)
    /\ (exists qs, List "/v2" w1 = (Ok qs, w1) /\ In "/v2/blob" qs)
    /\ (exists qs, List "/" w1 = (Ok qs, w1) /\ In "/v2" qs).
Proof.
  destruct (ComposeProps.PutContent_shows_in_listings 10 "/v2/blob" large emptyWorld)
    as (w1 & H1 & H2).
  - reflexivity.
  - leb.
  - intros _. leb.
  - exists w1. split; [exact H1|]. split.
    + apply (H2 "/v2/blob"). now left.
    + apply (H2 "/v2"). right. split; [|discriminate].
      apply (ancestor_parent "/v2/blob"). reflexivity.
Defined.

(** A put of 300 bytes at /v2/blob and a delete of /v2/blob. *)
Lemma Delete_leaves_the_directories_witness :
  exists w1 w2,
    PutContent 10 "/v2/blob" large emptyWorld = (Ok tt, w1)
    /\ Delete 10 "/v2/blob" w1 = (Ok tt, w2)
    /\ GetContent "/v2/blob" w2 = (Err (PathNotFoundError "/v2/blob"), w2)
    /\ noObjectUnder "keppel/0123456789abcdef/" w2
    /\ exists fi, Stat "/v2" w2 = (Ok fi, w2).
Proof.
  destruct (ComposeProps.Delete_leaves_the_directories 10 "/v2/blob" large emptyWorld)
    as (w1 & w2 & H1 & H2 & H3 & H4 & H5).
  - reflexivity.
  - leb.
  - intros _. leb.
  - exists w1, w2. split; [exact H1|]. split; [exact H2|]. split; [exact H3|].
    split.
    + apply H4. apply Nat.ltb_lt. reflexivity.
    + apply (H5 "/v2"). apply (ancestor_parent "/v2/blob"). reflexivity.
Defined.

(** Moving /a/f onto /a/d/g, a file in the object store. *)
Lemma Move_replaces_destination_file_witness :
  exists w',
    Move 8 "/a/f" "/a/d/g" nested = (Ok tt, w')
    /\ recordAt w' "/a/d/g" = Some (rekey "/a/d" "g" fileUnderA)
    /\ GetContent "/a/f" w' = (Err (PathNotFoundError "/a/f"), w')
    /\ noObjectUnder "keppel/0123456789abcdef/" w'.
Proof.
  destruct (ComposeProps.Move_replaces_destination_file
              8 "/a/f" "/a/d/g" nested fileUnderA
              (mkFileInfo "/a/d" "g" 300 1000 [] "0123456789abcdef"))
    as (w' & H1 & H2 & H3 & H4).
  - reflexivity.
  - reflexivity.
  - discriminate.
  - leb.
  - reflexivity.
  - reflexivity.
  - reflexivity.
  - exists w'. split; [exact H1|]. split; [exact H2|]. split; [exact H3|].
    apply H4. discriminate.
Defined.

(** List on the directory /a of [nested]. *)
Lemma List_gives_the_records_of_the_directory_witness :
  wellFormed (files nested) = true
  /\ exists qs,
       List "/a" nested = (Ok qs, nested)
       /\ (In "/a/f" qs <-> (validPath "/a/f" = true /\ Dir "/a/f" = "/a"
                             /\ exists fi, Stat "/a/f" nested = (Ok fi, nested))).
Proof.
  split; [reflexivity|].
  destruct (ComposeProps.List_gives_the_records_of_the_directory "/a" nested)
    as (qs & H1 & H2).
  - reflexivity.
  - reflexivity.
  - exists qs. split; [exact H1 | apply H2].
Defined.

Lemma bufferedHello_holds :
  bufferedWriter.holds (snd bufferedHello) (fst bufferedHello) hello.
Proof.
  split; [reflexivity|]. split; [leb|]. split; [apply Nat.ltb_lt; reflexivity|].
  exists []. split; [|reflexivity].
  constructor; try (vm_compute; reflexivity).
  split; [vm_compute; reflexivity | discriminate].
Qed.

(** Two more chunks for the buffered writer that holds five bytes. *)
Lemma buffered_chunks_are_read_back_witness :
  bufferedWriter.holds (snd bufferedHello) (fst bufferedHello) hello
  /\ exists w1 st1 w2 st2,
       bufferedWriter.writeAll 12 [large; hello] (fst bufferedHello)
         (snd bufferedHello) = (None, w1, st1)
       /\ bufferedWriter.Size w1 = 310%Z
       /\ bufferedWriter.Commit 12 w1 st1 = (None, w2, st2)
       /\ fst (GetContent "/v2/upload" st2) = Ok (hello ++ large ++ hello).
Proof.
  split; [exact bufferedHello_holds|].
  destruct (BufferProps.buffered_chunks_are_read_back
              12 (fst bufferedHello) (snd bufferedHello) hello [large; hello])
    as (w1 & st1 & w2 & st2 & H1 & H2 & H3 & H4).
  - exact bufferedHello_holds.
  - reflexivity.
  - reflexivity.
  - reflexivity.
  - reflexivity.
  - leb.
  - zle.
  - zlt.
  - exists w1, st1, w2, st2. split; [exact H1|]. split; [exact H2|].
    split; [exact H3 | exact H4].
Defined.

(** Writer on a store with chunks of four bytes: three writes and a
    commit. *)
Lemma Writer_round_trip_witness :
  exists bw0 w0 bw1 w1 bw2 w2,
    bufferedWriter.Writer 12 "/v2/upload" false smallChunks = (Ok bw0, w0)
    /\ bufferedWriter.writeAll 12 [hello; [x61; x62]; hello] bw0 w0 = (None, bw1, w1)
    /\ bufferedWriter.Size bw1 = 12%Z
    /\ bufferedWriter.Commit 12 bw1 w1 = (None, bw2, w2)
    /\ fst (GetContent "/v2/upload" w2) = Ok (hello ++ [x61; x62] ++ hello).
Proof.
  destruct (BufferProps.Writer_round_trip
              12 "/v2/upload" false smallChunks [hello; [x61; x62]; hello])
    as (bw0 & w0 & bw1 & w1 & bw2 & w2 & H1 & H2 & H3 & H4 & H5).
  - reflexivity.
  - leb.
  - reflexivity.
  - leb.
  - intros r [].
  - zle.
  - zlt.
  - exists bw0, w0, bw1, w1, bw2, w2. split; [exact H1|]. split; [exact H2|].
    split; [exact H3|]. split; [exact H4|].
    rewrite H5. cbn [List.concat]. now rewrite app_nil_r.
Defined.

(** Five more bytes for the buffer of 1024 bytes that holds five. *)
Lemma small_writes_stay_in_the_buffer_witness :
  bufferedWriter.Write 2 hello (fst bufferedHello) (snd bufferedHello)
  = ((5, None),
     bufferedWriter.mkBuffered (bufferedWriter.fw (fst bufferedHello))
       (bufio.mkBufio None 1024 (hello ++ hello)),
     snd bufferedHello).
Proof.
  apply (BufferProps.small_writes_stay_in_the_buffer
           2 hello (fst bufferedHello) (snd bufferedHello)).
  - reflexivity.
  - leb.
Defined.

(** The buffered writer whose INSERT has failed. *)
Lemma buffer_error_is_sticky_witness :
  bufio.err (bufferedWriter.bw (fst failedBuffer))
  = Some (bufio.Failed ErrUniqueViolation)
  /\ bufferedWriter.Commit 12 (fst failedBuffer) (snd failedBuffer)
     = (Some (bufio.Failed ErrUniqueViolation), fst failedBuffer, snd failedBuffer)
  /\ bufferedWriter.Cancel 12 (fst failedBuffer) (snd failedBuffer)
     = (Some (bufio.Failed ErrUniqueViolation), fst failedBuffer, snd failedBuffer).
Proof.
  split; [reflexivity|].
  destruct (BufferProps.buffer_error_is_sticky
              12 hello (fst failedBuffer) (snd failedBuffer)
              (bufio.Failed ErrUniqueViolation))
    as (_ & H2 & H3 & _).
  - reflexivity.
  - split; [exact H2 | exact H3].
Defined.

(** Cancel on the buffered writer that holds five bytes. *)
Lemma Cancel_uploads_the_buffer_first_witness :
  segmentRows (snd bufferedHello) = []
  /\ exists w1 st1,
       bufferedWriter.Cancel 4 (fst bufferedHello) (snd bufferedHello)
       = (None, w1, st1)
       /\ segmentRows st1
          = [mkSegmentRow "0123456789abcdef" 1 5 (swiftModel.etag hello)]
       /\ files st1 = files (snd bufferedHello).
Proof.
  split; [reflexivity|].
  destruct (BufferProps.Cancel_uploads_the_buffer_first
              4 (fst bufferedHello) (snd bufferedHello) hello)
    as (w1 & st1 & H1 & H2 & H3 & _).
  - exact bufferedHello_holds.
  - discriminate.
  - reflexivity.
  - reflexivity.
  - zlt.
  - zlt.
  - exists w1, st1. split; [exact H1|]. split; [exact H2 | exact H3].
Defined.

(** The scope repository:library/alpine:pull,push. *)
Lemma ParseScope_reads_back_a_repository_scope_witness :
  auth.ParseScope "repository:library/alpine:pull,push"
  = auth.Parsed (auth.mkScope "repository" "library/alpine" ["pull"; "push"]).
Proof.
  apply (ScopeProps.ParseScope_reads_back_a_repository_scope
           "library/alpine" ["pull"; "push"]).
  - leb.
  - reflexivity.
  - discriminate.
  - constructor; [now left|]. constructor; [now right|]. constructor.
Defined.

Lemma ParseScope_accepts_only_witness :
  auth.ParseScope "registry:catalog:pull"
  = auth.Parsed (auth.mkScope "registry" "catalog" ["*"])
  /\ exists asked, "registry:catalog:pull" = "registry:catalog:" +++ asked.
Proof.
  assert (H : auth.ParseScope "registry:catalog:pull"
              = auth.Parsed (auth.mkScope "registry" "catalog" ["*"]))
    by reflexivity.
  split; [exact H|].
  destruct (ScopeProps.ParseScope_accepts_only _ _ H)
    as [(_ & asked & Ha & _)|(Ht & _)].
  - exists asked. exact Ha.
  - discriminate Ht.
Defined.

Lemma empty_actions_are_invalid_not_undefined_witness :
  auth.ParseScope "repository:library/alpine:"
  = auth.Rejected auth.errorScopeActionInvalid.
Proof.
  apply (ScopeProps.empty_actions_are_invalid_not_undefined "library/alpine").
  - leb.
  - reflexivity.
Defined.

Lemma repository_names_use_only_the_classes_witness :
  regexp.MatchString auth.repoNameRegexp "library/alpine" = true
  /\ strings.without ":" "library/alpine" = true.
Proof.
  split; [reflexivity|].
  apply (ScopeProps.repository_names_use_only_the_classes "library/alpine");
    [reflexivity | reflexivity | reflexivity | discriminate].
Defined.

(** The scope repository:library/alpine:push,pull under every
    permission. *)
Lemma parsed_scope_under_the_filters_witness :
  api.filterRepoActions ["push"; "pull"] fullAccess tt = ["push"; "pull"].
Proof.
  apply (FilterProps.parsed_scope_under_the_filters
           "repository:library/alpine:push,pull"
           (auth.mkScope "repository" "library/alpine" ["push"; "pull"])
           fullAccess tt);
    reflexivity.
Defined.

(** The first registration of a driver under the name keystone. *)
Lemma RegisterAuthDriver_then_NewAuthDriver_witness :
  keppel.NewAuthDriver [("keystone", Some (fun _ : unit => 7))] "keystone"
  = keppel.Driver 7
  /\ keppel.RegisterAuthDriver [("keystone", Some (fun _ : unit => 7))]
       "keystone" None
     = keppel.Panic "attempted to register multiple auth drivers with name = keystone".
Proof.
  destruct (DriverRegistryProps.RegisterAuthDriver_then_NewAuthDriver
              (@nil (string * option (unit -> nat)))
              [("keystone", Some (fun _ : unit => 7))]
              "keystone" (Some (fun _ => 7)))
    as (H1 & _ & H3).
  - reflexivity.
  - split; [exact H1 | exact (H3 None)].
Defined.

(** Close on the buffered writer that holds five bytes, twice. *)
Lemma Close_flushes_and_commits_witness :
  exists w1 st1,
    bufferedWriter.Close 12 (fst bufferedHello) (snd bufferedHello)
    = (None, w1, st1)
    /\ plusWriter.committed (bufferedWriter.fw w1) = true
    /\ fst (GetContent "/v2/upload" st1) = Ok hello
    /\ bufferedWriter.Close 12 w1 st1 = (None, w1, st1).
Proof.
  destruct (BufferProps.Close_flushes_and_commits
              12 (fst bufferedHello) (snd bufferedHello) hello)
    as (w1 & st1 & H1 & H2 & _ & H4 & H5).
  - exact bufferedHello_holds.
  - reflexivity.
  - reflexivity.
  - reflexivity.
  - reflexivity.
  - leb.
  - zlt.
  - zlt.
  - exists w1, st1. split; [exact H1|]. split; [exact H2|].
    split; [exact H4 | exact H5].
Defined.

(** A temporary URL for 300 bytes put at /v2/blob. *)
Lemma URLFor_after_PutContent_witness :
  exists w1,
    PutContent 10 "/v2/blob" large emptyWorld = (Ok tt, w1)
    /\ exists url w2,
         URLFor "/v2/blob" [] w1 = (Ok url, w2)
         /\ calls (swift w2)
            = calls (swift w1)
              ++ [CallMakeTempURL "keppel/0123456789abcdef/content"].
Proof.
  destruct (ComposeProps.URLFor_after_PutContent 10 "/v2/blob" large [] emptyWorld)
    as (w1 & H1 & _ & H3).
  - reflexivity.
  - leb.
  - intros _. leb.
  - exists w1. split; [exact H1|]. apply H3. apply Nat.ltb_lt. reflexivity.
Defined.

End Instances.
